(** * zodJsonSchemaCompat: a shallow embedding of the Zod to JSON Schema
      fallback converter of packages/agents-core/src/utils/zodJsonSchemaCompat.ts

    The converter inspects foreign, duck-typed JavaScript objects.  The
    embedding therefore keeps an explicit heap of objects, so that
    reference identity ([===]) and cyclic structures can be expressed.
    The converter only reads that heap; what it builds are fresh trees.

    Every loop and every recursive descent has a fuel argument, the
    number of nested calls the stack has room for, or of turns a loop is
    followed.  [Some r] is a call that returns [r]; [None] is a call that
    does not return: it loops without end, or an error escapes from it,
    the RangeError by which the engine ends a recursion that exhausts the
    stack, or the error thrown by a [shape] accessor.  The manual
    converter catches no such error.  The delegate runs the scanner inside
    a [try] block, so there the error is caught and the call goes on
    ([tryZod4NativeCompat]).  The manual converter and the scanner give
    the same result with any larger amount of fuel once they complete
    ([convertSchema_mono], [check_mono]), and on heaps without cycles and
    without throwing accessors a fuel above the highest address always
    suffices ([zodJsonSchemaCompat_total]). *)

From Stdlib Require Import String Ascii List ZArith Lia Bool Arith.
From Stdlib Require Import DecimalString Btauto.
Import ListNotations.
Local Open Scope string_scope.

(* ------------------------------------------------------------------ *)
(** ** JavaScript values and the heap *)

Definition addr := nat.

(** Primitive values are compared by content, objects by address.
    Numbers are modelled by integers (NaN and fractions play no role in
    the converter, which only tests numbers for truthiness and type). *)
Inductive value : Type :=
| VUndefined
| VNull
| VBool (b : bool)
| VNum (n : Z)
| VStr (s : string)
| VObj (a : addr).

(** A heap object is a plain object (its properties, listed in the order
    in which they were defined; a property defined by an accessor that
    returns is represented by the value it yields), an array, or a
    function.  The only functions the converter ever calls are
    zero-argument shape thunks: [call] is what such a call returns, [None]
    when it throws.  [ShapeThrows props] is a plain object with the
    properties [props] on which, in addition, the member [shape] is
    defined by an inherited accessor that throws when it is read, as the
    [shape] getter of an object schema of the older representation does
    when the shape thunk of its definition throws.  The error such an
    accessor throws is the schema author's: its message is taken not to
    contain the tag by which this module marks its own error.  Accessors
    on other members, such as a field of a shape written as a getter, are
    represented by the value they yield; one that throws is outside the
    model. *)
Inductive object : Type :=
| Plain (props : list (string * value))
| Array (elems : list value)
| Func (call : option value)
| ShapeThrows (props : list (string * value)).

Definition heap := list object.

Definition deref (h : heap) (v : value) : option object :=
  match v with
  | VObj a => nth_error h a
  | _ => None
  end.

Definition value_eqb (x y : value) : bool :=
  match x, y with
  | VUndefined, VUndefined => true
  | VNull, VNull => true
  | VBool a, VBool b => Bool.eqb a b
  | VNum a, VNum b => Z.eqb a b
  | VStr a, VStr b => String.eqb a b
  | VObj a, VObj b => Nat.eqb a b
  | _, _ => false
  end.

(** [!v] is [negb (truthy v)]. *)
Definition truthy (v : value) : bool :=
  match v with
  | VUndefined | VNull => false
  | VBool b => b
  | VNum n => negb (Z.eqb n 0)
  | VStr s => negb (String.eqb s EmptyString)
  | VObj _ => true
  end.

Definition is_undefined (v : value) : bool :=
  match v with VUndefined => true | _ => false end.

Definition nullish (v : value) : bool :=
  match v with VUndefined | VNull => true | _ => false end.

(** [a || b] and [a ?? b]. *)
Definition js_or (a b : value) : value := if truthy a then a else b.
Definition js_coalesce (a b : value) : value := if nullish a then b else a.

Definition js_typeof (h : heap) (v : value) : string :=
  match v with
  | VUndefined => "undefined"
  | VNull => "object"
  | VBool _ => "boolean"
  | VNum _ => "number"
  | VStr _ => "string"
  | VObj a =>
      match nth_error h a with
      | Some (Func _) => "function"
      | _ => "object"
      end
  end.

(** [typeof v === 'object' && v !== null] *)
Definition is_object (h : heap) (v : value) : bool :=
  match v with
  | VObj a =>
      match nth_error h a with
      | Some (Func _) => false
      | _ => true
      end
  | _ => false
  end.

Definition is_function (h : heap) (v : value) : bool :=
  match deref h v with
  | Some (Func _) => true
  | _ => false
  end.

Definition is_array (h : heap) (v : value) : bool :=
  match deref h v with
  | Some (Array _) => true
  | _ => false
  end.

Definition nat_to_string (n : nat) : string :=
  NilEmpty.string_of_uint (Nat.to_uint n).

Fixpoint indexed (i : nat) (l : list value) : list (string * value) :=
  match l with
  | [] => []
  | x :: l' => (nat_to_string i, x) :: indexed (S i) l'
  end.

Fixpoint chars (i : nat) (s : string) : list (string * value) :=
  match s with
  | EmptyString => []
  | String c s' => (nat_to_string i, VStr (String c EmptyString)) :: chars (S i) s'
  end.

(** The own properties of [v], in the order in which they were defined. *)
Definition declared_properties (h : heap) (v : value) : list (string * value) :=
  match v with
  | VObj a =>
      match nth_error h a with
      | Some (Plain ps) => ps
      | Some (ShapeThrows ps) => ps
      | Some (Array es) => indexed 0 es
      | _ => []
      end
  | VStr s => chars 0 s
  | _ => []
  end.

(** A property name is an array index when it is the canonical decimal
    numeral of an integer from 0 to 2^32 - 2. *)
Definition array_index (key : string) : option N :=
  match NilEmpty.uint_of_string key with
  | Some u =>
      let n := N.of_uint u in
      if String.eqb (NilEmpty.string_of_uint (N.to_uint n)) key && N.leb n 4294967294
      then Some n
      else None
  | None => None
  end.

Fixpoint insert_by_index {A : Type} (n : N) (x : A) (l : list (N * A)) : list (N * A) :=
  match l with
  | [] => [(n, x)]
  | (m, y) :: l' => if N.ltb n m then (n, x) :: l else (m, y) :: insert_by_index n x l'
  end.

Fixpoint index_properties (ps : list (string * value)) : list (N * (string * value)) :=
  match ps with
  | [] => []
  | (k, v) :: ps' =>
      match array_index k with
      | Some n => insert_by_index n (k, v) (index_properties ps')
      | None => index_properties ps'
      end
  end.

Definition named_properties (ps : list (string * value)) : list (string * value) :=
  filter (fun kv => match array_index (fst kv) with Some _ => false | None => true end) ps.

(** The order in which the engine enumerates the own properties of an
    object: the array indices in ascending numeric order, then the other
    names in the order in which they were defined. *)
Definition own_property_order (ps : list (string * value)) : list (string * value) :=
  List.app (map snd (index_properties ps)) (named_properties ps).

(** [Object.entries(v)] for a non-nullish [v]. *)
Definition entries (h : heap) (v : value) : list (string * value) :=
  match v with
  | VObj a =>
      match nth_error h a with
      | Some (Plain ps) => own_property_order ps
      | Some (ShapeThrows ps) => own_property_order ps
      | Some (Array es) => indexed 0 es
      | _ => []
      end
  | VStr s => chars 0 s
  | _ => []
  end.

Fixpoint assoc (key : string) (ps : list (string * value)) : value :=
  match ps with
  | [] => VUndefined
  | (k, v) :: ps' => if String.eqb k key then v else assoc key ps'
  end.

Fixpoint has_assoc (key : string) (ps : list (string * value)) : bool :=
  match ps with
  | [] => false
  | (k, _) :: ps' => String.eqb k key || has_assoc key ps'
  end.

(** Property read [v?.key].  On a missing property, and on [undefined]
    and [null], the result is [undefined].  Every place where the source
    reads with a plain dot has established beforehand that the receiver
    is not nullish.  The keys the converter reads are fixed names, none
    of which is inherited from a built-in prototype, so only the
    properties recorded in the heap are consulted.  The member [shape] is
    not read with [get] but with [read_shape_member] below, since that
    read can throw. *)
Definition get (h : heap) (v : value) (key : string) : value :=
  match deref h v with
  | Some (Plain ps) => assoc key ps
  | Some (ShapeThrows ps) => assoc key ps
  | Some (Array es) => assoc key (indexed 0 es)
  | _ => VUndefined
  end.

(** [key in v]: [None] is the TypeError raised on a primitive. *)
Definition js_in (h : heap) (key : string) (v : value) : option bool :=
  match v with
  | VObj a =>
      match nth_error h a with
      | Some (Plain ps) => Some (has_assoc key ps)
      | Some (ShapeThrows ps) => Some (has_assoc key ps || String.eqb key "shape")
      | Some (Array es) => Some (has_assoc key (indexed 0 es))
      | _ => Some false
      end
  | _ => None
  end.

(** Calling a value with no argument: [None] when the call throws. *)
Definition js_call (h : heap) (f : value) : option value :=
  match deref h f with
  | Some (Func r) => r
  | _ => None
  end.

(* ------------------------------------------------------------------ *)
(** ** Strings *)

Definition lower_ascii (c : ascii) : ascii :=
  let n := nat_of_ascii c in
  if Nat.leb 65 n && Nat.leb n 90 then ascii_of_nat (n + 32) else c.

Fixpoint toLowerCase (s : string) : string :=
  match s with
  | EmptyString => EmptyString
  | String c s' => String (lower_ascii c) (toLowerCase s')
  end.

Fixpoint includes (needle hay : string) : bool :=
  String.prefix needle hay ||
  match hay with
  | EmptyString => false
  | String _ hay' => includes needle hay'
  end.

Definition mem_string (s : string) (l : list string) : bool :=
  existsb (String.eqb s) l.

Definition nl : string := String (ascii_of_nat 10) EmptyString.

(* ------------------------------------------------------------------ *)
(** ** Node introspection (zodCompat) *)

(** Modelled from the spec: [readZodDefinition] and [readZodType] are
    imported from the helper module zodCompat.ts, whose source is not
    included.  The spec describes it as probing a fixed, ordered set of
    candidate field names for the definition and for the kind, returning
    the first match and nothing for a value that is no schema node.  The
    definition is looked up under [_zod.def] (the newer representation),
    then [_def], then [def]. *)
Definition readZodDefinition (h : heap) (input : value) : value :=
  if is_object h input then
    js_or (get h (get h input "_zod") "def")
          (js_or (get h input "_def") (get h input "def"))
  else VUndefined.

Definition string_field (h : heap) (def : value) (key : string) : option string :=
  match get h def key with
  | VStr s => Some s
  | _ => None
  end.

(** Modelled from the spec: the kind is the first string found under
    [typeName] (older representation, e.g. [ZodString]) or [type] (newer
    representation, e.g. [string]), brought to the lower-case names the
    converter dispatches on, without the [zod] prefix. *)
Definition readZodType (h : heap) (input : value) : option string :=
  let def := readZodDefinition h input in
  if truthy def then
    let raw :=
      match string_field h def "typeName" with
      | Some s => if String.eqb s EmptyString then string_field h def "type" else Some s
      | None => string_field h def "type"
      end in
    match raw with
    | Some s =>
        let lower := toLowerCase s in
        if String.prefix "zod" lower
        then Some (String.substring 3 (String.length lower - 3) lower)
        else Some lower
    | None => None
    end
  else None.

(** [readZodType(v) ?? ''] *)
Definition kind_or_empty (h : heap) (v : value) : string :=
  match readZodType h v with
  | Some t => t
  | None => EmptyString
  end.

(* ------------------------------------------------------------------ *)
(** ** Constants of the module *)

Definition JSON_SCHEMA_DRAFT_07 : string := "http://json-schema.org/draft-07/schema#".

Definition OPTIONAL_WRAPPERS : list string := ["optional"].

Definition DECORATOR_WRAPPERS : list string :=
  ["brand"; "branded"; "catch"; "default"; "effects"; "pipeline"; "pipe";
   "prefault"; "readonly"; "refinement"; "transform"].

(* ------------------------------------------------------------------ *)
(** ** unwrapDecorators *)

(** The candidate inner node of a decorator:
    [def?.innerType ?? def?.schema ?? def?.base ?? def?.type ??
     def?.wrapped ?? def?.underlying]. *)
Definition decorator_inner (h : heap) (current : value) : value :=
  let def := readZodDefinition h current in
  js_coalesce (get h def "innerType")
    (js_coalesce (get h def "schema")
       (js_coalesce (get h def "base")
          (js_coalesce (get h def "type")
             (js_coalesce (get h def "wrapped") (get h def "underlying"))))).

(** The [while] loop of [unwrapDecorators]; [fuel] bounds the number of
    times [current] is replaced by [next]. *)
Fixpoint unwrapDecorators (fuel : nat) (h : heap) (current : value) : option value :=
  if mem_string (kind_or_empty h current) DECORATOR_WRAPPERS then
    let next := decorator_inner h current in
    if negb (truthy next) || value_eqb next current then Some current
    else
      match fuel with
      | O => None
      | S fuel' => unwrapDecorators fuel' h next
      end
  else Some current.

(* ------------------------------------------------------------------ *)
(** ** JSON Schema entries *)

(** One constructor per object literal the builders return.  An object
    schema is kept as a record of its own, because the entry point goes on
    to fill in its optional members. *)
#[warnings="-register-all"]
Inductive JsonSchemaDefinitionEntry : Type :=
| JType (type : string)
| JTypeFormat (type format : string)
| JObject (o : LooseJsonObjectSchema)
| JArray (items : JsonSchemaDefinitionEntry)
| JTuple (items : list JsonSchemaDefinitionEntry) (minItems : nat) (maxItems : option nat)
| JAnyOf (anyOf : list JsonSchemaDefinitionEntry)
| JAllOf (allOf : list JsonSchemaDefinitionEntry)
| JRecord (additionalProperties : JsonSchemaDefinitionEntry)
| JUniqueArray (items : JsonSchemaDefinitionEntry)
| JConst (const : value) (type : string)
| JEnum (enum : list value)
| JInherited (name : string)
with LooseJsonObjectSchema : Type :=
| MkObjectSchema
    (type : string)
    (properties : list (string * JsonSchemaDefinitionEntry))
    (required : option (list string))
    (additionalProperties : option bool)
    (dollar_schema : option string).

Definition schema_type (o : LooseJsonObjectSchema) : string :=
  let '(MkObjectSchema t _ _ _ _) := o in t.
Definition schema_properties (o : LooseJsonObjectSchema) :=
  let '(MkObjectSchema _ p _ _ _) := o in p.
Definition schema_required (o : LooseJsonObjectSchema) : option (list string) :=
  let '(MkObjectSchema _ _ r _ _) := o in r.
Definition schema_additionalProperties (o : LooseJsonObjectSchema) : option bool :=
  let '(MkObjectSchema _ _ _ a _) := o in a.
Definition schema_dollar_schema (o : LooseJsonObjectSchema) : option string :=
  let '(MkObjectSchema _ _ _ _ s) := o in s.

(** [SIMPLE_TYPE_MAPPING], own keys. *)
Definition SIMPLE_TYPE_MAPPING (type : string) : option JsonSchemaDefinitionEntry :=
  if String.eqb type "string" then Some (JType "string")
  else if String.eqb type "number" then Some (JType "number")
  else if String.eqb type "bigint" then Some (JType "integer")
  else if String.eqb type "boolean" then Some (JType "boolean")
  else if String.eqb type "date" then Some (JTypeFormat "string" "date-time")
  else None.

(** [SIMPLE_TYPE_MAPPING] is an object literal, so [type in
    SIMPLE_TYPE_MAPPING] also holds for the member names it inherits, and
    the lookup then returns that member, which is no schema but is truthy. *)
Definition OBJECT_PROTOTYPE_KEYS : list string :=
  ["constructor"; "hasOwnProperty"; "isPrototypeOf"; "propertyIsEnumerable";
   "toLocaleString"; "toString"; "valueOf"; "__proto__";
   "__defineGetter__"; "__defineSetter__"; "__lookupGetter__"; "__lookupSetter__"].

(* ------------------------------------------------------------------ *)
(** ** Small helpers of the module *)

(** A computation that may fail to complete. *)
Definition bind {A B : Type} (m : option A) (k : A -> option B) : option B :=
  match m with
  | Some a => k a
  | None => None
  end.

Notation "x <- m ;; k" := (bind m (fun x => k))
  (at level 61, m at next level, right associativity).

Fixpoint mapM {A B : Type} (f : A -> option B) (l : list A) : option (list B) :=
  match l with
  | [] => Some []
  | x :: l' =>
      y <- f x ;;
      ys <- mapM f l' ;;
      Some (y :: ys)
  end.

(** [.filter(Boolean)] on a list of conversion results. *)
Fixpoint filter_defined {A : Type} (l : list (option A)) : list A :=
  match l with
  | [] => []
  | Some x :: l' => x :: filter_defined l'
  | None :: l' => filter_defined l'
  end.

(** [extractFirst(def, ...keys)].  [key in def] raises a TypeError on a
    primitive [def]; lemma [readZodType_def_object] below shows that the
    definition of a node that has a kind is a heap object, and the
    builders are only reached for such nodes. *)
Fixpoint extractFirst (h : heap) (def : value) (keys : list string) : value :=
  if truthy def then
    match keys with
    | [] => VUndefined
    | key :: keys' =>
        match js_in h key def with
        | Some true =>
            if is_undefined (get h def key) then extractFirst h def keys'
            else get h def key
        | _ => extractFirst h def keys'
        end
    end
  else VUndefined.

Definition array_elems (h : heap) (v : value) : list value :=
  match deref h v with
  | Some (Array es) => es
  | _ => []
  end.

Definition coerceArray (h : heap) (v : value) : list value :=
  if is_array h v then array_elems h v
  else if is_undefined v then [] else [v].

(** [Object.values(v)] *)
Definition object_values (h : heap) (v : value) : list value :=
  map snd (entries h v).

(** [try { return f(); } catch (_error) { return undefined; }] *)
Definition call_or_undefined (h : heap) (f : value) : value :=
  match js_call h f with
  | Some r => r
  | None => VUndefined
  end.

(** The reads [candidate.shape] and [def?.shape]: [None] when the
    accessor behind the member throws. *)
Definition read_shape_member (h : heap) (v : value) : option value :=
  match deref h v with
  | Some (ShapeThrows _) => None
  | _ => Some (get h v "shape")
  end.

(** [readShape], as it is written: the two reads of [shape] stand outside
    the [try] blocks, which only guard the calls of a shape function.
    [None] is a call of [readShape] from which the error of an accessor
    escapes; [Some] carries the value returned, [undefined] when no shape
    is found or the shape function throws. *)
Definition readShape_outcome (h : heap) (input : value) : option value :=
  if is_object h input then
    own <- read_shape_member h input ;;
    if truthy own && is_object h own then Some own
    else if is_function h own then Some (call_or_undefined h own)
    else
      shape <- read_shape_member h (readZodDefinition h input) ;;
      if truthy shape && is_object h shape then Some shape
      else if is_function h shape then Some (call_or_undefined h shape)
      else Some VUndefined
  else Some VUndefined.

(** The value [readShape] returns, and whether it throws instead. *)
Definition readShape (h : heap) (input : value) : value :=
  match readShape_outcome h input with
  | Some shape => shape
  | None => VUndefined
  end.

Definition readShape_throws (h : heap) (input : value) : bool :=
  match readShape_outcome h input with
  | Some _ => false
  | None => true
  end.

(** Defining or overwriting an own property. *)
Fixpoint define_property {A : Type} (key : string) (x : A) (ps : list (string * A))
  : list (string * A) :=
  match ps with
  | [] => [(key, x)]
  | (k, y) :: ps' =>
      if String.eqb k key then (k, x) :: ps' else (k, y) :: define_property key x ps'
  end.

(** [properties[key] = schema] on an object created by a literal.  The
    name [__proto__] is an accessor that every such object inherits: the
    assignment changes the prototype of [properties] and defines no
    property.  The list records the own properties only, which is what
    serialisation and [Object.entries] see. *)
Definition set_property {A : Type} (key : string) (x : A) (ps : list (string * A))
  : list (string * A) :=
  if String.eqb key "__proto__" then ps else define_property key x ps.

Definition js_typeof_literal (h : heap) (v : value) : string :=
  match v with
  | VNull => "null"
  | _ => js_typeof h v
  end.

Definition buildLiteral (h : heap) (def : value) : option JsonSchemaDefinitionEntry :=
  if truthy def then
    let literal := extractFirst h def ["value"; "literal"] in
    if is_undefined literal then None
    else Some (JConst literal (js_typeof_literal h literal))
  else None.

Definition buildEnum (h : heap) (def : value) : option JsonSchemaDefinitionEntry :=
  if truthy def then
    let values := get h def "values" in
    let options := get h def "options" in
    let enum := get h def "enum" in
    if is_array h values then Some (JEnum (array_elems h values))
    else if is_array h options then Some (JEnum (array_elems h options))
    else if truthy values && is_object h values then Some (JEnum (object_values h values))
    else if truthy enum && is_object h enum then Some (JEnum (object_values h enum))
    else None
  else None.

(* ------------------------------------------------------------------ *)
(** ** The manual recursive converter *)

(** The [while] loop of [convertProperty].  [ufuel] is the fuel of the
    inner calls of [unwrapDecorators]; [fuel] bounds the number of
    optional layers crossed. *)
Fixpoint optional_loop (ufuel fuel : nat) (h : heap) (current : value) (optional : bool)
  : option (value * bool) :=
  if mem_string (kind_or_empty h current) OPTIONAL_WRAPPERS then
    next <- unwrapDecorators ufuel h (get h (readZodDefinition h current) "innerType") ;;
    if negb (truthy next) || value_eqb next current then Some (current, true)
    else
      match fuel with
      | O => None
      | S fuel' => optional_loop ufuel fuel' h next true
      end
  else Some (current, optional).

Section Builders.

(** The builders call back into [convertSchema]; [convert] is that
    recursive call, and [n] the fuel left for the loops. *)
Variable n : nat.
Variable h : heap.
Variable convert : value -> option (option JsonSchemaDefinitionEntry).

(** [convertProperty]: the pair is [{ schema, optional }]. *)
Definition convertProperty (value : value)
  : option (option JsonSchemaDefinitionEntry * bool) :=
  current <- unwrapDecorators n h value ;;
  r <- optional_loop n n h current false ;;
  schema <- convert (fst r) ;;
  Some (schema, snd r).

(** The [for] loop of [buildObjectSchema], with its early return. *)
Fixpoint buildObjectSchema_fields
    (fields : list (string * value))
    (properties : list (string * JsonSchemaDefinitionEntry))
    (required : list string)
  : option (option LooseJsonObjectSchema) :=
  match fields with
  | [] => Some (Some (MkObjectSchema "object" properties (Some required) (Some false) None))
  | (key, field) :: fields' =>
      r <- convertProperty field ;;
      match fst r with
      | None => Some None
      | Some schema =>
          buildObjectSchema_fields fields'
            (set_property key schema properties)
            (if snd r then required else List.app required [key])
      end
  end.

Definition buildObjectSchema (value : value) : option (option LooseJsonObjectSchema) :=
  if readShape_throws h value then None
  else
    let shape := readShape h value in
    if truthy shape then buildObjectSchema_fields (entries h shape) [] []
    else Some None.

Definition buildArraySchema (def : value) : option (option JsonSchemaDefinitionEntry) :=
  items <- convert (extractFirst h def ["element"; "items"; "type"]) ;;
  Some (option_map JArray items).

Definition buildTupleSchema (def : value) : option (option JsonSchemaDefinitionEntry) :=
  converted <- mapM convert (coerceArray h (get h def "items")) ;;
  let items := filter_defined converted in
  match items with
  | [] => Some None
  | _ =>
      Some (Some (JTuple items (length items)
                    (if truthy (get h def "rest") then None else Some (length items))))
  end.

Definition buildUnionSchema (def : value) : option (option JsonSchemaDefinitionEntry) :=
  converted <- mapM convert
    (coerceArray h (js_coalesce (get h def "options") (get h def "schemas"))) ;;
  let options := filter_defined converted in
  match options with
  | [] => Some None
  | _ => Some (Some (JAnyOf options))
  end.

Definition buildIntersectionSchema (def : value) : option (option JsonSchemaDefinitionEntry) :=
  left <- convert (get h def "left") ;;
  right <- convert (get h def "right") ;;
  match left, right with
  | Some l, Some r => Some (Some (JAllOf [l; r]))
  | _, _ => Some None
  end.

Definition buildRecordSchema (def : value) : option (option JsonSchemaDefinitionEntry) :=
  valueSchema <- convert (js_coalesce (get h def "valueType") (get h def "values")) ;;
  Some (option_map JRecord valueSchema).

Definition buildMapSchema (def : value) : option (option JsonSchemaDefinitionEntry) :=
  valueSchema <- convert (js_coalesce (get h def "valueType") (get h def "values")) ;;
  Some (option_map JArray valueSchema).

Definition buildSetSchema (def : value) : option (option JsonSchemaDefinitionEntry) :=
  valueSchema <- convert (get h def "valueType") ;;
  Some (option_map JUniqueArray valueSchema).

Definition buildNullableSchema (def : value) : option (option JsonSchemaDefinitionEntry) :=
  inner <- convert (js_coalesce (get h def "innerType") (get h def "type")) ;;
  Some (option_map (fun i => JAnyOf [i; JType "null"]) inner).

(** The [switch] of [convertSchema]. *)
Definition dispatch (type : string) (unwrapped def : value)
  : option (option JsonSchemaDefinitionEntry) :=
  if String.eqb type "object" then
    o <- buildObjectSchema unwrapped ;; Some (option_map JObject o)
  else if String.eqb type "array" then buildArraySchema def
  else if String.eqb type "tuple" then buildTupleSchema def
  else if String.eqb type "union" then buildUnionSchema def
  else if String.eqb type "intersection" then buildIntersectionSchema def
  else if String.eqb type "literal" then Some (buildLiteral h def)
  else if String.eqb type "enum" || String.eqb type "nativeenum" then Some (buildEnum h def)
  else if String.eqb type "record" then buildRecordSchema def
  else if String.eqb type "map" then buildMapSchema def
  else if String.eqb type "set" then buildSetSchema def
  else if String.eqb type "nullable" then buildNullableSchema def
  else Some None.

Definition convertSchema_body (value : value) : option (option JsonSchemaDefinitionEntry) :=
  if is_undefined value then Some None
  else
    unwrapped <- unwrapDecorators n h value ;;
    let def := readZodDefinition h unwrapped in
    match readZodType h unwrapped with
    | None => Some None
    | Some type =>
        if String.eqb type EmptyString then Some None
        else
          match SIMPLE_TYPE_MAPPING type with
          | Some entry => Some (Some entry)
          | None =>
              if mem_string type OBJECT_PROTOTYPE_KEYS then Some (Some (JInherited type))
              else dispatch type unwrapped def
          end
    end.

End Builders.

(** [convertSchema]: one unit of fuel per nested call. *)
Fixpoint convertSchema (fuel : nat) (h : heap) (value : value)
  : option (option JsonSchemaDefinitionEntry) :=
  match fuel with
  | O => None
  | S n => convertSchema_body n h (convertSchema n h) value
  end.


(* ------------------------------------------------------------------ *)
(** ** The scanner for unrepresentable kinds *)

(** A diagnostic [{ type, path }]. *)
Record Diagnostic : Type := MkDiagnostic { diag_type : string; diag_path : string }.

Definition unrepresentableTypes : list string :=
  ["set"; "map"; "date"; "promise"; "function"; "custom"; "nan"; "undefined";
   "void"; "symbol"].

(** [Array.isArray(x) ? x : [x]] for an [x] that came out of [... || []]. *)
Definition or_empty_array (h : heap) (v : value) : list value :=
  if truthy v then (if is_array h v then array_elems h v else [v]) else [].

Fixpoint with_index (mk : nat -> string) (i : nat) (l : list value) : list (string * value) :=
  match l with
  | [] => []
  | x :: l' => (mk i, x) :: with_index mk (S i) l'
  end.

Section Scanner.

Variable h : heap.
(** The recursive call [check(value, path)], returning what it pushed. *)
Variable check : value -> string -> option (list Diagnostic).

(** Calls of [check] in sequence, on [(path, value)] pairs. *)
Fixpoint check_all (children : list (string * value)) : option (list Diagnostic) :=
  match children with
  | [] => Some []
  | (p, v) :: children' =>
      ds <- check v p ;;
      ds' <- check_all children' ;;
      Some (List.app ds ds')
  end.

(** [if (v) check(v, p)] *)
Definition check_if (v : value) (p : string) : list (string * value) :=
  if truthy v then [(p, v)] else [].

Definition check_switch (type : string) (value def : value) (currentPath : string)
  : option (list Diagnostic) :=
  if String.eqb type "object" then
    if readShape_throws h value then None
    else
      let shape := readShape h value in
      if truthy shape then
        check_all (map (fun kf => (currentPath ++ "." ++ fst kf, snd kf)) (entries h shape))
      else Some []
  else if String.eqb type "array" then
    check_all (check_if (js_or (get h def "element")
                           (js_or (get h def "items") (get h def "type")))
                        (currentPath ++ "[]"))
  else if String.eqb type "tuple" then
    check_all
      (List.app
         (with_index (fun i => currentPath ++ "[" ++ nat_to_string i ++ "]") 0
                     (or_empty_array h (get h def "items")))
         (check_if (get h def "rest") (currentPath ++ "[...]")))
  else if String.eqb type "union" || String.eqb type "discriminatedunion" then
    check_all
      (with_index (fun i => currentPath ++ "<union[" ++ nat_to_string i ++ "]>") 0
                  (or_empty_array h (js_or (get h def "options") (get h def "schemas"))))
  else if String.eqb type "intersection" then
    check_all
      (List.app
         (check_if (get h def "left") (currentPath ++ "<left>"))
         (check_if (get h def "right") (currentPath ++ "<right>")))
  else if String.eqb type "record" then
    check_all
      (List.app
         (check_if (js_or (get h def "valueType") (get h def "values"))
                   (currentPath ++ "<values>"))
         (check_if (js_or (get h def "keyType") (get h def "keys"))
                   (currentPath ++ "<keys>")))
  else if String.eqb type "nullable" || String.eqb type "optional" then
    check_all (check_if (js_or (get h def "innerType") (get h def "type")) currentPath)
  else if mem_string type
            ["transform"; "effects"; "refinement"; "pipeline"; "pipe"; "brand";
             "branded"; "catch"; "default"; "prefault"; "readonly"] then
    check_all
      (check_if
         (js_or (get h def "innerType")
            (js_or (get h def "schema")
               (js_or (get h def "base")
                  (js_or (get h def "type")
                     (js_or (get h def "wrapped") (get h def "underlying"))))))
         currentPath)
  else if String.eqb type "lazy" then Some [MkDiagnostic "lazy" currentPath]
  else Some [].

Definition check_body (value : value) (currentPath : string) : option (list Diagnostic) :=
  if is_object h value then
    let def := readZodDefinition h value in
    match readZodType h value with
    | Some type =>
        if negb (String.eqb type EmptyString) && mem_string type unrepresentableTypes
        then Some [MkDiagnostic type currentPath]
        else check_switch type value def currentPath
    | None => Some []
    end
  else Some [].

End Scanner.

Fixpoint check (fuel : nat) (h : heap) (value : value) (currentPath : string)
  : option (list Diagnostic) :=
  match fuel with
  | O => None
  | S n => check_body h (check n h) value currentPath
  end.

Definition findUnrepresentableTypes (fuel : nat) (h : heap) (input : value)
  : option (list Diagnostic) :=
  check fuel h input "$".

(* ------------------------------------------------------------------ *)
(** ** The error message *)

Definition bullet (path : string) : string := "  • " ++ path ++ ": ".

Definition advice (type : string) : string :=
  if String.eqb type "set" then
    "Replace z.set(T) with z.array(T)" ++ nl ++
    "    Example: z.set(z.string()) → z.array(z.string())" ++ nl ++
    "    If uniqueness matters, add validation: .refine(arr => new Set(arr).size === arr.length, 'Must be unique')"
  else if String.eqb type "map" then
    "Replace z.map() with z.record()" ++ nl ++
    "    Example: z.map(z.string(), z.number()) → z.record(z.string(), z.number())"
  else if String.eqb type "date" then
    "Replace z.date() with z.string().datetime()" ++ nl ++
    "    Example: z.date() → z.string().datetime()" ++ nl ++
    "    Or use z.coerce.date() if you need automatic date parsing from strings"
  else if String.eqb type "promise" then
    "Remove z.promise() - promises cannot be serialized to JSON"
  else if String.eqb type "function" then
    "Remove z.function() - functions cannot be serialized to JSON"
  else if String.eqb type "symbol" then
    "Replace z.symbol() with z.string() or z.enum(['symbol1', 'symbol2'])"
  else if String.eqb type "undefined" then
    "Replace z.undefined() with .optional()" ++ nl ++
    "    Example: field: z.undefined() → field: z.string().optional()"
  else if String.eqb type "void" then
    "Replace z.void() with z.null() or remove the field"
  else if String.eqb type "nan" then
    "Replace z.nan() with z.number()"
  else if String.eqb type "custom" then
    "Replace z.custom() with a concrete type like z.string(), z.number(), or z.object({...})"
  else if String.eqb type "lazy" then
    "Lazy/recursive types may not be fully representable - consider flattening the structure"
  else type ++ " is not representable in JSON Schema".

(** One entry of [fixes]. *)
Definition fix_for (d : Diagnostic) : string :=
  bullet (diag_path d) ++ advice (diag_type d).

(** [parts.join(sep)] *)
Fixpoint join (sep : string) (parts : list string) : string :=
  match parts with
  | [] => EmptyString
  | [p] => p
  | p :: parts' => p ++ sep ++ join sep parts'
  end.

Definition ERROR_TAG : string := "[@openai/agents]".

Definition error_message (found : list Diagnostic) : string :=
  ERROR_TAG ++ " Cannot convert Zod 4 schema to JSON Schema." ++ nl ++ nl ++
  "Found " ++ nat_to_string (length found) ++ " unrepresentable type(s):" ++ nl ++ nl ++
  join (nl ++ nl) (map fix_for found) ++ nl ++ nl ++
  "All of these types have JSON-compatible alternatives. Please update your schema." ++ nl ++
  "See: https://github.com/anthropics/openai-agents-js/blob/main/docs/zod-schemas.md".

(* ------------------------------------------------------------------ *)
(** ** The native delegate and the entry point *)

(** What the runtime offers.  Loading the validation library may fail, the
    loaded module may lack a [toJSONSchema] function, and the function, a
    foreign one, may return any value (in a heap of its own) or throw an
    error with some message. *)
Inductive native_outcome : Type :=
| NativeThrows (message : string)
| NativeReturns (out : heap) (jsonSchema : value).

Inductive zod_runtime : Type :=
| ZodMissing
| ZodWithoutConverter
| ZodNative (toJSONSchema : heap -> value -> native_outcome).

Inductive outcome (A : Type) : Type :=
| Returns (a : A)
| Throws (message : string).
Arguments Returns {A} a.
Arguments Throws {A} message.

Definition hasJsonSchemaObjectShape (h : heap) (v : value) : bool :=
  is_object h v &&
  value_eqb (get h v "type") (VStr "object") &&
  match js_in h "properties" v with Some b => b | None => false end &&
  match js_in h "additionalProperties" v with Some b => b | None => false end.

(** The document handed back: the native converter's own object, or the
    object schema assembled by the manual path. *)
Inductive JsonObjectSchema : Type :=
| NativeSchema (out : heap) (jsonSchema : value)
| ManualSchema (schema : LooseJsonObjectSchema).

(** How the engine prints the operand in the message of a TypeError: a
    string as it is, the other primitives by their literal. *)
Definition display (v : value) : string :=
  match v with
  | VUndefined => "undefined"
  | VNull => "null"
  | VBool true => "true"
  | VBool false => "false"
  | VNum n => NilEmpty.string_of_int (Z.to_int n)
  | VStr s => s
  | VObj _ => "#<Object>"
  end.

(** The message of the TypeError that ['_zod' in input] raises on a
    primitive, in the wording of V8, the engine of Node.js, which quotes
    the operand in it. *)
Definition IN_TYPE_ERROR : string := "Cannot use 'in' operator to search for '_zod' in ".

Definition in_type_error (input : value) : string := IN_TYPE_ERROR ++ display input.

(** The message of the RangeError by which that engine ends a recursion
    that exhausts the stack. *)
Definition STACK_EXHAUSTED : string := "Maximum call stack size exceeded".

(** The body of the [try] block of [tryZod4NativeCompat]: what it returns,
    or the message of the error it raises.  The scanner has no loop, so a
    scan that does not return has raised an error: the stack is exhausted,
    or a [shape] accessor threw.  Neither message carries the tag, so one
    message stands for both; the error is caught below like any other. *)
Definition tryZod4NativeCompat_try (fuel : nat) (env : zod_runtime) (h : heap) (input : value)
  : option (outcome (option JsonObjectSchema)) :=
  match js_in h "_zod" input with
  | None => Some (Throws (in_type_error input))
  | Some false => Some (Returns None)
  | Some true =>
      match findUnrepresentableTypes fuel h input with
      | None => Some (Throws STACK_EXHAUSTED)
      | Some found =>
          if Nat.ltb 0 (length found) then Some (Throws (error_message found))
          else
            match env with
            | ZodMissing => Some (Returns None)
            | ZodWithoutConverter => Some (Returns None)
            | ZodNative toJSONSchema =>
                match toJSONSchema h input with
                | NativeThrows message => Some (Throws message)
                | NativeReturns out jsonSchema =>
                    if hasJsonSchemaObjectShape out jsonSchema
                    then Some (Returns (Some (NativeSchema out jsonSchema)))
                    else Some (Returns None)
                end
            end
      end
  end.

(** [try { ... } catch (error) { ... }]: only an error whose message
    carries the tag is thrown again; after any other error the delegate
    returns [undefined]. *)
Definition tryZod4NativeCompat (fuel : nat) (env : zod_runtime) (h : heap) (input : value)
  : option (outcome (option JsonObjectSchema)) :=
  r <- tryZod4NativeCompat_try fuel env h input ;;
  match r with
  | Throws message =>
      if includes ERROR_TAG message then Some (Throws message) else Some (Returns None)
  | Returns x => Some (Returns x)
  end.

(** The three assignments that complete the manual document. *)
Definition complete_document (schema : LooseJsonObjectSchema) : LooseJsonObjectSchema :=
  let '(MkObjectSchema type properties required additionalProperties dollar) := schema in
  MkObjectSchema type properties
    (match required with Some r => Some r | None => Some [] end)
    (match additionalProperties with Some a => Some a | None => Some false end)
    (match dollar with Some s => Some s | None => Some JSON_SCHEMA_DRAFT_07 end).

Definition manual_buildObjectSchema (fuel : nat) (h : heap) (input : value)
  : option (option LooseJsonObjectSchema) :=
  buildObjectSchema fuel h (convertSchema fuel h) input.

Definition zodJsonSchemaCompat (fuel : nat) (env : zod_runtime) (h : heap) (input : value)
  : option (outcome (option JsonObjectSchema)) :=
  nativeResult <- tryZod4NativeCompat fuel env h input ;;
  match nativeResult with
  | Throws message => Some (Throws message)
  | Returns (Some native) => Some (Returns (Some native))
  | Returns None =>
      schema <- manual_buildObjectSchema fuel h input ;;
      match schema with
      | None => Some (Returns None)
      | Some s => Some (Returns (Some (ManualSchema (complete_document s))))
      end
  end.


(* ------------------------------------------------------------------ *)
(** ** Notions the statements are phrased with *)

Definition is_decorator (h : heap) (v : value) : bool :=
  mem_string (kind_or_empty h v) DECORATOR_WRAPPERS.

(** The node a decorator is replaced by, when the loop goes on. *)
Definition decorator_next (h : heap) (v : value) : option value :=
  if is_decorator h v then
    let next := decorator_inner h v in
    if negb (truthy next) || value_eqb next v then None else Some next
  else None.

(** [decorator_chain h v k w]: starting at [v], the wrappers are left [k]
    times, and [w] is the node where the unwrapping stops: a node that is
    no decorator, a decorator without inner node, or a decorator whose
    inner node is the decorator itself. *)
Inductive decorator_chain (h : heap) : value -> nat -> value -> Prop :=
| chain_stop v :
    decorator_next h v = None -> decorator_chain h v 0 v
| chain_hop v next k w :
    decorator_next h v = Some next ->
    decorator_chain h next k w ->
    decorator_chain h v (S k) w.


(** Two read-only wrappers (older representation) that wrap each other:
    the nodes are at addresses 1 and 3. *)
Definition two_cycle : heap :=
  [ Plain [("typeName", VStr "ZodReadonly"); ("innerType", VObj 3)];
    Plain [("_def", VObj 0)];
    Plain [("typeName", VStr "ZodReadonly"); ("innerType", VObj 1)];
    Plain [("_def", VObj 2)] ].

(** A branded string behind a read-only wrapper, and a [catch] wrapper
    whose inner node is the wrapper itself (nodes at 1, 3, 5 and 7). *)
Definition wrapped_heap : heap :=
  [ Plain [("typeName", VStr "ZodString")];
    Plain [("_def", VObj 0)];
    Plain [("typeName", VStr "ZodBranded"); ("type", VObj 1)];
    Plain [("_def", VObj 2)];
    Plain [("typeName", VStr "ZodReadonly"); ("innerType", VObj 3)];
    Plain [("_def", VObj 4)];
    Plain [("typeName", VStr "ZodCatch"); ("innerType", VObj 7)];
    Plain [("_def", VObj 6)] ].

(** A node resolves to an optional (respectively required) field when the
    node its decorator chain ends at is (respectively is not) an
    [optional] wrapper. *)
Definition resolves_to_optional (h : heap) (field : value) : Prop :=
  exists k w, decorator_chain h field k w /\ readZodType h w = Some "optional".

Definition resolves_to_required (h : heap) (field : value) : Prop :=
  exists k w, decorator_chain h field k w /\ readZodType h w <> Some "optional".

(** [required_fields h fields req]: [req] lists, in the order of [fields],
    the keys of the fields that resolve to a required node. *)
Inductive required_fields (h : heap) : list (string * value) -> list string -> Prop :=
| required_nil : required_fields h [] []
| required_skip key field fields req :
    resolves_to_optional h field ->
    required_fields h fields req ->
    required_fields h ((key, field) :: fields) req
| required_keep key field fields req :
    resolves_to_required h field ->
    required_fields h fields req ->
    required_fields h ((key, field) :: fields) (key :: req).

(** Heaps without cycles: every value stored in the object at address [a]
    is a primitive or an object at a smaller address.  Finite trees and
    graphs with sharing can all be laid out this way.  No object of such a
    heap has a [shape] accessor that throws. *)
Definition rank (v : value) : nat :=
  match v with
  | VObj a => S a
  | _ => 0
  end.

Definition stored_values (o : object) : list value :=
  match o with
  | Plain ps => map snd ps
  | ShapeThrows ps => map snd ps
  | Array es => es
  | Func (Some r) => [r]
  | Func None => []
  end.

Definition reads_safely (o : object) : bool :=
  match o with
  | ShapeThrows _ => false
  | _ => true
  end.

Fixpoint wf_from (a : nat) (h : list object) : bool :=
  match h with
  | [] => true
  | o :: h' =>
      reads_safely o &&
      forallb (fun x => Nat.leb (rank x) a) (stored_values o) && wf_from (S a) h'
  end.

Definition heap_wf (h : heap) : bool := wf_from 0 h.

(** The [type] member of a returned document. *)
Definition document_type (doc : JsonObjectSchema) : value :=
  match doc with
  | NativeSchema out jsonSchema => get out jsonSchema "type"
  | ManualSchema schema => VStr (schema_type schema)
  end.

(** Roots for which [readShape] returns nothing: a value that is no
    object (a primitive, [null], a function), an object that holds a shape
    function which throws when [readShape] calls it, and in general any
    root for which [readShape] returns, and returns a falsy value. *)
Inductive no_shape (h : heap) (input : value) : Prop :=
| no_shape_not_object :
    is_object h input = false -> no_shape h input
| no_shape_function_throws :
    is_object h input = true ->
    read_shape_member h input = Some (get h input "shape") ->
    is_function h (get h input "shape") = true ->
    js_call h (get h input "shape") = None ->
    no_shape h input
| no_shape_definition_function_throws :
    is_object h input = true ->
    read_shape_member h input = Some VUndefined ->
    read_shape_member h (readZodDefinition h input) =
      Some (get h (readZodDefinition h input) "shape") ->
    is_function h (get h (readZodDefinition h input) "shape") = true ->
    js_call h (get h (readZodDefinition h input) "shape") = None ->
    no_shape h input
| no_shape_falsy :
    readShape_throws h input = false ->
    truthy (readShape h input) = false -> no_shape h input.


(** The kinds for which the error message proposes a replacement, and
    those it asks to remove. *)
Definition replaced_kinds : list string :=
  ["set"; "map"; "date"; "symbol"; "undefined"; "void"; "nan"; "custom"].

Definition removed_kinds : list string := ["promise"; "function"].

(** Example heaps.  [{ name: string, age: number.optional() }] in the
    older representation; the object node is at address 9. *)
Definition person_v3 : heap :=
  [ Plain [("typeName", VStr "ZodString")];
    Plain [("_def", VObj 0)];
    Plain [("typeName", VStr "ZodNumber")];
    Plain [("_def", VObj 2)];
    Plain [("typeName", VStr "ZodOptional"); ("innerType", VObj 3)];
    Plain [("_def", VObj 4)];
    Plain [("name", VObj 1); ("age", VObj 5)];
    Func (Some (VObj 6));
    Plain [("typeName", VStr "ZodObject"); ("shape", VObj 7)];
    Plain [("_def", VObj 8); ("shape", VObj 6)] ].

(** [{ name: string, extra: any }]: the kind [any] has no builder.  The
    object node is at address 7. *)
Definition with_any_v3 : heap :=
  [ Plain [("typeName", VStr "ZodAny")];
    Plain [("_def", VObj 0)];
    Plain [("typeName", VStr "ZodString")];
    Plain [("_def", VObj 2)];
    Plain [("name", VObj 3); ("extra", VObj 1)];
    Func (Some (VObj 4));
    Plain [("typeName", VStr "ZodObject"); ("shape", VObj 5)];
    Plain [("_def", VObj 6); ("shape", VObj 4)] ].

(** [{ maybe: <optional without innerType> }]; the object node is at 4. *)
Definition dangling_v3 : heap :=
  [ Plain [("typeName", VStr "ZodOptional")];
    Plain [("_def", VObj 0)];
    Plain [("maybe", VObj 1)];
    Plain [("typeName", VStr "ZodObject")];
    Plain [("_def", VObj 3); ("shape", VObj 2)] ].

(** The tuples [[string, number]] (node 6, no rest element) and
    [[string, any]] (node 11), and the union [string | any] (node 13). *)
Definition tuples_v3 : heap :=
  [ Plain [("typeName", VStr "ZodString")];
    Plain [("_def", VObj 0)];
    Plain [("typeName", VStr "ZodNumber")];
    Plain [("_def", VObj 2)];
    Array [VObj 1; VObj 3];
    Plain [("typeName", VStr "ZodTuple"); ("items", VObj 4); ("rest", VNull)];
    Plain [("_def", VObj 5)];
    Plain [("typeName", VStr "ZodAny")];
    Plain [("_def", VObj 7)];
    Array [VObj 1; VObj 8];
    Plain [("typeName", VStr "ZodTuple"); ("items", VObj 9); ("rest", VNull)];
    Plain [("_def", VObj 10)];
    Plain [("typeName", VStr "ZodUnion"); ("options", VObj 9)];
    Plain [("_def", VObj 12)] ].

(** An object that holds a shape function which throws (node 2). *)
Definition throwing_shape : heap :=
  [ Func None;
    Plain [("typeName", VStr "ZodObject"); ("shape", VObj 0)];
    Plain [("_def", VObj 1); ("shape", VObj 0)] ].

(** An object of the older representation whose shape thunk throws: the
    accessor [shape] of the node calls the thunk, so reading it throws
    (node 2). *)
Definition throwing_accessor_v3 : heap :=
  [ Func None;
    Plain [("typeName", VStr "ZodObject"); ("shape", VObj 0)];
    ShapeThrows [("_def", VObj 1)] ].

(** An object of the newer representation whose [shape] accessor throws
    (node 2). *)
Definition throwing_accessor_v4 : heap :=
  [ Plain [("type", VStr "object")];
    Plain [("def", VObj 0)];
    ShapeThrows [("_zod", VObj 1)] ].

(** An object whose shape function returns the number 5 (node 2). *)
Definition number_shape_v3 : heap :=
  [ Func (Some (VNum 5));
    Plain [("typeName", VStr "ZodObject"); ("shape", VObj 0)];
    Plain [("_def", VObj 1); ("shape", VObj 0)] ].

(** [{ b: string, 1: string }], older representation: the field [b] is
    declared first; the object node is at address 4. *)
Definition numbered_v3 : heap :=
  [ Plain [("typeName", VStr "ZodString")];
    Plain [("_def", VObj 0)];
    Plain [("b", VObj 1); ("1", VObj 1)];
    Plain [("typeName", VStr "ZodObject")];
    Plain [("_def", VObj 3); ("shape", VObj 2)] ].

(** A shape with an own property named [__proto__] (as a computed key
    defines it) and a field [a], both strings, older representation; the
    object node is at address 4. *)
Definition proto_key_v3 : heap :=
  [ Plain [("typeName", VStr "ZodString")];
    Plain [("_def", VObj 0)];
    Plain [("__proto__", VObj 1); ("a", VObj 1)];
    Plain [("typeName", VStr "ZodObject")];
    Plain [("_def", VObj 3); ("shape", VObj 2)] ].

(** The [type] member of an entry, where the literal has one. *)
Definition entry_type (e : JsonSchemaDefinitionEntry) : option string :=
  match e with
  | JType t | JTypeFormat t _ | JConst _ t => Some t
  | JObject o => Some (schema_type o)
  | JArray _ | JTuple _ _ _ | JUniqueArray _ => Some "array"
  | JRecord _ => Some "object"
  | JAnyOf _ | JAllOf _ | JEnum _ | JInherited _ => None
  end.

(* ------------------------------------------------------------------ *)
(** ** The scanner, as the specification words it *)

(** The kind under which the scanner records a node, if it records it: one
    of the unrepresentable kinds, or [lazy]. *)
Definition reported (h : heap) (v : value) : option string :=
  if is_object h v then
    match readZodType h v with
    | Some t =>
        if mem_string t unrepresentableTypes then Some t
        else if String.eqb t "lazy" then Some "lazy"
        else None
    | None => None
    end
  else None.

(** The children of a structural node, each with the marker by which it
    extends the path: a field name, an index, a branch, or the key or
    value position.  Wrappers hand their path on unchanged. *)
Definition structural_children (h : heap) (type : string) (v def : value)
  : list (string * value) :=
  if String.eqb type "object" then
    let shape := readShape h v in
    if truthy shape then map (fun kf => ("." ++ fst kf, snd kf)) (entries h shape) else []
  else if String.eqb type "array" then
    check_if (js_or (get h def "element") (js_or (get h def "items") (get h def "type"))) "[]"
  else if String.eqb type "tuple" then
    List.app
      (with_index (fun i => "[" ++ nat_to_string i ++ "]") 0
                  (or_empty_array h (get h def "items")))
      (check_if (get h def "rest") "[...]")
  else if String.eqb type "union" || String.eqb type "discriminatedunion" then
    with_index (fun i => "<union[" ++ nat_to_string i ++ "]>") 0
               (or_empty_array h (js_or (get h def "options") (get h def "schemas")))
  else if String.eqb type "intersection" then
    List.app (check_if (get h def "left") "<left>") (check_if (get h def "right") "<right>")
  else if String.eqb type "record" then
    List.app
      (check_if (js_or (get h def "valueType") (get h def "values")) "<values>")
      (check_if (js_or (get h def "keyType") (get h def "keys")) "<keys>")
  else if String.eqb type "nullable" || String.eqb type "optional" then
    check_if (js_or (get h def "innerType") (get h def "type")) EmptyString
  else if mem_string type DECORATOR_WRAPPERS then
    check_if
      (js_or (get h def "innerType")
         (js_or (get h def "schema")
            (js_or (get h def "base")
               (js_or (get h def "type")
                  (js_or (get h def "wrapped") (get h def "underlying"))))))
      EmptyString
  else [].

(** Recorded nodes have no children: the scanner does not descend. *)
Definition scan_children (h : heap) (v : value) : list (string * value) :=
  match reported h v with
  | Some _ => []
  | None =>
      match readZodType h v with
      | Some t => structural_children h t v (readZodDefinition h v)
      | None => []
      end
  end.

(** [scan_reaches h v p w q]: from the node [v] at path [p], the node [w]
    is reached at path [q]. *)
Inductive scan_reaches (h : heap) : value -> string -> value -> string -> Prop :=
| reaches_here v p : scan_reaches h v p v p
| reaches_child v p suffix child w q :
    In (suffix, child) (scan_children h v) ->
    scan_reaches h child (p ++ suffix) w q ->
    scan_reaches h v p w q.

(** [scans h v p found]: the diagnostics of the subtree at [v]: one for
    a recorded node, and for any other node those of its children, one
    child after the other. *)
#[warnings="-register-all"]
Inductive scans (h : heap) : value -> string -> list Diagnostic -> Prop :=
| scans_reported v p kind :
    reported h v = Some kind ->
    scans h v p [MkDiagnostic kind p]
| scans_children v p parts :
    reported h v = None ->
    Forall2 (fun sc part => scans h (snd sc) (p ++ fst sc) part) (scan_children h v) parts ->
    scans h v p (concat parts).

(** The scan stops with an error at an object node whose shape cannot be
    read. *)
Definition scan_fails (h : heap) (v : value) : bool :=
  match readZodType h v with
  | Some t => String.eqb t "object" && readShape_throws h v
  | None => false
  end.

(** The subtree at [v] is at most [d] levels deep, recorded nodes being
    leaves, and the shape of each of its object nodes can be read. *)
Fixpoint scan_depth (d : nat) (h : heap) (v : value) : bool :=
  match d with
  | O => false
  | S d' =>
      negb (scan_fails h v) &&
      forallb (fun sc => scan_depth d' h (snd sc)) (scan_children h v)
  end.

(** The tree at the root contains a node of an unrepresentable kind, or
    a lazy node: such a node is the root, or is reached from it through
    children (fields, elements, items, options, sides, value and key
    types, wrapped nodes), without passing through another such node. *)
Definition contains_unrepresentable (h : heap) (input : value) : Prop :=
  exists w q kind, scan_reaches h input "$" w q /\ reported h w = Some kind.

(** [{ tags: set(string), index: record(<the root>, string) }] in the
    newer representation: the key type of the record is the root itself,
    which is at address 12; the set is at 5, the record at 8. *)
Definition key_cycle_v4 : heap :=
  [ Plain [("type", VStr "string")];
    Plain [("def", VObj 0)];
    Plain [("_zod", VObj 1)];
    Plain [("type", VStr "set"); ("valueType", VObj 2)];
    Plain [("def", VObj 3)];
    Plain [("_zod", VObj 4)];
    Plain [("type", VStr "record"); ("keyType", VObj 12); ("valueType", VObj 2)];
    Plain [("def", VObj 6)];
    Plain [("_zod", VObj 7)];
    Plain [("tags", VObj 5); ("index", VObj 8)];
    Plain [("type", VStr "object"); ("shape", VObj 9)];
    Plain [("def", VObj 10)];
    Plain [("_zod", VObj 11)] ].

(** [{ tags: set(string), next: lazy(() => root) }] in the newer
    representation: the thunk of the lazy node leads back to the root, which
    is at address 13. *)
Definition lazy_cycle_v4 : heap :=
  [ Plain [("type", VStr "string")];
    Plain [("def", VObj 0)];
    Plain [("_zod", VObj 1)];
    Plain [("type", VStr "set"); ("valueType", VObj 2)];
    Plain [("def", VObj 3)];
    Plain [("_zod", VObj 4)];
    Func (Some (VObj 13));
    Plain [("type", VStr "lazy"); ("getter", VObj 6)];
    Plain [("def", VObj 7)];
    Plain [("_zod", VObj 8)];
    Plain [("tags", VObj 5); ("next", VObj 9)];
    Plain [("type", VStr "object"); ("shape", VObj 10)];
    Plain [("def", VObj 11)];
    Plain [("_zod", VObj 12)] ].

(** [{ self: root }]: an object that is its own field, as a recursive
    object written with a getter is; the root is at address 3. *)
Definition self_field_v4 : heap :=
  [ Plain [("self", VObj 3)];
    Plain [("type", VStr "object"); ("shape", VObj 0)];
    Plain [("def", VObj 1)];
    Plain [("_zod", VObj 2)] ].

(** [{ later: promise(string) }], newer representation, root at 9. *)
Definition promise_v4 : heap :=
  [ Plain [("type", VStr "string")];
    Plain [("def", VObj 0)];
    Plain [("_zod", VObj 1)];
    Plain [("type", VStr "promise"); ("innerType", VObj 2)];
    Plain [("def", VObj 3)];
    Plain [("_zod", VObj 4)];
    Plain [("later", VObj 5)];
    Plain [("type", VStr "object"); ("shape", VObj 6)];
    Plain [("def", VObj 7)];
    Plain [("_zod", VObj 8)] ].

(** [{ tags: set(string) }], newer representation, root at 9. *)
Definition set_v4 : heap :=
  [ Plain [("type", VStr "string")];
    Plain [("def", VObj 0)];
    Plain [("_zod", VObj 1)];
    Plain [("type", VStr "set"); ("valueType", VObj 2)];
    Plain [("def", VObj 3)];
    Plain [("_zod", VObj 4)];
    Plain [("tags", VObj 5)];
    Plain [("type", VStr "object"); ("shape", VObj 6)];
    Plain [("def", VObj 7)];
    Plain [("_zod", VObj 8)] ].


(** What the manual path hands back. *)
Definition manual_result (schema : option LooseJsonObjectSchema)
  : outcome (option JsonObjectSchema) :=
  Returns (option_map (fun s => ManualSchema (complete_document s)) schema).


Definition string_converter : zod_runtime :=
  ZodNative (fun _ _ => NativeReturns [Plain [("type", VStr "string")]] (VObj 0)).

(** [{ title: string }], newer representation, root at 6. *)
Definition title_v4 : heap :=
  [ Plain [("type", VStr "string")];
    Plain [("def", VObj 0)];
    Plain [("_zod", VObj 1)];
    Plain [("title", VObj 2)];
    Plain [("type", VStr "object"); ("shape", VObj 3)];
    Plain [("def", VObj 4)];
    Plain [("_zod", VObj 5)] ].

(** A child with its path: the marker appended to the path of the parent. *)
Definition extend (p : string) (sc : string * value) : string * value :=
  (p ++ fst sc, snd sc).

(** What a completed scan has to satisfy. *)
Definition scan_correct (h : heap) (v : value) (p : string) (found : list Diagnostic) : Prop :=
  scans h v p found /\
  forall kind q,
    In (MkDiagnostic kind q) found <->
    exists w, scan_reaches h v p w q /\ reported h w = Some kind.

(** [f] completes wherever [g] does, with the same result. *)
Definition extends {A B : Type} (g f : A -> option B) : Prop :=
  forall x r, g x = Some r -> f x = Some r.

(** A nullable string (node 3) and a record of numbers (node 7), older
    representation. *)
Definition scenarios_v3 : heap :=
  [ Plain [("typeName", VStr "ZodString")];
    Plain [("_def", VObj 0)];
    Plain [("typeName", VStr "ZodNullable"); ("innerType", VObj 1)];
    Plain [("_def", VObj 2)];
    Plain [("typeName", VStr "ZodNumber")];
    Plain [("_def", VObj 4)];
    Plain [("typeName", VStr "ZodRecord"); ("keyType", VObj 1); ("valueType", VObj 5)];
    Plain [("_def", VObj 6)] ].

(* ------------------------------------------------------------------ *)
(** ** Notions for the further properties *)

(** The first value of a list that is not [undefined]. *)
Fixpoint first_defined (vs : list value) : value :=
  match vs with
  | [] => VUndefined
  | v :: vs' => if is_undefined v then first_defined vs' else v
  end.

(** The builders with a single child: the child they convert, and the
    literal they wrap its entry in. *)
Definition single_child (h : heap) (kind : string) (def : value) : value :=
  if String.eqb kind "array" then first_defined (map (get h def) ["element"; "items"; "type"])
  else if String.eqb kind "set" then get h def "valueType"
  else if String.eqb kind "nullable" then js_coalesce (get h def "innerType") (get h def "type")
  else js_coalesce (get h def "valueType") (get h def "values").

Definition single_wrapper (kind : string) (inner : JsonSchemaDefinitionEntry)
  : JsonSchemaDefinitionEntry :=
  if String.eqb kind "array" then JArray inner
  else if String.eqb kind "set" then JUniqueArray inner
  else if String.eqb kind "nullable" then JAnyOf [inner; JType "null"]
  else if String.eqb kind "record" then JRecord inner
  else JArray inner.

Definition single_child_kinds : list string := ["array"; "record"; "map"; "set"; "nullable"].

(** [all_of P l]: every element of [l] satisfies [P]. *)
Fixpoint all_of {A : Type} (P : A -> Prop) (l : list A) : Prop :=
  match l with
  | [] => True
  | x :: l' => P x /\ all_of P l'
  end.

(** Entries as the builders leave them, at every level: a tuple has at
    least one item, [minItems] counts the items and [maxItems], if present,
    does too; [anyOf] is not empty and [allOf] has two members; an object
    has [type] "object", [additionalProperties] false, no [$schema], and
    every key of its [required] array, the name [__proto__] apart, is one
    of its properties. *)
Fixpoint entry_wf (e : JsonSchemaDefinitionEntry) : Prop :=
  match e with
  | JType _ | JTypeFormat _ _ | JEnum _ | JInherited _ => True
  | JConst const _ => const <> VUndefined
  | JObject o => schema_wf o
  | JArray items | JRecord items | JUniqueArray items => entry_wf items
  | JTuple items minItems maxItems =>
      items <> [] /\ minItems = length items /\
      (maxItems = None \/ maxItems = Some (length items)) /\
      all_of entry_wf items
  | JAnyOf anyOf => anyOf <> [] /\ all_of entry_wf anyOf
  | JAllOf allOf => length allOf = 2 /\ all_of entry_wf allOf
  end
with schema_wf (o : LooseJsonObjectSchema) : Prop :=
  match o with
  | MkObjectSchema type properties required additionalProperties dollar =>
      type = "object" /\ additionalProperties = Some false /\ dollar = None /\
      (exists req, required = Some req /\
                   forall key, In key req -> key <> "__proto__" ->
                               In key (map fst properties)) /\
      all_of (fun kv => entry_wf (snd kv)) properties
  end.

(** A set behind a [default] and a [readonly] wrapper, newer
    representation: the set is at 5, the wrappers at 8 and 11. *)
Definition decorated_set_v4 : heap :=
  [ Plain [("type", VStr "string")];
    Plain [("def", VObj 0)];
    Plain [("_zod", VObj 1)];
    Plain [("type", VStr "set"); ("valueType", VObj 2)];
    Plain [("def", VObj 3)];
    Plain [("_zod", VObj 4)];
    Plain [("type", VStr "default"); ("innerType", VObj 5)];
    Plain [("def", VObj 6)];
    Plain [("_zod", VObj 7)];
    Plain [("type", VStr "readonly"); ("innerType", VObj 8)];
    Plain [("def", VObj 9)];
    Plain [("_zod", VObj 10)] ].

(** An array of strings (node 3) and an array of [any] (node 7), older
    representation; the definition of the latter also holds [null] under
    [element], so that the element is found under [type]. *)
Definition arrays_v3 : heap :=
  [ Plain [("typeName", VStr "ZodString")];
    Plain [("_def", VObj 0)];
    Plain [("typeName", VStr "ZodArray"); ("type", VObj 1)];
    Plain [("_def", VObj 2)];
    Plain [("typeName", VStr "ZodAny")];
    Plain [("_def", VObj 4)];
    Plain [("typeName", VStr "ZodArray"); ("element", VUndefined); ("type", VObj 5)];
    Plain [("_def", VObj 6)] ].

(** [property_of n h convert field property]: [property] carries the key
    of [field] and the schema that [convertProperty] yields for its node. *)
Definition property_of (n : nat) (h : heap)
    (convert : value -> option (option JsonSchemaDefinitionEntry))
    (field : string * value) (property : string * JsonSchemaDefinitionEntry) : Prop :=
  fst field = fst property /\
  exists optional,
    convertProperty n h convert (snd field) = Some (Some (snd property), optional).

(** [optional_layers h v n w]: starting at [v], [n] optional wrappers are
    crossed, each time unwrapping the decorators of what the wrapper holds
    under [innerType], and [w] is the first node met that is no optional
    wrapper. *)
Inductive optional_layers (h : heap) : value -> nat -> value -> Prop :=
| layers_done v :
    readZodType h v <> Some "optional" -> optional_layers h v 0 v
| layers_cross v k next n w :
    readZodType h v = Some "optional" ->
    decorator_chain h (get h (readZodDefinition h v) "innerType") k next ->
    truthy next = true ->
    next <> v ->
    optional_layers h next n w ->
    optional_layers h v (S n) w.

(** [readonly(optional(optional(default(string))))], older
    representation: the string is at 1, the field at 9. *)
Definition layered_v3 : heap :=
  [ Plain [("typeName", VStr "ZodString")];
    Plain [("_def", VObj 0)];
    Plain [("typeName", VStr "ZodDefault"); ("innerType", VObj 1)];
    Plain [("_def", VObj 2)];
    Plain [("typeName", VStr "ZodOptional"); ("innerType", VObj 3)];
    Plain [("_def", VObj 4)];
    Plain [("typeName", VStr "ZodOptional"); ("innerType", VObj 5)];
    Plain [("_def", VObj 6)];
    Plain [("typeName", VStr "ZodReadonly"); ("innerType", VObj 7)];
    Plain [("_def", VObj 8)] ].

(** The form of the entry that each kind converts to; no other kind
    converts to anything. *)
Definition entry_for_kind (kind : string) (e : JsonSchemaDefinitionEntry) : Prop :=
  if String.eqb kind "string" then e = JType "string"
  else if String.eqb kind "number" then e = JType "number"
  else if String.eqb kind "bigint" then e = JType "integer"
  else if String.eqb kind "boolean" then e = JType "boolean"
  else if String.eqb kind "date" then e = JTypeFormat "string" "date-time"
  else if mem_string kind OBJECT_PROTOTYPE_KEYS then e = JInherited kind
  else if String.eqb kind "object" then exists o, e = JObject o
  else if String.eqb kind "array" then exists items, e = JArray items
  else if String.eqb kind "tuple" then
    exists items maxItems, e = JTuple items (length items) maxItems
  else if String.eqb kind "union" then exists options, e = JAnyOf options
  else if String.eqb kind "intersection" then exists l r, e = JAllOf [l; r]
  else if String.eqb kind "literal" then exists const type, e = JConst const type
  else if String.eqb kind "enum" || String.eqb kind "nativeenum" then
    exists members, e = JEnum members
  else if String.eqb kind "record" then exists values, e = JRecord values
  else if String.eqb kind "map" then exists values, e = JArray values
  else if String.eqb kind "set" then exists items, e = JUniqueArray items
  else if String.eqb kind "nullable" then exists inner, e = JAnyOf [inner; JType "null"]
  else False.

(** A native converter that returns an object schema whose [properties]
    member is present but [undefined]. *)
Definition hollow_converter : zod_runtime :=
  ZodNative (fun _ _ =>
    NativeReturns
      [Plain [("type", VStr "object"); ("properties", VUndefined);
              ("additionalProperties", VBool false)]]
      (VObj 0)).

(** An object with an empty shape (node 2), a tuple without items (node
    5), a union without options (node 7), older representation. *)
Definition empty_v3 : heap :=
  [ Plain [];
    Plain [("typeName", VStr "ZodObject")];
    Plain [("_def", VObj 1); ("shape", VObj 0)];
    Array [];
    Plain [("typeName", VStr "ZodTuple"); ("items", VObj 3)];
    Plain [("_def", VObj 4)];
    Plain [("typeName", VStr "ZodUnion"); ("options", VObj 3)];
    Plain [("_def", VObj 6)] ].

(** Literals: ["user"] under [value] (node 1, older representation),
    [null] under [value] (node 3), and a literal of the newer
    representation, which keeps its values under [values] (node 7). *)
Definition literals : heap :=
  [ Plain [("typeName", VStr "ZodLiteral"); ("value", VStr "user")];
    Plain [("_def", VObj 0)];
    Plain [("typeName", VStr "ZodLiteral"); ("value", VNull)];
    Plain [("_def", VObj 2)];
    Array [VStr "user"];
    Plain [("type", VStr "literal"); ("values", VObj 4)];
    Plain [("def", VObj 5)];
    Plain [("_zod", VObj 6)] ].

(** Enumerations: members in an array under [values] (node 2, empty;
    node 5), and in an object under [values] (node 8). *)
Definition enums : heap :=
  [ Array [];
    Plain [("typeName", VStr "ZodEnum"); ("values", VObj 0)];
    Plain [("_def", VObj 1)];
    Array [VStr "pending"; VStr "active"];
    Plain [("typeName", VStr "ZodEnum"); ("values", VObj 3); ("options", VObj 0)];
    Plain [("_def", VObj 4)];
    Plain [("Up", VStr "UP"); ("Down", VStr "DOWN")];
    Plain [("typeName", VStr "ZodNativeEnum"); ("values", VObj 6)];
    Plain [("_def", VObj 7)] ].

(** [{ inner: { id: string, note: string.optional() } }], older
    representation: the inner object is at 9, the outer one at 12. *)
Definition nested_v3 : heap :=
  [ Plain [("typeName", VStr "ZodString")];
    Plain [("_def", VObj 0)];
    Plain [("typeName", VStr "ZodOptional"); ("innerType", VObj 1)];
    Plain [("_def", VObj 2)];
    Plain [("id", VObj 1); ("note", VObj 3)];
    Func (Some (VObj 4));
    Plain [("typeName", VStr "ZodObject"); ("shape", VObj 5)];
    Plain [("_def", VObj 6); ("shape", VObj 4)];
    Plain [("typeName", VStr "ZodReadonly"); ("innerType", VObj 7)];
    Plain [("_def", VObj 8)];
    Plain [("inner", VObj 9)];
    Plain [("typeName", VStr "ZodObject")];
    Plain [("_def", VObj 11); ("shape", VObj 10)] ].

(** The intersections [string & number] (node 7) and [string & any]
    (node 9), older representation. *)
Definition intersections_v3 : heap :=
  [ Plain [("typeName", VStr "ZodString")];
    Plain [("_def", VObj 0)];
    Plain [("typeName", VStr "ZodNumber")];
    Plain [("_def", VObj 2)];
    Plain [("typeName", VStr "ZodAny")];
    Plain [("_def", VObj 4)];
    Plain [("typeName", VStr "ZodIntersection"); ("left", VObj 1); ("right", VObj 3)];
    Plain [("_def", VObj 6)];
    Plain [("typeName", VStr "ZodIntersection"); ("left", VObj 1); ("right", VObj 5)];
    Plain [("_def", VObj 8)] ].

(** An optional set of strings (node 8), newer representation. *)
Definition optional_set_v4 : heap :=
  [ Plain [("type", VStr "string")];
    Plain [("def", VObj 0)];
    Plain [("_zod", VObj 1)];
    Plain [("type", VStr "set"); ("valueType", VObj 2)];
    Plain [("def", VObj 3)];
    Plain [("_zod", VObj 4)];
    Plain [("type", VStr "optional"); ("innerType", VObj 5)];
    Plain [("def", VObj 6)];
    Plain [("_zod", VObj 7)] ].

(** [occurs c s]: the character [c] occurs in [s]. *)
Fixpoint occurs (c : ascii) (s : string) : bool :=
  match s with
  | EmptyString => false
  | String a s' => Ascii.eqb c a || occurs c s'
  end.

(** The fields of a shape that become properties: all but a field named
    [__proto__]. *)
Definition property_fields (fields : list (string * value)) : list (string * value) :=
  filter (fun kf => negb (String.eqb (fst kf) "__proto__")) fields.

(* ================================================================== *)
(** * Properties *)

Ltac inv H := inversion H; subst; clear H.

Ltac case_match :=
  match goal with
  | |- context [match ?x with _ => _ end] => destruct x eqn:?
  | H : context [match ?x with _ => _ end] |- _ => destruct x eqn:?
  end.

Lemma bind_some {A B : Type} (m : option A) (k : A -> option B) (b : B) :
  bind m k = Some b -> exists a, m = Some a /\ k a = Some b.
Proof. destruct m; simpl; intros E; [eauto | discriminate]. Qed.

Ltac bind_inv H :=
  let x := fresh "x" in
  let E := fresh "E" in
  apply bind_some in H; destruct H as (x & E & H).

Lemma value_eqb_eq (x y : value) : value_eqb x y = true <-> x = y.
Proof.
  split.
  - destruct x, y; simpl; intros E; try discriminate; try reflexivity.
    + apply Bool.eqb_prop in E. now subst.
    + apply Z.eqb_eq in E. now subst.
    + apply String.eqb_eq in E. now subst.
    + apply Nat.eqb_eq in E. now subst.
  - intros ->. destruct y; simpl; auto.
    + apply Bool.eqb_reflx.
    + apply Z.eqb_refl.
    + apply String.eqb_refl.
    + apply Nat.eqb_refl.
Qed.

(* ------------------------------------------------------------------ *)
(** ** Introspection *)

Lemma readZodDefinition_primitive (h : heap) (v : value) :
  is_object h v = false -> readZodDefinition h v = VUndefined.
Proof. unfold readZodDefinition. now intros ->. Qed.

Lemma readZodType_primitive (h : heap) (v : value) :
  is_object h v = false -> readZodType h v = None.
Proof. unfold readZodType. intros E. now rewrite readZodDefinition_primitive. Qed.

Lemma string_field_object (h : heap) (def : value) (key s : string) :
  string_field h def key = Some s -> exists a, def = VObj a.
Proof.
  unfold string_field, get, deref. destruct def; try discriminate. eauto.
Qed.

(** The definition of a node that has a kind is a heap object, so that
    [key in def] raises no TypeError inside the builders. *)
Lemma readZodType_def_object (h : heap) (v : value) (t : string) :
  readZodType h v = Some t -> exists a, readZodDefinition h v = VObj a.
Proof.
  unfold readZodType. destruct (truthy (readZodDefinition h v)); [|discriminate].
  destruct (string_field h (readZodDefinition h v) "typeName") eqn:E1.
  - intros _. eapply string_field_object; eauto.
  - destruct (string_field h (readZodDefinition h v) "type") eqn:E2; [|discriminate].
    intros _. eapply string_field_object; eauto.
Qed.

Lemma readZodType_is_object (h : heap) (v : value) (t : string) :
  readZodType h v = Some t -> is_object h v = true.
Proof.
  intros E. destruct (is_object h v) eqn:O; auto.
  rewrite readZodType_primitive in E; auto. discriminate.
Qed.

(* ------------------------------------------------------------------ *)
(** ** Decorator chains *)

Lemma unwrapDecorators_unfold (fuel : nat) (h : heap) (v : value) :
  unwrapDecorators fuel h v =
  match decorator_next h v with
  | None => Some v
  | Some next =>
      match fuel with
      | O => None
      | S fuel' => unwrapDecorators fuel' h next
      end
  end.
Proof.
  unfold decorator_next, is_decorator.
  destruct fuel; cbn [unwrapDecorators];
    destruct (mem_string (kind_or_empty h v) DECORATOR_WRAPPERS); auto;
    destruct (negb (truthy (decorator_inner h v)) || value_eqb (decorator_inner h v) v); auto.
Qed.

Lemma decorator_chain_unwrap (h : heap) (v w : value) (k : nat) :
  decorator_chain h v k w ->
  forall fuel, k <= fuel -> unwrapDecorators fuel h v = Some w.
Proof.
  induction 1 as [v E | v next k w E C IH]; intros fuel L;
    rewrite unwrapDecorators_unfold, E; auto.
  destruct fuel as [|fuel]; [lia|]. apply IH. lia.
Qed.

Lemma decorator_chain_short (h : heap) (v w : value) (k : nat) :
  decorator_chain h v k w ->
  forall fuel, fuel < k -> unwrapDecorators fuel h v = None.
Proof.
  induction 1 as [v E | v next k w E C IH]; intros fuel L; [lia|].
  rewrite unwrapDecorators_unfold, E.
  destruct fuel as [|fuel]; auto. apply IH. lia.
Qed.

Lemma unwrap_decorator_chain (fuel : nat) (h : heap) :
  forall v w, unwrapDecorators fuel h v = Some w ->
  exists k, k <= fuel /\ decorator_chain h v k w.
Proof.
  induction fuel as [|fuel IH]; intros v w; rewrite unwrapDecorators_unfold;
    destruct (decorator_next h v) as [next|] eqn:E; intros U; try discriminate.
  - inv U. exists 0. split; [lia | now constructor].
  - apply IH in U. destruct U as (k & L & C).
    exists (S k). split; [lia | econstructor; eauto].
  - inv U. exists 0. split; [lia | now constructor].
Qed.

Lemma decorator_chain_end (h : heap) (v w : value) (k : nat) :
  decorator_chain h v k w -> decorator_next h w = None.
Proof. induction 1; auto. Qed.

Lemma decorator_chain_functional (h : heap) (v w w' : value) (k k' : nat) :
  decorator_chain h v k w -> decorator_chain h v k' w' -> k = k' /\ w = w'.
Proof.
  intros C. revert k' w'.
  induction C as [v E | v next k w E C IH]; intros k' w' C'; inv C'; try congruence.
  - auto.
  - rewrite E in H. inv H. destruct (IH _ _ H0). subst. auto.
Qed.

(** The scenarios of the specification. *)
Example nullable_string_scenario :
  convertSchema 2 scenarios_v3 (VObj 3) = Some (Some (JAnyOf [JType "string"; JType "null"])).
Proof. reflexivity. Qed.

Example record_of_number_scenario :
  convertSchema 2 scenarios_v3 (VObj 7) = Some (Some (JRecord (JType "number"))).
Proof. reflexivity. Qed.

Example set_field_scenario :
  exists message,
    zodJsonSchemaCompat 3 ZodMissing set_v4 (VObj 9) = Some (Throws message) /\
    includes "Replace z.set(T) with z.array(T)" message = true.
Proof. eexists. split; [reflexivity | vm_compute; reflexivity]. Qed.

Example unwrap_branded_readonly :
  unwrapDecorators 2 wrapped_heap (VObj 5) = Some (VObj 1).
Proof. reflexivity. Qed.

Example unwrap_self_reference :
  unwrapDecorators 0 wrapped_heap (VObj 7) = Some (VObj 7).
Proof. reflexivity. Qed.

Lemma two_cycle_never_returns (fuel : nat) :
  unwrapDecorators fuel two_cycle (VObj 1) = None /\
  unwrapDecorators fuel two_cycle (VObj 3) = None.
Proof.
  induction fuel as [|fuel [IH1 IH3]]; split; rewrite unwrapDecorators_unfold;
    try reflexivity.
  - exact IH3.
  - exact IH1.
Qed.

(** C7, as stated, fails: two decorators that wrap each other form a cycle
    of length two, the guard [next === current] never fires, and the loop
    of [unwrapDecorators] returns for no amount of fuel. *)
Lemma unwrapDecorators_two_cycle_diverges :
  ~ (exists fuel w, unwrapDecorators fuel two_cycle (VObj 1) = Some w).
Proof.
  intros (fuel & w & E).
  destruct (two_cycle_never_returns fuel) as [N _]. congruence.
Qed.

(** C7 (amended): for every node whose decorator chain is finite, ending
    at a node that is no decorator, at a decorator without inner node, or
    at a decorator that is its own inner node, [unwrapDecorators]
    terminates after as many replacements as the chain is long and with no
    fewer, every completed run reaches the same innermost node, and that
    node is left as it is by a further unwrapping. *)
Theorem unwrapDecorators_finite_chain (h : heap) (v w : value) (k : nat) :
  decorator_chain h v k w ->
  (forall fuel, k <= fuel -> unwrapDecorators fuel h v = Some w) /\
  (forall fuel, fuel < k -> unwrapDecorators fuel h v = None) /\
  (forall fuel r, unwrapDecorators fuel h v = Some r -> r = w) /\
  (forall fuel, unwrapDecorators fuel h w = Some w).
Proof.
  intros C. repeat split.
  - now apply decorator_chain_unwrap.
  - now apply decorator_chain_short with (w := w).
  - intros fuel r U. apply unwrap_decorator_chain in U.
    destruct U as (k' & _ & C').
    now destruct (decorator_chain_functional _ _ _ _ _ _ C' C).
  - intros fuel. rewrite unwrapDecorators_unfold.
    now rewrite (decorator_chain_end _ _ _ _ C).
Qed.

Lemma unwrapDecorators_finite_chain_witness :
  decorator_chain wrapped_heap (VObj 5) 2 (VObj 1) /\
  (forall fuel, 2 <= fuel -> unwrapDecorators fuel wrapped_heap (VObj 5) = Some (VObj 1)) /\
  (forall fuel, fuel < 2 -> unwrapDecorators fuel wrapped_heap (VObj 5) = None) /\
  (forall fuel r, unwrapDecorators fuel wrapped_heap (VObj 5) = Some r -> r = VObj 1) /\
  (forall fuel, unwrapDecorators fuel wrapped_heap (VObj 1) = Some (VObj 1)).
Proof.
  assert (C : decorator_chain wrapped_heap (VObj 5) 2 (VObj 1)).
  { apply chain_hop with (next := VObj 3); [reflexivity|].
    apply chain_hop with (next := VObj 1); [reflexivity|].
    apply chain_stop. reflexivity. }
  split; [exact C | exact (unwrapDecorators_finite_chain _ _ _ _ C)].
Defined.

(* ------------------------------------------------------------------ *)
(** ** Heaps without cycles *)

Lemma wf_from_nth (h : list object) :
  forall base a o x,
    wf_from base h = true -> nth_error h a = Some o -> In x (stored_values o) ->
    rank x <= base + a.
Proof.
  induction h as [|o' h IH]; intros base a o x W N I.
  - destruct a; discriminate.
  - cbn [wf_from] in W. apply andb_true_iff in W. destruct W as [W1 W2].
    apply andb_true_iff in W1. destruct W1 as [_ W1].
    destruct a as [|a]; simpl in N.
    + inv N. rewrite forallb_forall in W1. apply W1 in I.
      apply Nat.leb_le in I. lia.
    + specialize (IH (S base) a o x W2 N I). lia.
Qed.

Lemma wf_from_reads_safely (h : list object) :
  forall base a o, wf_from base h = true -> nth_error h a = Some o -> reads_safely o = true.
Proof.
  induction h as [|o' h IH]; intros base a o W N.
  - destruct a; discriminate.
  - cbn [wf_from] in W. apply andb_true_iff in W. destruct W as [W1 W2].
    apply andb_true_iff in W1. destruct W1 as [W1 _].
    destruct a as [|a]; simpl in N.
    + now inv N.
    + eapply IH; eauto.
Qed.

Lemma insert_by_index_in {A : Type} (n : N) (x y : A) (l : list (N * A)) :
  In y (map snd (insert_by_index n x l)) -> y = x \/ In y (map snd l).
Proof.
  induction l as [|[m z] l IH]; simpl.
  - intros [<-|[]]. now left.
  - destruct (N.ltb n m); simpl.
    + intros [<-|[<-|I]]; auto.
    + intros [<-|I]; auto. destruct (IH I); auto.
Qed.

(** Enumeration reorders the properties; it neither adds nor invents one. *)
Lemma own_property_order_in (ps : list (string * value)) (kv : string * value) :
  In kv (own_property_order ps) -> In kv ps.
Proof.
  unfold own_property_order, named_properties. intros I.
  apply in_app_or in I. destruct I as [I|I].
  - induction ps as [|[k v] ps IH]; cbn [index_properties] in I; [contradiction|].
    destruct (array_index k).
    + apply insert_by_index_in in I. destruct I as [->|I]; [now left | right; auto].
    + right; auto.
  - apply filter_In in I. tauto.
Qed.

Lemma own_property_order_values (ps : list (string * value)) (x : value) :
  In x (map snd (own_property_order ps)) -> In x (map snd ps).
Proof.
  intros I. apply in_map_iff in I. destruct I as (kv & <- & I).
  apply in_map. now apply own_property_order_in.
Qed.

Lemma heap_wf_stored (h : heap) (a : addr) (o : object) (x : value) :
  heap_wf h = true -> nth_error h a = Some o -> In x (stored_values o) -> rank x <= a.
Proof. intros W N I. apply (wf_from_nth h 0 a o x W N I). Qed.

Lemma assoc_in (key : string) (ps : list (string * value)) :
  assoc key ps = VUndefined \/ In (assoc key ps) (map snd ps).
Proof.
  induction ps as [|[k v] ps IH]; simpl; auto.
  destruct (String.eqb k key); auto. destruct IH; auto.
Qed.

Lemma indexed_snd (es : list value) : forall i, map snd (indexed i es) = es.
Proof. induction es; simpl; intros; f_equal; auto. Qed.

Lemma chars_rank (s : string) :
  forall i x, In x (map snd (chars i s)) -> rank x = 0.
Proof.
  induction s; simpl; intros i x I; [contradiction|].
  destruct I as [<-|I]; eauto.
Qed.

Section Acyclic.

Variable h : heap.
Hypothesis W : heap_wf h = true.

Lemma get_rank (v : value) (key : string) : rank (get h v key) <= pred (rank v).
Proof.
  unfold get, deref. destruct v; simpl; try lia.
  destruct (nth_error h a) as [[ps|es|r|ps]|] eqn:N; simpl; try lia.
  - destruct (assoc_in key ps) as [-> | I]; simpl; [lia|].
    apply (heap_wf_stored h a (Plain ps) _ W N I).
  - destruct (assoc_in key (indexed 0 es)) as [-> | I]; simpl; [lia|].
    rewrite indexed_snd in I. apply (heap_wf_stored h a (Array es) _ W N I).
  - destruct (assoc_in key ps) as [-> | I]; simpl; [lia|].
    apply (heap_wf_stored h a (ShapeThrows ps) _ W N I).
Qed.

Lemma entries_rank (v x : value) :
  In x (map snd (entries h v)) -> rank x <= pred (rank v).
Proof.
  unfold entries. destruct v; simpl; try contradiction.
  - intros I. rewrite (chars_rank _ _ _ I). lia.
  - destruct (nth_error h a) as [[ps|es|r|ps]|] eqn:N; simpl; try contradiction.
    + intros I. apply own_property_order_values in I.
      apply (heap_wf_stored h a (Plain ps) _ W N I).
    + rewrite indexed_snd. intros I. apply (heap_wf_stored h a (Array es) _ W N I).
    + intros I. apply own_property_order_values in I.
      apply (heap_wf_stored h a (ShapeThrows ps) _ W N I).
Qed.

Lemma array_elems_rank (v x : value) :
  In x (array_elems h v) -> rank x <= pred (rank v).
Proof.
  unfold array_elems, deref. destruct v; simpl; try contradiction.
  destruct (nth_error h a) as [[ps|es|r|ps]|] eqn:N; simpl; try contradiction.
  intros I. apply (heap_wf_stored h a (Array es) _ W N I).
Qed.

Lemma call_rank (f : value) : rank (call_or_undefined h f) <= pred (rank f).
Proof.
  unfold call_or_undefined, js_call, deref. destruct f; simpl; try lia.
  destruct (nth_error h a) as [[ps|es|[r|]|ps]|] eqn:N; simpl; try lia.
  apply (heap_wf_stored h a (Func (Some r)) r W N). simpl. auto.
Qed.

Lemma js_or_rank (a b : value) (k : nat) :
  rank a <= k -> rank b <= k -> rank (js_or a b) <= k.
Proof. unfold js_or. destruct (truthy a); auto. Qed.

Lemma js_coalesce_rank (a b : value) (k : nat) :
  rank a <= k -> rank b <= k -> rank (js_coalesce a b) <= k.
Proof. unfold js_coalesce. destruct (nullish a); auto. Qed.

Lemma readZodDefinition_rank (v : value) :
  rank (readZodDefinition h v) <= pred (rank v).
Proof.
  unfold readZodDefinition. destruct (is_object h v); simpl; [|lia].
  pose proof (get_rank v "_zod"). pose proof (get_rank (get h v "_zod") "def").
  pose proof (get_rank v "_def"). pose proof (get_rank v "def").
  repeat apply js_or_rank; lia.
Qed.

Lemma decorator_inner_rank (v : value) :
  rank (decorator_inner h v) <= pred (rank v).
Proof.
  unfold decorator_inner.
  pose proof (readZodDefinition_rank v) as D.
  assert (G : forall key, rank (get h (readZodDefinition h v) key) <= pred (rank v)).
  { intros key. pose proof (get_rank (readZodDefinition h v) key). lia. }
  repeat apply js_coalesce_rank; apply G.
Qed.

Lemma is_object_rank (v : value) : is_object h v = true -> 1 <= rank v.
Proof. destruct v; simpl; try discriminate. lia. Qed.

Lemma readZodType_rank (v : value) (t : string) :
  readZodType h v = Some t -> 1 <= rank v.
Proof. intros E. apply is_object_rank. eapply readZodType_is_object; eauto. Qed.

Lemma decorator_next_rank (v next : value) :
  decorator_next h v = Some next -> rank next < rank v.
Proof.
  unfold decorator_next, is_decorator, kind_or_empty.
  destruct (readZodType h v) as [t|] eqn:T; [|discriminate].
  destruct (mem_string t DECORATOR_WRAPPERS); [|discriminate].
  destruct (negb (truthy (decorator_inner h v)) || value_eqb (decorator_inner h v) v);
    [discriminate|].
  intros E. inv E.
  pose proof (decorator_inner_rank v). pose proof (readZodType_rank _ _ T). lia.
Qed.

Lemma unwrapDecorators_total (fuel : nat) :
  forall v, rank v <= fuel ->
  exists w, unwrapDecorators fuel h v = Some w /\ rank w <= rank v.
Proof.
  induction fuel as [|fuel IH]; intros v L; rewrite unwrapDecorators_unfold;
    destruct (decorator_next h v) as [next|] eqn:E; eauto.
  - apply decorator_next_rank in E. lia.
  - apply decorator_next_rank in E.
    destruct (IH next) as (w & U & R); [lia|].
    exists w. split; [exact U | lia].
Qed.

Lemma read_shape_member_safe (v : value) :
  read_shape_member h v = Some (get h v "shape").
Proof.
  unfold read_shape_member, deref. destruct v; auto.
  destruct (nth_error h a) as [o|] eqn:N; auto.
  pose proof (wf_from_reads_safely h 0 a o W N) as R.
  destruct o; auto; discriminate.
Qed.

(** On such a heap [readShape] never throws. *)
Lemma readShape_outcome_safe (v : value) :
  readShape_outcome h v = Some (readShape h v).
Proof.
  unfold readShape, readShape_outcome.
  rewrite !read_shape_member_safe. cbn [bind].
  repeat (case_match; try reflexivity).
Qed.

Lemma readShape_never_throws (v : value) : readShape_throws h v = false.
Proof. unfold readShape_throws. now rewrite readShape_outcome_safe. Qed.

Lemma readShape_rank (v : value) : rank (readShape h v) <= pred (rank v).
Proof.
  pose proof (readShape_outcome_safe v) as E. revert E.
  generalize (readShape h v). intros s.
  unfold readShape_outcome. rewrite !read_shape_member_safe. cbn [bind].
  pose proof (get_rank v "shape") as G1.
  pose proof (call_rank (get h v "shape")) as C1.
  pose proof (readZodDefinition_rank v) as D.
  pose proof (get_rank (readZodDefinition h v) "shape") as G2.
  pose proof (call_rank (get h (readZodDefinition h v) "shape")) as C2.
  repeat (case_match; simpl; try lia); intros E; inv E; simpl; lia.
Qed.

End Acyclic.

(* ------------------------------------------------------------------ *)
(** ** convertProperty and the optional flag *)

Lemma optional_kind_iff (h : heap) (v : value) :
  mem_string (kind_or_empty h v) OPTIONAL_WRAPPERS = true <->
  readZodType h v = Some "optional".
Proof.
  unfold kind_or_empty, mem_string, OPTIONAL_WRAPPERS. simpl.
  destruct (readZodType h v) as [t|]; simpl.
  - rewrite orb_false_r, String.eqb_eq. split; congruence.
  - split; discriminate.
Qed.

Lemma optional_loop_true (ufuel fuel : nat) (h : heap) :
  forall current r, optional_loop ufuel fuel h current true = Some r -> snd r = true.
Proof.
  induction fuel as [|fuel IH]; intros current r; cbn [optional_loop];
    destruct (mem_string (kind_or_empty h current) OPTIONAL_WRAPPERS);
    intros E; try (inv E; reflexivity);
    bind_inv E; case_match; try discriminate; try (inv E; reflexivity).
  eapply IH; eauto.
Qed.

Lemma optional_loop_flag (ufuel fuel : nat) (h : heap) (current : value) r :
  optional_loop ufuel fuel h current false = Some r ->
  snd r = mem_string (kind_or_empty h current) OPTIONAL_WRAPPERS.
Proof.
  destruct fuel as [|fuel]; cbn [optional_loop];
    destruct (mem_string (kind_or_empty h current) OPTIONAL_WRAPPERS);
    intros E; try (inv E; reflexivity);
    bind_inv E; case_match; try discriminate; try (inv E; reflexivity).
  eapply optional_loop_true; eauto.
Qed.

Lemma convertProperty_optional (n : nat) (h : heap) convert (field : value) schema optional :
  convertProperty n h convert field = Some (schema, optional) ->
  if optional then resolves_to_optional h field else resolves_to_required h field.
Proof.
  unfold convertProperty. intros E.
  bind_inv E. bind_inv E. bind_inv E. inv E.
  apply unwrap_decorator_chain in E0. destruct E0 as (k & _ & C).
  apply optional_loop_flag in E1. rewrite E1.
  destruct (mem_string (kind_or_empty h x) OPTIONAL_WRAPPERS) eqn:O.
  - exists k, x. split; auto. now apply optional_kind_iff.
  - exists k, x. split; auto. intros T. apply optional_kind_iff in T. congruence.
Qed.

Lemma optional_required_exclusive (h : heap) (field : value) :
  resolves_to_optional h field -> resolves_to_required h field -> False.
Proof.
  intros (k & w & C & T) (k' & w' & C' & T').
  destruct (decorator_chain_functional _ _ _ _ _ _ C C'). subst. auto.
Qed.

(* ------------------------------------------------------------------ *)
(** ** buildObjectSchema *)

Lemma define_property_keys {A : Type} (key : string) (x : A) (ps : list (string * A)) (k : string) :
  In k (map fst (define_property key x ps)) <-> k = key \/ In k (map fst ps).
Proof.
  induction ps as [|[k' y] ps IH]; simpl.
  - intuition.
  - destruct (String.eqb k' key) eqn:E; simpl.
    + apply String.eqb_eq in E. subst. intuition.
    + rewrite IH. intuition.
Qed.

(** The assignment adds the key to the properties, unless the key is
    [__proto__]. *)
Lemma set_property_keys {A : Type} (key : string) (x : A) (ps : list (string * A)) (k : string) :
  In k (map fst (set_property key x ps)) <->
  (key <> "__proto__" /\ k = key) \/ In k (map fst ps).
Proof.
  unfold set_property. destruct (String.eqb key "__proto__") eqn:E.
  - apply String.eqb_eq in E. subst. intuition.
  - apply String.eqb_neq in E. rewrite define_property_keys. intuition.
Qed.

Section ObjectFields.

Variable n : nat.
Variable h : heap.
Variable convert : value -> option (option JsonSchemaDefinitionEntry).

Lemma buildObjectSchema_fields_some (fields : list (string * value)) :
  forall properties required doc,
    buildObjectSchema_fields n h convert fields properties required = Some (Some doc) ->
    exists properties' req,
      doc = MkObjectSchema "object" properties' (Some (required ++ req)%list) (Some false) None /\
      required_fields h fields req /\
      (forall k, In k (map fst properties) \/ (In k (map fst fields) /\ k <> "__proto__") ->
                 In k (map fst properties')).
Proof.
  induction fields as [|[key field] fields IH]; intros properties required doc E;
    cbn [buildObjectSchema_fields] in E.
  - inv E. exists properties, []. rewrite app_nil_r.
    repeat split; [constructor | intros k [I|[[] _]]; auto].
  - bind_inv E. destruct x as [[schema|] optional]; simpl in E; [|discriminate].
    pose proof (convertProperty_optional _ _ _ _ _ _ E0) as O.
    apply IH in E. destruct E as (properties' & req & -> & R & K).
    assert (K' : forall k,
               In k (map fst properties) \/
               (In k (map fst ((key, field) :: fields)) /\ k <> "__proto__") ->
               In k (map fst properties')).
    { intros k [I|[[<-|I] P]]; apply K; auto; left; apply set_property_keys; auto. }
    destruct optional.
    + exists properties', req. repeat split; [now constructor | exact K'].
    + exists properties', (key :: req). rewrite <- app_assoc.
      repeat split; [now constructor | exact K'].
Qed.

(** A failing field makes the loop return [undefined]. *)
Lemma buildObjectSchema_fields_fail (fields : list (string * value)) :
  forall properties required key field optional r,
    In (key, field) fields ->
    convertProperty n h convert field = Some (None, optional) ->
    buildObjectSchema_fields n h convert fields properties required = Some r ->
    r = None.
Proof.
  induction fields as [|[key' field'] fields IH];
    intros properties required key field optional r I F E; [contradiction|].
  cbn [buildObjectSchema_fields] in E. bind_inv E.
  destruct I as [I|I].
  - inv I. rewrite F in E0. inv E0. simpl in E. congruence.
  - destruct (fst x); [|congruence]. eapply IH; eauto.
Qed.

Lemma buildObjectSchema_fields_total (fields : list (string * value)) :
  (forall key field, In (key, field) fields ->
                     exists r, convertProperty n h convert field = Some r) ->
  forall properties required,
    exists r, buildObjectSchema_fields n h convert fields properties required = Some r.
Proof.
  induction fields as [|[key field] fields IH]; intros T properties required;
    cbn [buildObjectSchema_fields]; eauto.
  destruct (T key field) as (r & ->); [now left|]. simpl.
  destruct (fst r); eauto.
  apply IH. intros k f I. apply (T k f). now right.
Qed.

End ObjectFields.

Lemma required_fields_in (h : heap) fields req :
  required_fields h fields req ->
  forall k, In k req -> exists f, In (k, f) fields /\ resolves_to_required h f.
Proof.
  induction 1 as [|key field fields req O R IH|key field fields req O R IH]; intros k I.
  - contradiction.
  - destruct (IH k I) as (f & F & Q). exists f. split; [now right | auto].
  - destruct I as [<-|I].
    + exists field. split; [now left | auto].
    + destruct (IH k I) as (f & F & Q). exists f. split; [now right | auto].
Qed.

Lemma required_fields_NoDup (h : heap) fields req :
  required_fields h fields req -> NoDup (map fst fields) -> NoDup req.
Proof.
  induction 1 as [|key field fields req O R IH|key field fields req O R IH];
    simpl; intros N; inv N; auto.
  - constructor.
  - constructor; auto. intros I.
    destruct (required_fields_in _ _ _ R _ I) as (f & F & _).
    apply H1. apply in_map_iff. exists (key, f). auto.
Qed.

Lemma NoDup_keys_functional {A : Type} (l : list (string * A)) k x y :
  NoDup (map fst l) -> In (k, x) l -> In (k, y) l -> x = y.
Proof.
  induction l as [|[k' z] l IH]; simpl; intros N I J; [contradiction|].
  inv N. destruct I as [I|I], J as [J|J].
  - congruence.
  - inv I. exfalso. apply H1. apply in_map_iff. exists (k, y). auto.
  - inv J. exfalso. apply H1. apply in_map_iff. exists (k, x). auto.
  - eauto.
Qed.

(* ------------------------------------------------------------------ *)
(** ** The manual converter completes on heaps without cycles *)

Lemma mapM_total {A B : Type} (f : A -> option B) (l : list A) :
  (forall x, In x l -> exists y, f x = Some y) -> exists ys, mapM f l = Some ys.
Proof.
  induction l as [|x l IH]; simpl; intros T; eauto.
  destruct (T x) as (y & ->); auto. simpl.
  destruct IH as (ys & ->); [intros; apply T; auto|]. simpl. eauto.
Qed.

Section ManualTotal.

Variable h : heap.
Hypothesis W : heap_wf h = true.

Lemma optional_loop_total (ufuel fuel : nat) :
  forall current optional,
    rank current <= fuel -> rank current <= ufuel ->
    exists r, optional_loop ufuel fuel h current optional = Some r /\
              rank (fst r) <= rank current.
Proof.
  induction fuel as [|fuel IH]; intros current optional L U; cbn [optional_loop];
    destruct (mem_string (kind_or_empty h current) OPTIONAL_WRAPPERS) eqn:O;
    try (eexists; split; [reflexivity | simpl; lia]).
  - apply optional_kind_iff in O. apply (readZodType_rank h) in O. lia.
  - pose proof O as O'. apply optional_kind_iff in O'.
    apply (readZodType_rank h) in O'.
    pose proof (readZodDefinition_rank h W current) as D.
    pose proof (get_rank h W (readZodDefinition h current) "innerType") as G.
    destruct (unwrapDecorators_total h W ufuel
                (get h (readZodDefinition h current) "innerType")) as (next & -> & R);
      [lia|]. simpl.
    destruct (negb (truthy next) || value_eqb next current).
    + eexists; split; [reflexivity | simpl; lia].
    + destruct (IH next true) as (r & -> & R'); [lia | lia |].
      exists r. split; [reflexivity | lia].
Qed.

Variable n : nat.
Variable convert : value -> option (option JsonSchemaDefinitionEntry).
Hypothesis convert_total : forall x, rank x < n -> exists r, convert x = Some r.

Lemma convertProperty_total (field : value) :
  rank field < n -> exists r, convertProperty n h convert field = Some r.
Proof.
  intros L. unfold convertProperty.
  destruct (unwrapDecorators_total h W n field) as (current & -> & R); [lia|]. simpl.
  destruct (optional_loop_total n n current false) as (r & -> & R'); [lia | lia |]. simpl.
  destruct (convert_total (fst r)) as (s & ->); [lia|]. simpl. eauto.
Qed.

Lemma buildObjectSchema_total (v : value) :
  rank v <= n -> exists r, buildObjectSchema n h convert v = Some r.
Proof.
  intros L. unfold buildObjectSchema. rewrite (readShape_never_throws h W).
  destruct (truthy (readShape h v)) eqn:T; eauto.
  apply buildObjectSchema_fields_total. intros key field I.
  apply convertProperty_total.
  assert (F : rank field <= pred (rank (readShape h v))).
  { apply (entries_rank h W). apply in_map_iff. exists (key, field). auto. }
  pose proof (readShape_rank h W v) as S.
  destruct (rank v) eqn:Rv.
  - destruct v; simpl in Rv; try discriminate; cbn in T; discriminate.
  - lia.
Qed.

Lemma coerceArray_rank (v x : value) : In x (coerceArray h v) -> rank x <= rank v.
Proof.
  unfold coerceArray. destruct (is_array h v).
  - intros I. apply (array_elems_rank h W) in I. lia.
  - destruct (is_undefined v); simpl; intros I; [contradiction|].
    destruct I as [<-|[]]. lia.
Qed.

Lemma extractFirst_rank (def : value) (keys : list string) :
  rank (extractFirst h def keys) <= pred (rank def).
Proof.
  induction keys as [|key keys IH]; cbn [extractFirst];
    destruct (truthy def); simpl; try lia.
  pose proof (get_rank h W def key).
  repeat (case_match; simpl; try lia).
Qed.

Lemma dispatch_total (type : string) (unwrapped def : value) :
  rank unwrapped <= n -> rank def < n ->
  exists r, dispatch n h convert type unwrapped def = Some r.
Proof.
  intros U D.
  assert (G : forall key, exists r, convert (get h def key) = Some r).
  { intros key. apply convert_total. pose proof (get_rank h W def key). lia. }
  assert (G2 : forall k1 k2,
             exists r, convert (js_coalesce (get h def k1) (get h def k2)) = Some r).
  { intros k1 k2. apply convert_total.
    pose proof (get_rank h W def k1). pose proof (get_rank h W def k2).
    pose proof (js_coalesce_rank (get h def k1) (get h def k2)
                  (pred (rank def))). lia. }
  assert (M : forall v, rank v <= pred (rank def) ->
             exists rs, mapM convert (coerceArray h v) = Some rs).
  { intros v L. apply mapM_total. intros x I. apply convert_total.
    apply coerceArray_rank in I. lia. }
  unfold dispatch.
  repeat (case_match; eauto).
  - destruct (buildObjectSchema_total unwrapped U) as (r & ->). simpl. eauto.
  - unfold buildArraySchema.
    destruct (convert_total (extractFirst h def ["element"; "items"; "type"]))
      as (r & ->); [pose proof (extractFirst_rank def ["element"; "items"; "type"]); lia|].
    simpl. eauto.
  - unfold buildTupleSchema.
    destruct (M (get h def "items")) as (rs & ->); [apply (get_rank h W)|]. simpl.
    destruct (filter_defined rs); eauto.
  - unfold buildUnionSchema.
    destruct (M (js_coalesce (get h def "options") (get h def "schemas"))) as (rs & ->).
    { apply js_coalesce_rank; apply (get_rank h W). }
    simpl. destruct (filter_defined rs); eauto.
  - unfold buildIntersectionSchema.
    destruct (G "left") as (l & ->). destruct (G "right") as (r & ->). simpl.
    destruct l, r; eauto.
  - unfold buildRecordSchema. destruct (G2 "valueType" "values") as (r & ->). simpl. eauto.
  - unfold buildMapSchema. destruct (G2 "valueType" "values") as (r & ->). simpl. eauto.
  - unfold buildSetSchema. destruct (G "valueType") as (r & ->). simpl. eauto.
  - unfold buildNullableSchema. destruct (G2 "innerType" "type") as (r & ->). simpl. eauto.
Qed.

Lemma convertSchema_body_total (v : value) :
  rank v <= n -> exists r, convertSchema_body n h convert v = Some r.
Proof.
  intros L. unfold convertSchema_body.
  destruct (is_undefined v); eauto.
  destruct (unwrapDecorators_total h W n v L) as (u & -> & R). cbn [bind].
  destruct (readZodType h u) as [t|] eqn:T; eauto.
  destruct (String.eqb t EmptyString); eauto.
  destruct (SIMPLE_TYPE_MAPPING t); eauto.
  destruct (mem_string t OBJECT_PROTOTYPE_KEYS); eauto.
  apply dispatch_total; [lia|].
  pose proof (readZodType_rank h _ _ T). pose proof (readZodDefinition_rank h W u). lia.
Qed.

End ManualTotal.

Lemma convertSchema_total (h : heap) :
  heap_wf h = true ->
  forall fuel v, rank v < fuel -> exists r, convertSchema fuel h v = Some r.
Proof.
  intros W. induction fuel as [|fuel IH]; intros v L; [lia|].
  cbn [convertSchema]. apply convertSchema_body_total; auto. lia.
Qed.

Lemma manual_buildObjectSchema_total (h : heap) (fuel : nat) (v : value) :
  heap_wf h = true -> rank v <= fuel ->
  exists r, manual_buildObjectSchema fuel h v = Some r.
Proof.
  intros W L. unfold manual_buildObjectSchema.
  apply buildObjectSchema_total; auto.
  intros x Lx. now apply convertSchema_total.
Qed.

(* ------------------------------------------------------------------ *)
(** ** The scanner *)

Lemma append_empty_r (s : string) : s ++ EmptyString = s.
Proof. induction s; simpl; congruence. Qed.

Lemma append_assoc (a b c : string) : (a ++ b) ++ c = a ++ b ++ c.
Proof. induction a; simpl; congruence. Qed.

Lemma extend_check_if (p : string) (v : value) (s : string) :
  map (extend p) (check_if v s) = check_if v (p ++ s).
Proof. unfold check_if. destruct (truthy v); reflexivity. Qed.

Lemma extend_with_index (p : string) (mk : nat -> string) (l : list value) :
  forall i, map (extend p) (with_index mk i l) = with_index (fun i => p ++ mk i) i l.
Proof. induction l; simpl; intros; f_equal; auto. Qed.

Lemma scanner_decorators (t : string) :
  mem_string t ["transform"; "effects"; "refinement"; "pipeline"; "pipe"; "brand";
                "branded"; "catch"; "default"; "prefault"; "readonly"] =
  mem_string t DECORATOR_WRAPPERS.
Proof.
  unfold mem_string, DECORATOR_WRAPPERS. simpl.
  generalize (String.eqb t "transform"), (String.eqb t "effects"),
    (String.eqb t "refinement"), (String.eqb t "pipeline"), (String.eqb t "pipe"),
    (String.eqb t "brand"), (String.eqb t "branded"), (String.eqb t "catch"),
    (String.eqb t "default"), (String.eqb t "prefault"), (String.eqb t "readonly").
  intros. btauto.
Qed.

Lemma check_switch_children (h : heap) chk (t : string) (v def : value) (p : string) :
  String.eqb t "lazy" = false ->
  check_switch h chk t v def p =
  if String.eqb t "object" && readShape_throws h v then None
  else check_all chk (map (extend p) (structural_children h t v def)).
Proof.
  intros L. unfold check_switch, structural_children.
  rewrite scanner_decorators, L.
  destruct (String.eqb t "object"); cbn [andb].
  - destruct (readShape_throws h v); [reflexivity|].
    destruct (truthy (readShape h v)); [|reflexivity].
    now rewrite map_map.
  - repeat (match goal with
            | |- context [if ?b then _ else _] => destruct b
            end;
            rewrite ?map_app, ?extend_check_if, ?extend_with_index, ?append_empty_r, ?map_map;
            try reflexivity).
Qed.

Lemma reported_cases (h : heap) (v : value) (k : string) :
  reported h v = Some k <->
  is_object h v = true /\
  (readZodType h v = Some k /\ In k unrepresentableTypes \/
   readZodType h v = Some "lazy" /\ k = "lazy").
Proof.
  unfold reported. destruct (is_object h v); [|split; [discriminate | intros [? _]; discriminate]].
  destruct (readZodType h v) as [t|]; [|split; [discriminate | intros [_ [[? _]|[? _]]]; discriminate]].
  assert (M : mem_string t unrepresentableTypes = true <-> In t unrepresentableTypes).
  { unfold mem_string. rewrite existsb_exists. split.
    - intros (x & I & E). apply String.eqb_eq in E. now subst.
    - intros I. exists t. split; auto. apply String.eqb_refl. }
  destruct (mem_string t unrepresentableTypes) eqn:U.
  - split.
    + intros E. inv E. split; auto. left. split; auto. now apply M.
    + intros [_ [[E I]|[E ->]]]; inv E; auto.
  - destruct (String.eqb t "lazy") eqn:L.
    + apply String.eqb_eq in L. subst. split.
      * intros E. inv E. auto.
      * intros [_ [[E I]|[E ->]]]; auto.
    + split; [discriminate|].
      intros [_ [[E I]|[E ->]]]; inv E.
      * apply M in I. discriminate.
      * rewrite String.eqb_refl in L. discriminate.
Qed.

(** One call of [check], in the words of the specification. *)
Lemma check_body_spec (h : heap) chk (v : value) (p : string) :
  check_body h chk v p =
  match reported h v with
  | Some k => Some [MkDiagnostic k p]
  | None =>
      if scan_fails h v then None
      else check_all chk (map (extend p) (scan_children h v))
  end.
Proof.
  unfold check_body, scan_children, reported, scan_fails.
  destruct (is_object h v) eqn:O; [|now rewrite readZodType_primitive].
  destruct (readZodType h v) as [t|]; [|reflexivity].
  destruct (String.eqb t EmptyString) eqn:E.
  - apply String.eqb_eq in E. subst. reflexivity.
  - cbn [negb andb].
    destruct (mem_string t unrepresentableTypes); [reflexivity|].
    destruct (String.eqb t "lazy") eqn:L.
    + apply String.eqb_eq in L. subst. reflexivity.
    + now apply check_switch_children.
Qed.

(** A recorded node is no object node. *)
Lemma reported_scan_fails (h : heap) (v : value) (k : string) :
  reported h v = Some k -> scan_fails h v = false.
Proof.
  unfold reported, scan_fails. destruct (is_object h v); [|discriminate].
  destruct (readZodType h v) as [t|]; [|reflexivity].
  destruct (String.eqb t "object") eqn:E; [|reflexivity].
  apply String.eqb_eq in E. subst. discriminate.
Qed.

Lemma reported_no_children (h : heap) (v : value) (k : string) :
  reported h v = Some k -> scan_children h v = [].
Proof. unfold scan_children. now intros ->. Qed.

(** Recorded nodes are leaves: a node of an unrepresentable kind, or
    a lazy node, yields its own diagnostic and nothing else, whatever its
    definition refers to. *)
Lemma check_reported (fuel : nat) (h : heap) (v : value) (p k : string) :
  reported h v = Some k -> check (S fuel) h v p = Some [MkDiagnostic k p].
Proof. intros R. cbn [check]. now rewrite check_body_spec, R. Qed.

Lemma check_all_spec chk (P : value -> string -> list Diagnostic -> Prop) children :
  (forall s c, In (s, c) children -> exists ds, chk c s = Some ds /\ P c s ds) ->
  exists parts,
    check_all chk children = Some (concat parts) /\
    Forall2 (fun sc part => chk (snd sc) (fst sc) = Some part /\ P (snd sc) (fst sc) part)
            children parts.
Proof.
  induction children as [|[s c] children IH]; intros H.
  - exists []. split; [reflexivity | constructor].
  - destruct (H s c) as (ds & E & Q); [now left|].
    destruct IH as (parts & E' & F); [intros; apply H; now right|].
    exists (ds :: parts). split.
    + cbn [check_all]. rewrite E. cbn [bind]. rewrite E'. reflexivity.
    + constructor; auto.
Qed.

Lemma Forall2_in_l {A B : Type} (R : A -> B -> Prop) l l' x :
  Forall2 R l l' -> In x l -> exists y, In y l' /\ R x y.
Proof.
  induction 1 as [|a b l l' H F IH]; intros I; [contradiction|].
  destruct I as [<-|I].
  - exists b. split; [now left | auto].
  - destruct (IH I) as (y & J & Q). exists y. split; [now right | auto].
Qed.

Lemma Forall2_in_r {A B : Type} (R : A -> B -> Prop) l l' y :
  Forall2 R l l' -> In y l' -> exists x, In x l /\ R x y.
Proof.
  induction 1 as [|a b l l' H F IH]; intros I; [contradiction|].
  destruct I as [<-|I].
  - exists a. split; [now left | auto].
  - destruct (IH I) as (x & J & Q). exists x. split; [now right | auto].
Qed.

Lemma Forall2_map_l {A B C : Type} (f : A -> B) (R : B -> C -> Prop) l l' :
  Forall2 R (map f l) l' -> Forall2 (fun a c => R (f a) c) l l'.
Proof.
  revert l'. induction l as [|a l IH]; intros l' F; inv F; constructor; auto.
Qed.

Lemma Forall2_weaken {A B : Type} (R R' : A -> B -> Prop) l l' :
  (forall a b, R a b -> R' a b) -> Forall2 R l l' -> Forall2 R' l l'.
Proof. intros W. induction 1; constructor; auto. Qed.

Lemma check_scan_correct (h : heap) (d : nat) :
  forall v p, scan_depth d h v = true ->
  exists found, check d h v p = Some found /\ scan_correct h v p found.
Proof.
  induction d as [|d IH]; intros v p D; [discriminate|].
  cbn [check]. rewrite check_body_spec.
  destruct (reported h v) as [k|] eqn:R.
  - exists [MkDiagnostic k p]. split; [reflexivity|]. split.
    + now constructor.
    + intros kind q. split.
      * intros [E|[]]. inv E. exists v. split; [constructor | assumption].
      * intros (w & C & Q). inv C.
        -- rewrite R in Q. inv Q. now left.
        -- rewrite (reported_no_children _ _ _ R) in H. contradiction.
  - cbn [scan_depth] in D. apply andb_true_iff in D. destruct D as [N D].
    apply negb_true_iff in N. rewrite N.
    rewrite forallb_forall in D.
    destruct (check_all_spec (check d h) (scan_correct h)
                (map (extend p) (scan_children h v))) as (parts & E & F).
    { intros s c I. apply in_map_iff in I. destruct I as ([suffix c'] & Q & I).
      inv Q. apply IH. apply (D _ I). }
    exists (concat parts). split; [exact E|].
    apply Forall2_map_l in F. cbn [extend fst snd] in F.
    split.
    + constructor; auto.
      eapply Forall2_weaken; [|exact F]. cbn beta. intros a b (_ & S & _). exact S.
    + intros kind q. split.
      * intros I. apply in_concat in I. destruct I as (part & I & J).
        destruct (Forall2_in_r _ _ _ _ F I) as ([suffix c] & K & _ & _ & M).
        apply M in J. destruct J as (w & C & Q).
        exists w. split; [|exact Q]. econstructor; eauto.
      * intros (w & C & Q). inv C.
        -- congruence.
        -- destruct (Forall2_in_l _ _ _ _ F H) as (part & I & _ & _ & M).
           apply in_concat. exists part. split; [exact I|].
           apply M. exists w. auto.
Qed.

(* ------------------------------------------------------------------ *)
(** ** More fuel changes no result *)

Lemma unwrapDecorators_mono (n m : nat) (h : heap) (v w : value) :
  n <= m -> unwrapDecorators n h v = Some w -> unwrapDecorators m h v = Some w.
Proof.
  intros L U. apply unwrap_decorator_chain in U. destruct U as (k & K & C).
  apply (decorator_chain_unwrap _ _ _ _ C). lia.
Qed.

Lemma optional_loop_mono (u u' : nat) (h : heap) (n : nat) :
  u <= u' ->
  forall m current optional r,
    n <= m ->
    optional_loop u n h current optional = Some r ->
    optional_loop u' m h current optional = Some r.
Proof.
  intros U. induction n as [|n IH]; intros m current optional r L E;
    destruct m as [|m]; try lia; cbn [optional_loop] in *;
    destruct (mem_string (kind_or_empty h current) OPTIONAL_WRAPPERS); auto;
    bind_inv E; rewrite (unwrapDecorators_mono u u' h _ _ U E0); cbn [bind];
    destruct (negb (truthy x) || value_eqb x current); auto; try discriminate.
  apply IH; [lia | assumption].
Qed.

Lemma mapM_mono {A B : Type} (g f : A -> option B) (l : list A) :
  extends g f -> forall rs, mapM g l = Some rs -> mapM f l = Some rs.
Proof.
  intros X. induction l as [|x l IH]; simpl; intros rs E; auto.
  bind_inv E. bind_inv E. inv E.
  rewrite (X _ _ E0). cbn [bind]. rewrite (IH _ E1). reflexivity.
Qed.

Section ManualMono.

Variable h : heap.
Variables n m : nat.
Variables convert convert' : value -> option (option JsonSchemaDefinitionEntry).
Hypothesis fuel_le : n <= m.
Hypothesis convert_extends : extends convert convert'.

Lemma convertProperty_mono : extends (convertProperty n h convert) (convertProperty m h convert').
Proof.
  intros field r E. unfold convertProperty in *.
  bind_inv E. bind_inv E. bind_inv E. inv E.
  rewrite (unwrapDecorators_mono n m h _ _ fuel_le E0). cbn [bind].
  rewrite (optional_loop_mono n m h n fuel_le m _ _ _ fuel_le E1). cbn [bind].
  rewrite (convert_extends _ _ E2). reflexivity.
Qed.

Lemma buildObjectSchema_fields_mono (fields : list (string * value)) :
  forall properties required r,
    buildObjectSchema_fields n h convert fields properties required = Some r ->
    buildObjectSchema_fields m h convert' fields properties required = Some r.
Proof.
  induction fields as [|[key field] fields IH]; intros properties required r E;
    cbn [buildObjectSchema_fields] in *; auto.
  bind_inv E. rewrite (convertProperty_mono _ _ E0). cbn [bind].
  destruct (fst x); auto.
Qed.

Lemma buildObjectSchema_mono : extends (buildObjectSchema n h convert) (buildObjectSchema m h convert').
Proof.
  intros v r. unfold buildObjectSchema.
  destruct (readShape_throws h v); auto.
  destruct (truthy (readShape h v)); auto. apply buildObjectSchema_fields_mono.
Qed.

Lemma dispatch_mono (type : string) (unwrapped def : value) r :
  dispatch n h convert type unwrapped def = Some r ->
  dispatch m h convert' type unwrapped def = Some r.
Proof.
  unfold dispatch, buildArraySchema, buildTupleSchema, buildUnionSchema,
    buildIntersectionSchema, buildRecordSchema, buildMapSchema, buildSetSchema,
    buildNullableSchema.
  repeat match goal with
         | |- context [if ?b then _ else _] => destruct b
         end;
    intros E; auto;
    repeat (bind_inv E;
            first [ rewrite (convert_extends _ _ E0)
                  | rewrite (convert_extends _ _ E1)
                  | rewrite (buildObjectSchema_mono _ _ E0)
                  | rewrite (mapM_mono convert convert' _ convert_extends _ E0) ];
            cbn [bind]);
    auto.
Qed.

Lemma convertSchema_body_mono :
  extends (convertSchema_body n h convert) (convertSchema_body m h convert').
Proof.
  intros v r. unfold convertSchema_body.
  destruct (is_undefined v); auto. intros E. bind_inv E.
  rewrite (unwrapDecorators_mono n m h _ _ fuel_le E0). cbn [bind].
  destruct (readZodType h x); auto.
  destruct (String.eqb s EmptyString); auto.
  destruct (SIMPLE_TYPE_MAPPING s); auto.
  destruct (mem_string s OBJECT_PROTOTYPE_KEYS); auto.
  now apply dispatch_mono.
Qed.

End ManualMono.

Lemma convertSchema_mono (h : heap) (n : nat) :
  forall m, n <= m -> extends (convertSchema n h) (convertSchema m h).
Proof.
  induction n as [|n IH]; intros m L v r E; [discriminate|].
  destruct m as [|m]; [lia|]. cbn [convertSchema] in *.
  apply (convertSchema_body_mono h n m (convertSchema n h) (convertSchema m h)); auto.
  - lia.
  - apply IH. lia.
Qed.

Lemma manual_buildObjectSchema_mono (h : heap) (n m : nat) :
  n <= m -> extends (manual_buildObjectSchema n h) (manual_buildObjectSchema m h).
Proof.
  intros L. unfold manual_buildObjectSchema.
  apply buildObjectSchema_mono; [assumption | now apply convertSchema_mono].
Qed.

Lemma check_all_mono chk chk' children :
  (forall v p ds, chk v p = Some ds -> chk' v p = Some ds) ->
  forall found, check_all chk children = Some found -> check_all chk' children = Some found.
Proof.
  intros X. induction children as [|[p v] children IH]; intros found E;
    cbn [check_all] in *; auto.
  bind_inv E. bind_inv E. inv E.
  rewrite (X _ _ _ E0). cbn [bind]. rewrite (IH _ E1). reflexivity.
Qed.

Lemma check_mono (h : heap) (n : nat) :
  forall m v p found, n <= m -> check n h v p = Some found -> check m h v p = Some found.
Proof.
  induction n as [|n IH]; intros m v p found L E; [discriminate|].
  destruct m as [|m]; [lia|]. cbn [check] in *.
  rewrite check_body_spec in *. destruct (reported h v); auto.
  destruct (scan_fails h v); auto.
  eapply check_all_mono; [|exact E]. intros; apply IH; auto. lia.
Qed.

(* ------------------------------------------------------------------ *)
(** ** What the scanner records *)

Lemma self_field_never_returns (fuel : nat) :
  forall p, check fuel self_field_v4 (VObj 3) p = None.
Proof.
  induction fuel as [|fuel IH]; intros p; [reflexivity|].
  cbn [check]. rewrite check_body_spec.
  change (bind (check fuel self_field_v4 (VObj 3) (p ++ ".self"))
               (fun ds => bind (Some []) (fun ds' => Some (List.app ds ds'))) = None).
  now rewrite IH.
Qed.

(** The scan of an object whose shape cannot be read ends with the error
    of the accessor, whatever the room on the stack. *)
Lemma unreadable_shape_ends_scan (fuel : nat) (p : string) :
  check fuel throwing_accessor_v4 (VObj 2) p = None.
Proof. destruct fuel; reflexivity. Qed.

(** C8, as stated, fails where it promises termination on cyclic trees:
    only lazy nodes cut a cycle.  The scan of an object that is its own
    field descends forever. *)
Lemma scanner_self_field_diverges :
  ~ (exists fuel found, findUnrepresentableTypes fuel self_field_v4 (VObj 3) = Some found).
Proof.
  intros (fuel & found & E). unfold findUnrepresentableTypes in E.
  rewrite self_field_never_returns in E. discriminate.
Qed.

(** C8 (amended): on every tree of finite depth, the nodes of an
    unrepresentable kind and the lazy nodes counting as leaves, in which
    the shape of every object node can be read, the scan terminates, with
    the same result for any larger amount of fuel; the diagnostics are
    those of the children in the order in which they are enumerated; a
    diagnostic of kind [k] at path [q] is recorded exactly when a
    node reached at [q] has an unrepresentable kind [k] or is lazy; and
    such a node yields its own diagnostic alone, whatever lies beneath or,
    for a lazy node, behind it. *)
Theorem scanner_records_reachable_kinds d h input path :
  scan_depth d h input = true ->
  exists found,
    (forall fuel, d <= fuel -> check fuel h input path = Some found) /\
    scans h input path found /\
    (forall kind q,
        In (MkDiagnostic kind q) found <->
        exists w, scan_reaches h input path w q /\ reported h w = Some kind) /\
    (forall w kind,
        reported h w = Some kind <->
        is_object h w = true /\
        (readZodType h w = Some kind /\ In kind unrepresentableTypes \/
         readZodType h w = Some "lazy" /\ kind = "lazy")) /\
    (forall w kind q fuel,
        reported h w = Some kind -> check (S fuel) h w q = Some [MkDiagnostic kind q]).
Proof.
  intros D. destruct (check_scan_correct h d input path D) as (found & E & S & M).
  exists found.
  split; [intros fuel L; now apply (check_mono h d fuel)|].
  split; [exact S|]. split; [exact M|].
  split; [intros w kind; apply reported_cases|].
  intros w kind q fuel R. now apply check_reported.
Qed.

Lemma scanner_records_reachable_kinds_witness :
  scan_depth 2 lazy_cycle_v4 (VObj 13) = true /\
  js_call lazy_cycle_v4 (VObj 6) = Some (VObj 13) /\
  check 2 lazy_cycle_v4 (VObj 13) "$" =
    Some [MkDiagnostic "set" "$.tags"; MkDiagnostic "lazy" "$.next"] /\
  exists found,
    (forall fuel, 2 <= fuel -> check fuel lazy_cycle_v4 (VObj 13) "$" = Some found) /\
    scans lazy_cycle_v4 (VObj 13) "$" found.
Proof.
  split; [reflexivity|]. split; [reflexivity|]. split; [reflexivity|].
  destruct (scanner_records_reachable_kinds 2 lazy_cycle_v4 (VObj 13) "$" eq_refl)
    as (found & E & S & _).
  exists found. split; [exact E | exact S].
Defined.

(* ------------------------------------------------------------------ *)
(** ** Substrings *)

Lemma prefix_append (p s : string) : String.prefix p (p ++ s) = true.
Proof.
  induction p as [|a p IH]; simpl; [now destruct s|].
  destruct (ascii_dec a a); congruence.
Qed.

Lemma prefix_split (p : string) :
  forall s, String.prefix p s = true -> exists t, s = p ++ t.
Proof.
  induction p as [|a p IH]; intros s E.
  - exists s. reflexivity.
  - destruct s as [|b s]; simpl in E; [discriminate|].
    destruct (ascii_dec a b); [|discriminate]. subst.
    destruct (IH s E) as (t & ->). exists t. reflexivity.
Qed.

Lemma includes_unfold (needle hay : string) :
  includes needle hay =
  String.prefix needle hay ||
  match hay with
  | EmptyString => false
  | String _ hay' => includes needle hay'
  end.
Proof. destruct hay; reflexivity. Qed.

Lemma includes_iff (needle hay : string) :
  includes needle hay = true <-> exists pre post, hay = pre ++ needle ++ post.
Proof.
  split.
  - induction hay as [|c hay IH]; rewrite includes_unfold; intros E;
      apply orb_true_iff in E; destruct E as [E|E]; try discriminate.
    + apply prefix_split in E. destruct E as (t & ->). exists EmptyString, t. reflexivity.
    + apply prefix_split in E. destruct E as (t & ->). exists EmptyString, t. reflexivity.
    + destruct (IH E) as (pre & post & ->). exists (String c pre), post. reflexivity.
  - intros (pre & post & ->). induction pre as [|c pre IH]; rewrite includes_unfold.
    + simpl. now rewrite prefix_append.
    + simpl. rewrite IH. apply orb_true_r.
Qed.

Lemma includes_append_l (needle a b : string) :
  includes needle b = true -> includes needle (a ++ b) = true.
Proof.
  rewrite !includes_iff. intros (pre & post & ->).
  exists (a ++ pre), post. now rewrite append_assoc.
Qed.

Lemma includes_append_r (needle a b : string) :
  includes needle a = true -> includes needle (a ++ b) = true.
Proof.
  rewrite !includes_iff. intros (pre & post & ->).
  exists pre, (post ++ b). now rewrite !append_assoc.
Qed.

Lemma includes_prefix (needle hay : string) :
  String.prefix needle hay = true -> includes needle hay = true.
Proof. intros E. rewrite includes_unfold, E. reflexivity. Qed.

Lemma includes_self (s : string) : includes s s = true.
Proof.
  apply includes_iff. exists EmptyString, EmptyString. simpl. now rewrite append_empty_r.
Qed.

Lemma includes_trans (a b c : string) :
  includes a b = true -> includes b c = true -> includes a c = true.
Proof.
  rewrite !includes_iff. intros (p1 & q1 & ->) (p2 & q2 & ->).
  exists (p2 ++ p1), (q1 ++ q2). now rewrite !append_assoc.
Qed.

Lemma includes_join (sep x : string) (parts : list string) :
  In x parts -> includes x (join sep parts) = true.
Proof.
  induction parts as [|p parts IH]; intros I; [contradiction|].
  destruct parts as [|p' parts].
  - destruct I as [<-|[]]. apply includes_self.
  - change (includes x (p ++ sep ++ join sep (p' :: parts)) = true).
    destruct I as [<-|I].
    + apply includes_append_r, includes_self.
    + apply includes_append_l, includes_append_l. now apply IH.
Qed.

Lemma includes_skip (c : ascii) (n pre s : string) :
  occurs c pre = false -> includes (String c n) (pre ++ s) = includes (String c n) s.
Proof.
  induction pre as [|a pre IH]; intros O; [reflexivity|].
  cbn [occurs] in O. apply orb_false_iff in O. destruct O as [A O].
  apply Ascii.eqb_neq in A.
  change (String a pre ++ s) with (String a (pre ++ s)).
  rewrite includes_unfold. cbn [String.prefix].
  destruct (ascii_dec c a); [contradiction|]. cbn [orb]. auto.
Qed.

Lemma includes_absent (c : ascii) (n hay : string) :
  occurs c hay = false -> includes (String c n) hay = false.
Proof.
  induction hay as [|a hay IH]; intros O; [reflexivity|].
  cbn [occurs] in O. apply orb_false_iff in O. destruct O as [A O].
  apply Ascii.eqb_neq in A.
  rewrite includes_unfold. cbn [String.prefix].
  destruct (ascii_dec c a); [contradiction|]. cbn [orb]. auto.
Qed.

Lemma string_of_uint_digits (d : Decimal.uint) :
  occurs "["%char (NilEmpty.string_of_uint d) = false.
Proof. induction d; cbn [NilEmpty.string_of_uint occurs]; auto. Qed.

(** The tag occurs in the message of the TypeError exactly when the
    operand is a string in which it occurs. *)
Lemma in_type_error_tagged (input : value) :
  includes ERROR_TAG (in_type_error input) = includes ERROR_TAG (display input).
Proof.
  unfold in_type_error.
  change ERROR_TAG with (String "["%char "@openai/agents]").
  apply includes_skip. reflexivity.
Qed.

Lemma display_untagged (input : value) :
  (forall s, input = VStr s -> includes ERROR_TAG s = false) ->
  includes ERROR_TAG (display input) = false.
Proof.
  intros P. destruct input as [| |[|]|n|s|a]; try reflexivity.
  - change ERROR_TAG with (String "["%char "@openai/agents]").
    apply includes_absent. cbn [display].
    destruct (Z.to_int n) as [d|d]; cbn [NilEmpty.string_of_int occurs];
      apply string_of_uint_digits.
  - now apply P.
Qed.

(* ------------------------------------------------------------------ *)
(** ** The manual document *)

Lemma complete_document_fresh properties required :
  complete_document (MkObjectSchema "object" properties (Some required) (Some false) None) =
  MkObjectSchema "object" properties (Some required) (Some false) (Some JSON_SCHEMA_DRAFT_07).
Proof. reflexivity. Qed.

Lemma tryZod4NativeCompat_document fuel env h input doc :
  tryZod4NativeCompat fuel env h input = Some (Returns (Some doc)) ->
  exists out jsonSchema,
    doc = NativeSchema out jsonSchema /\
    hasJsonSchemaObjectShape out jsonSchema = true.
Proof.
  unfold tryZod4NativeCompat, tryZod4NativeCompat_try. intros E. bind_inv E.
  destruct x as [r|message]; [|destruct (includes ERROR_TAG message); discriminate].
  inv E.
  destruct (js_in h "_zod" input) as [[|]|]; try discriminate.
  destruct (findUnrepresentableTypes fuel h input) as [found|]; [|discriminate].
  destruct (Nat.ltb 0 (length found)); [discriminate|].
  destruct env as [| |toJSONSchema]; try discriminate.
  destruct (toJSONSchema h input) as [message|out jsonSchema]; [discriminate|].
  destruct (hasJsonSchemaObjectShape out jsonSchema) eqn:S; inv E0. eauto.
Qed.

Lemma zodJsonSchemaCompat_manual fuel env h input doc :
  zodJsonSchemaCompat fuel env h input = Some (Returns (Some (ManualSchema doc))) ->
  exists schema,
    manual_buildObjectSchema fuel h input = Some (Some schema) /\
    doc = complete_document schema.
Proof.
  unfold zodJsonSchemaCompat. intros E. bind_inv E.
  destruct x as [[native|]|message]; try discriminate.
  - apply tryZod4NativeCompat_document in E0.
    destruct E0 as (out & jsonSchema & -> & _). discriminate.
  - bind_inv E. destruct x as [schema|]; inv E. eauto.
Qed.

Lemma index_properties_named (ps : list (string * value)) :
  (forall k v, In (k, v) ps -> array_index k = None) -> index_properties ps = [].
Proof.
  induction ps as [|[k v] ps IH]; intros A; cbn [index_properties]; auto.
  rewrite (A k v (or_introl eq_refl)). apply IH. intros k' v' I. apply (A k' v'). now right.
Qed.

Lemma named_properties_named (ps : list (string * value)) :
  (forall k v, In (k, v) ps -> array_index k = None) -> named_properties ps = ps.
Proof.
  unfold named_properties.
  induction ps as [|[k v] ps IH]; intros A; cbn [filter fst]; auto.
  rewrite (A k v (or_introl eq_refl)). f_equal. apply IH.
  intros k' v' I. apply (A k' v'). now right.
Qed.

(** Where no name is an array index, enumeration follows the order of
    definition. *)
Lemma own_property_order_named (ps : list (string * value)) :
  (forall k v, In (k, v) ps -> array_index k = None) -> own_property_order ps = ps.
Proof.
  intros A. unfold own_property_order.
  now rewrite index_properties_named, named_properties_named.
Qed.

Lemma entries_declared (h : heap) (v : value) :
  (forall key field, In (key, field) (declared_properties h v) -> array_index key = None) ->
  entries h v = declared_properties h v.
Proof.
  unfold entries, declared_properties. destruct v; auto.
  destruct (nth_error h a) as [[ps|es|r|ps]|]; auto; apply own_property_order_named.
Qed.

Lemma buildObjectSchema_some n h convert v doc :
  buildObjectSchema n h convert v = Some (Some doc) ->
  readShape_throws h v = false /\ truthy (readShape h v) = true /\
  buildObjectSchema_fields n h convert (entries h (readShape h v)) [] [] = Some (Some doc).
Proof.
  unfold buildObjectSchema. destruct (readShape_throws h v); [discriminate|].
  destruct (truthy (readShape h v)); [auto | discriminate].
Qed.

Lemma plain_string_is_required (h : heap) (field : value) :
  decorator_next h field = None ->
  readZodType h field <> Some "optional" ->
  ~ resolves_to_optional h field.
Proof.
  intros D T (k & w & C & O).
  destruct (decorator_chain_functional _ _ _ _ _ _ C (chain_stop h field D)) as (_ & ->).
  contradiction.
Qed.

(** C1, as stated, fails in two places.  The [required] array follows the
    order in which the engine enumerates the shape, not the order of
    declaration: for the shape [{ b, 1 }] it is ["1", "b"].  And a field
    whose name is [__proto__] is listed in [required] without appearing in
    [properties], the assignment to that name defining no property. *)
Lemma required_order_and_proto_key :
  ~ (forall fuel env h input doc,
        zodJsonSchemaCompat fuel env h input = Some (Returns (Some (ManualSchema doc))) ->
        exists required,
          schema_required doc = Some required /\
          required_fields h (declared_properties h (readShape h input)) required) /\
  ~ (forall fuel env h input doc key field,
        zodJsonSchemaCompat fuel env h input = Some (Returns (Some (ManualSchema doc))) ->
        In (key, field) (entries h (readShape h input)) ->
        In key (map fst (schema_properties doc))).
Proof.
  split.
  - intros H.
    destruct (H 2 ZodMissing numbered_v3 (VObj 4) _ eq_refl) as (required & E & R).
    cbn in E. injection E as <-.
    change (declared_properties numbered_v3 (readShape numbered_v3 (VObj 4)))
      with [("b", VObj 1); ("1", VObj 1)] in R.
    inversion R as [|key field fields req O _|]; subst.
    revert O. apply plain_string_is_required; [reflexivity | discriminate].
  - intros H.
    pose proof (H 2 ZodMissing proto_key_v3 (VObj 4) _ "__proto__" (VObj 1) eq_refl) as I.
    cbn in I. destruct I as [I|[]]; [now left | discriminate].
Qed.

(** C1 (amended): a document produced by the manual path has [type]
    "object", [additionalProperties] false and the draft-07 [$schema]; its
    [required] array lists the keys of exactly those top-level fields whose
    decorator chain does not end at an optional wrapper, in the order in
    which [Object.entries] enumerates the shape: names that are array
    indices first, in ascending order, then the others in declaration
    order, which is declaration order whenever no name is an array index;
    every field whose name is not [__proto__] has an entry in
    [properties]; and, keys of an object being distinct, no key is listed
    twice and no optional field is listed. *)
Theorem manual_document_required fuel env h input doc :
  zodJsonSchemaCompat fuel env h input = Some (Returns (Some (ManualSchema doc))) ->
  let fields := entries h (readShape h input) in
  schema_type doc = "object" /\
  schema_additionalProperties doc = Some false /\
  schema_dollar_schema doc = Some JSON_SCHEMA_DRAFT_07 /\
  ((forall key field, In (key, field) (declared_properties h (readShape h input)) ->
                      array_index key = None) ->
   fields = declared_properties h (readShape h input)) /\
  exists required,
    schema_required doc = Some required /\
    required_fields h fields required /\
    (forall key field, In (key, field) fields -> key <> "__proto__" ->
                       In key (map fst (schema_properties doc))) /\
    (NoDup (map fst fields) ->
     NoDup required /\
     forall key field, In (key, field) fields -> resolves_to_optional h field ->
                       ~ In key required).
Proof.
  intros E fields. apply zodJsonSchemaCompat_manual in E.
  destruct E as (schema & B & ->).
  unfold manual_buildObjectSchema in B. apply buildObjectSchema_some in B.
  destruct B as (_ & _ & B).
  apply buildObjectSchema_fields_some in B.
  destruct B as (properties & req & -> & R & K). simpl app.
  rewrite complete_document_fresh. simpl.
  split; [reflexivity|]. split; [reflexivity|]. split; [reflexivity|].
  split; [apply entries_declared|].
  exists req. split; [reflexivity|]. split; [exact R|]. split; [|split].
  - intros key field I P. apply K. right. split; [|exact P].
    apply in_map_iff. exists (key, field). auto.
  - eapply required_fields_NoDup; eauto.
  - intros key field I O J.
    destruct (required_fields_in _ _ _ R _ J) as (f & F & Q).
    assert (f = field) by (eapply NoDup_keys_functional; eauto). subst.
    eapply optional_required_exclusive; eauto.
Qed.

Lemma manual_document_required_witness :
  zodJsonSchemaCompat 2 ZodMissing person_v3 (VObj 9) =
    Some (Returns (Some (ManualSchema
      (MkObjectSchema "object" [("name", JType "string"); ("age", JType "number")]
         (Some ["name"]) (Some false) (Some JSON_SCHEMA_DRAFT_07))))) /\
  exists required,
    Some ["name"] = Some required /\
    required_fields person_v3 (entries person_v3 (readShape person_v3 (VObj 9))) required.
Proof.
  split; [reflexivity|].
  destruct (manual_document_required 2 ZodMissing person_v3 (VObj 9) _ eq_refl)
    as (_ & _ & _ & _ & required & E & R & _).
  exists required. split; [exact E | exact R].
Defined.

(* ------------------------------------------------------------------ *)
(** ** Failing fields *)

Lemma failing_field_at_fuel fuel h v key field optional :
  In (key, field) (entries h (readShape h v)) ->
  convertProperty fuel h (convertSchema fuel h) field = Some (None, optional) ->
  forall r, manual_buildObjectSchema fuel h v = Some r -> r = None.
Proof.
  intros I F r. unfold manual_buildObjectSchema, buildObjectSchema.
  destruct (readShape_throws h v); [discriminate|].
  destruct (truthy (readShape h v)); [|congruence].
  intros E. eapply buildObjectSchema_fields_fail; eauto.
Qed.

(** A field that fails with some amount of fuel makes the object fail
    with any amount of fuel. *)
Lemma failing_field_any_fuel fuel0 h v key field optional :
  In (key, field) (entries h (readShape h v)) ->
  convertProperty fuel0 h (convertSchema fuel0 h) field = Some (None, optional) ->
  (forall fuel r, manual_buildObjectSchema fuel h v = Some r -> r = None) /\
  (heap_wf h = true ->
   forall fuel, rank v <= fuel -> manual_buildObjectSchema fuel h v = Some None).
Proof.
  intros I F.
  assert (A : forall fuel r, manual_buildObjectSchema fuel h v = Some r -> r = None).
  { intros fuel r E.
    apply (manual_buildObjectSchema_mono h fuel (Nat.max fuel fuel0)) in E; [|lia].
    apply (convertProperty_mono h fuel0 (Nat.max fuel fuel0)
             (convertSchema fuel0 h) (convertSchema (Nat.max fuel fuel0) h)) in F;
      [|lia | apply convertSchema_mono; lia].
    eapply failing_field_at_fuel; eauto. }
  split; [exact A|].
  intros W fuel L. destruct (manual_buildObjectSchema_total h fuel v W L) as (r & E).
  rewrite E. f_equal. eapply A; eauto.
Qed.

(** C4: when the conversion of one field of an object node yields no
    schema, [buildObjectSchema] returns no object at all: every completed
    run returns [undefined], whatever the fuel; on a heap without cycles
    the run completes; and the same holds where the object is reached
    through [convertSchema]. *)
Theorem failing_field_fails_object fuel0 h v key field optional :
  In (key, field) (entries h (readShape h v)) ->
  convertProperty fuel0 h (convertSchema fuel0 h) field = Some (None, optional) ->
  (forall fuel r, manual_buildObjectSchema fuel h v = Some r -> r = None) /\
  (heap_wf h = true ->
   forall fuel, rank v <= fuel -> manual_buildObjectSchema fuel h v = Some None) /\
  (forall fuel node r,
      unwrapDecorators fuel h node = Some v ->
      readZodType h v = Some "object" ->
      convertSchema (S fuel) h node = Some r -> r = None).
Proof.
  intros I F.
  destruct (failing_field_any_fuel fuel0 h v key field optional I F) as (A & T).
  split; [exact A|]. split; [exact T|].
  intros fuel node r U K E. cbn [convertSchema] in E. unfold convertSchema_body in E.
  destruct (is_undefined node); [congruence|].
  rewrite U in E. cbn [bind] in E. rewrite K in E.
  change (bind (manual_buildObjectSchema fuel h v)
               (fun o => Some (option_map JObject o)) = Some r) in E.
  bind_inv E. apply A in E0. subst. now inv E.
Qed.

Lemma failing_field_fails_object_witness :
  In ("extra", VObj 1) (entries with_any_v3 (readShape with_any_v3 (VObj 7))) /\
  convertProperty 1 with_any_v3 (convertSchema 1 with_any_v3) (VObj 1) = Some (None, false) /\
  manual_buildObjectSchema 8 with_any_v3 (VObj 7) = Some None.
Proof.
  assert (I : In ("extra", VObj 1) (entries with_any_v3 (readShape with_any_v3 (VObj 7)))).
  { simpl. auto. }
  assert (F : convertProperty 1 with_any_v3 (convertSchema 1 with_any_v3) (VObj 1)
              = Some (None, false)) by reflexivity.
  split; [exact I|]. split; [exact F|].
  destruct (failing_field_fails_object 1 with_any_v3 (VObj 7) "extra" (VObj 1) false I F)
    as (_ & T & _).
  apply T; [reflexivity | simpl; lia].
Defined.

(* ------------------------------------------------------------------ *)
(** ** Optional wrappers without inner node *)

Lemma convertSchema_optional_kind (n : nat) (h : heap) (w : value) :
  readZodType h w = Some "optional" ->
  convertSchema (S n) h w = Some None.
Proof.
  intros T. cbn [convertSchema]. unfold convertSchema_body.
  assert (U : is_undefined w = false).
  { apply readZodType_is_object in T. destruct w; simpl in *; congruence. }
  rewrite U, unwrapDecorators_unfold.
  assert (D : decorator_next h w = None).
  { unfold decorator_next, is_decorator, kind_or_empty. now rewrite T. }
  rewrite D. cbn [bind]. rewrite T. reflexivity.
Qed.

Lemma optional_loop_dangling (ufuel fuel : nat) (h : heap) (w next : value) (k : nat) :
  readZodType h w = Some "optional" ->
  decorator_chain h (get h (readZodDefinition h w) "innerType") k next ->
  truthy next = false \/ next = w ->
  k <= ufuel ->
  optional_loop ufuel fuel h w false = Some (w, true).
Proof.
  intros T C B L.
  assert (O : mem_string (kind_or_empty h w) OPTIONAL_WRAPPERS = true)
    by now apply optional_kind_iff.
  assert (G : negb (truthy next) || value_eqb next w = true).
  { destruct B as [-> | ->]; [reflexivity|].
    apply orb_true_iff. right. now apply value_eqb_eq. }
  destruct fuel; cbn [optional_loop]; rewrite O;
    rewrite (decorator_chain_unwrap _ _ _ _ C ufuel L); cbn [bind]; now rewrite G.
Qed.

(** C9: a field that resolves to an optional wrapper whose definition
    offers no inner node, or only the wrapper itself, is marked optional
    and converts to no schema, the kind [optional] having no builder; the
    enclosing object then converts to nothing: every completed run returns
    [undefined], and on a heap without cycles the run completes. *)
Theorem dangling_optional_fails_object h v key field k w k' next :
  In (key, field) (entries h (readShape h v)) ->
  decorator_chain h field k w ->
  readZodType h w = Some "optional" ->
  decorator_chain h (get h (readZodDefinition h w) "innerType") k' next ->
  truthy next = false \/ next = w ->
  (forall fuel, k <= fuel -> k' <= fuel -> 1 <= fuel ->
     convertProperty fuel h (convertSchema fuel h) field = Some (None, true)) /\
  (forall fuel r, manual_buildObjectSchema fuel h v = Some r -> r = None) /\
  (heap_wf h = true ->
   forall fuel, rank v <= fuel -> manual_buildObjectSchema fuel h v = Some None).
Proof.
  intros I C T C' B.
  assert (F : forall fuel, k <= fuel -> k' <= fuel -> 1 <= fuel ->
              convertProperty fuel h (convertSchema fuel h) field = Some (None, true)).
  { intros fuel L L' L1. unfold convertProperty.
    rewrite (decorator_chain_unwrap _ _ _ _ C fuel L). cbn [bind].
    rewrite (optional_loop_dangling fuel fuel h w next k' T C' B L'). cbn [bind fst snd].
    destruct fuel as [|n]; [lia|].
    now rewrite (convertSchema_optional_kind n h w T). }
  split; [exact F|].
  apply (failing_field_any_fuel (S (Nat.max k k')) h v key field true I).
  apply F; lia.
Qed.

Lemma dangling_optional_fails_object_witness :
  convertProperty 1 dangling_v3 (convertSchema 1 dangling_v3) (VObj 1) = Some (None, true) /\
  manual_buildObjectSchema 5 dangling_v3 (VObj 4) = Some None.
Proof.
  destruct (dangling_optional_fails_object dangling_v3 (VObj 4) "maybe" (VObj 1)
              0 (VObj 1) 0 VUndefined) as (F & _ & T).
  - simpl. auto.
  - apply chain_stop. reflexivity.
  - reflexivity.
  - apply chain_stop. reflexivity.
  - left. reflexivity.
  - split.
    + apply F; lia.
    + apply T; [reflexivity | simpl; lia].
Defined.

(* ------------------------------------------------------------------ *)
(** ** Roots without shape *)

Lemma function_is_no_object (h : heap) (f : value) :
  is_function h f = true -> is_object h f = false.
Proof.
  unfold is_function, deref, is_object. destruct f; auto.
  destruct (nth_error h a) as [[| | |]|]; auto; discriminate.
Qed.

Lemma no_shape_falsy_shape (h : heap) (input : value) :
  no_shape h input ->
  readShape_outcome h input = Some (readShape h input) /\
  truthy (readShape h input) = false.
Proof.
  assert (A : forall s, readShape_outcome h input = Some s -> truthy s = false ->
                        readShape_outcome h input = Some (readShape h input) /\
                        truthy (readShape h input) = false).
  { intros s E T. unfold readShape. now rewrite E. }
  intros [O | O M F C | O M M' F C | N T].
  - apply (A VUndefined); [|reflexivity]. unfold readShape_outcome. now rewrite O.
  - apply (A VUndefined); [|reflexivity]. unfold readShape_outcome.
    rewrite O, M. cbn [bind].
    rewrite (function_is_no_object h _ F), andb_false_r, F.
    unfold call_or_undefined. now rewrite C.
  - apply (A VUndefined); [|reflexivity]. unfold readShape_outcome.
    rewrite O, M. cbn [bind truthy andb]. change (is_function h VUndefined) with false.
    cbn iota. rewrite M'. cbn [bind].
    rewrite (function_is_no_object h _ F), andb_false_r, F.
    unfold call_or_undefined. now rewrite C.
  - split; [|exact T]. unfold readShape_throws, readShape in *.
    destruct (readShape_outcome h input); [reflexivity | discriminate].
Qed.

Lemma manual_document_shape_type fuel env h input schema :
  zodJsonSchemaCompat fuel env h input = Some (Returns (Some (ManualSchema schema))) ->
  schema_type schema = "object".
Proof.
  intros E. apply zodJsonSchemaCompat_manual in E. destruct E as (s & B & ->).
  unfold manual_buildObjectSchema in B. apply buildObjectSchema_some in B.
  destruct B as (_ & _ & B).
  apply buildObjectSchema_fields_some in B.
  destruct B as (properties & req & -> & _). reflexivity.
Qed.

Lemma primitive_root_outcome fuel env h input :
  (forall a, input <> VObj a) ->
  zodJsonSchemaCompat fuel env h input =
  Some (if includes ERROR_TAG (display input)
        then Throws (in_type_error input) else Returns None).
Proof.
  intros P.
  assert (Z : js_in h "_zod" input = None) by (destruct input; auto; now destruct (P a)).
  assert (S : manual_buildObjectSchema fuel h input = Some None)
    by (destruct input; auto; now destruct (P a)).
  unfold zodJsonSchemaCompat, tryZod4NativeCompat, tryZod4NativeCompat_try.
  rewrite Z. cbn [bind]. rewrite in_type_error_tagged.
  destruct (includes ERROR_TAG (display input)); cbn [bind]; [reflexivity|].
  now rewrite S.
Qed.

(** C10, as stated, fails for three of the roots from which no object
    shape can be read.  When the shape function of the root returns a
    number, the entry point returns a document, an object schema without
    properties.  When the root exposes its shape through an accessor that
    throws, as an object schema of the older representation does whose
    shape thunk throws, the entry point does not return: [readShape] reads
    the member outside its [try] blocks and the error escapes.  And the
    primitive root that is the tag of the module never reaches the manual
    path: the TypeError of the delegate, whose message quotes it, is thrown
    on. *)
Lemma root_without_object_shape_is_not_absent :
  ~ (forall fuel env h input,
        tryZod4NativeCompat fuel env h input = Some (Returns None) ->
        is_object h (readShape h input) = false ->
        zodJsonSchemaCompat fuel env h input = Some (Returns None)) /\
  (forall fuel env,
      tryZod4NativeCompat fuel env throwing_accessor_v3 (VObj 2) = Some (Returns None) /\
      zodJsonSchemaCompat fuel env throwing_accessor_v3 (VObj 2) = None) /\
  ~ (forall fuel env h input,
        (forall a, input <> VObj a) ->
        zodJsonSchemaCompat fuel env h input = Some (Returns None)).
Proof.
  split; [|split].
  - intros H.
    specialize (H 1 ZodMissing number_shape_v3 (VObj 2) eq_refl eq_refl). discriminate.
  - intros fuel env. split; reflexivity.
  - intros H.
    assert (P : forall a, VStr "[@openai/agents]" <> VObj a) by discriminate.
    specialize (H 0 ZodMissing [] (VStr "[@openai/agents]") P). discriminate.
Qed.

(** C10 (amended): once the delegate has handed over to the manual path,
    a root for which [readShape] returns nothing (a non-object value,
    [null], an object without shape, an object that holds a shape function
    which throws when called, and in general any root for which
    [readShape] returns, and returns a falsy value) makes
    [zodJsonSchemaCompat] return [undefined]; a primitive root that is no
    string containing the tag of the module reaches the manual path and
    yields [undefined]; and whatever document the entry point returns has
    [type] "object". *)
Theorem root_without_shape_is_absent fuel env h input :
  (tryZod4NativeCompat fuel env h input = Some (Returns None) ->
   no_shape h input ->
   zodJsonSchemaCompat fuel env h input = Some (Returns None)) /\
  ((forall a, input <> VObj a) ->
   (forall s, input = VStr s -> includes ERROR_TAG s = false) ->
   tryZod4NativeCompat fuel env h input = Some (Returns None) /\
   zodJsonSchemaCompat fuel env h input = Some (Returns None)) /\
  (forall doc,
      zodJsonSchemaCompat fuel env h input = Some (Returns (Some doc)) ->
      document_type doc = VStr "object").
Proof.
  split; [|split].
  - intros N S. apply no_shape_falsy_shape in S. destruct S as (O & T).
    unfold zodJsonSchemaCompat. rewrite N. cbn [bind].
    unfold manual_buildObjectSchema, buildObjectSchema, readShape_throws.
    now rewrite O, T.
  - intros P U. split.
    + unfold tryZod4NativeCompat, tryZod4NativeCompat_try.
      assert (Z : js_in h "_zod" input = None) by (destruct input; auto; now destruct (P a)).
      rewrite Z. cbn [bind].
      now rewrite in_type_error_tagged, (display_untagged input U).
    + rewrite (primitive_root_outcome fuel env h input P).
      now rewrite (display_untagged input U).
  - intros doc E. destruct doc as [out jsonSchema | schema].
    + unfold zodJsonSchemaCompat in E. bind_inv E.
      destruct x as [[native|]|message]; try discriminate.
      * inv E. apply tryZod4NativeCompat_document in E0.
        destruct E0 as (out' & js' & Q & S). inv Q.
        unfold hasJsonSchemaObjectShape in S.
        repeat (apply andb_true_iff in S; destruct S as [S ?]).
        simpl. now apply value_eqb_eq.
      * bind_inv E. destruct x; discriminate.
    + apply manual_document_shape_type in E. simpl. now rewrite E.
Qed.

Lemma root_without_shape_is_absent_witness :
  zodJsonSchemaCompat 1 ZodMissing throwing_shape (VObj 2) = Some (Returns None) /\
  zodJsonSchemaCompat 1 ZodMissing throwing_shape (VObj 0) = Some (Returns None) /\
  zodJsonSchemaCompat 1 ZodMissing throwing_shape VNull = Some (Returns None) /\
  zodJsonSchemaCompat 1 ZodMissing throwing_shape (VNum 5) = Some (Returns None).
Proof.
  split; [|split; [|split]].
  - destruct (root_without_shape_is_absent 1 ZodMissing throwing_shape (VObj 2)) as (A & _).
    apply A; [reflexivity | apply no_shape_function_throws; reflexivity].
  - destruct (root_without_shape_is_absent 1 ZodMissing throwing_shape (VObj 0)) as (A & _).
    apply A; [reflexivity | apply no_shape_not_object; reflexivity].
  - destruct (root_without_shape_is_absent 1 ZodMissing throwing_shape VNull) as (A & _).
    apply A; [reflexivity | apply no_shape_not_object; reflexivity].
  - destruct (root_without_shape_is_absent 1 ZodMissing throwing_shape (VNum 5))
      as (_ & B & _).
    apply B; [discriminate | intros s Q; discriminate Q].
Defined.

(* ------------------------------------------------------------------ *)
(** ** Tuples and unions *)

Lemma mapM_Forall2 {A B : Type} (f : A -> option B) (l : list A) :
  forall rs, mapM f l = Some rs -> Forall2 (fun x r => f x = Some r) l rs.
Proof.
  induction l as [|x l IH]; simpl; intros rs E.
  - inv E. constructor.
  - bind_inv E. bind_inv E. inv E. constructor; auto.
Qed.

Lemma filter_defined_all {A : Type} (rs : list (option A)) :
  Forall (fun r => r <> None) rs -> map Some (filter_defined rs) = rs.
Proof.
  induction 1 as [|[x|] rs N F IH]; simpl; try congruence.
Qed.

(** C6: the entry of a tuple node that converts has [type] "array"; its
    [items] are the conversions of the positional items that yielded a
    schema, in their order; [minItems] is the length of [items]; and
    [maxItems] is present, with that same value, exactly when the
    definition holds no rest element. *)
Theorem tuple_entry_shape n h node u e :
  unwrapDecorators n h node = Some u ->
  readZodType h u = Some "tuple" ->
  convertSchema (S n) h node = Some (Some e) ->
  let def := readZodDefinition h u in
  exists results items,
    Forall2 (fun item r => convertSchema n h item = Some r)
            (coerceArray h (get h def "items")) results /\
    items = filter_defined results /\
    (Forall (fun r => r <> None) results -> map Some items = results) /\
    items <> [] /\
    entry_type e = Some "array" /\
    e = JTuple items (length items)
          (if truthy (get h def "rest") then None else Some (length items)).
Proof.
  intros U T E def. cbn [convertSchema] in E. unfold convertSchema_body in E.
  destruct (is_undefined node); [discriminate|].
  rewrite U in E. cbn [bind] in E. rewrite T in E.
  change (buildTupleSchema h (convertSchema n h) (readZodDefinition h u) = Some (Some e)) in E.
  unfold buildTupleSchema in E. bind_inv E.
  exists x, (filter_defined x).
  split; [now apply mapM_Forall2|]. split; [reflexivity|].
  split; [apply filter_defined_all|].
  destruct (filter_defined x) eqn:F; [discriminate|].
  inv E. split; [discriminate|]. split; reflexivity.
Qed.

Lemma tuple_entry_shape_witness :
  convertSchema 3 tuples_v3 (VObj 6) =
    Some (Some (JTuple [JType "string"; JType "number"] 2 (Some 2))) /\
  exists results items,
    Forall2 (fun item r => convertSchema 2 tuples_v3 item = Some r)
            [VObj 1; VObj 3] results /\
    items = filter_defined results /\
    JTuple [JType "string"; JType "number"] 2 (Some 2) =
      JTuple items (length items) (Some (length items)).
Proof.
  split; [reflexivity|].
  destruct (tuple_entry_shape 2 tuples_v3 (VObj 6) (VObj 6)
              (JTuple [JType "string"; JType "number"] 2 (Some 2))
              eq_refl eq_refl eq_refl) as (results & items & F & I & _ & _ & _ & E).
  exists results, items. repeat split; assumption.
Defined.

(** C5 fails on the code: the builders filter failed conversions out
    instead of failing.  The item of kind [any] converts to nothing, yet
    the tuple [[string, any]] converts to a one-item tuple and the union
    [string | any] to a one-option union. *)
Theorem tuple_and_union_drop_failing_children :
  convertSchema 3 tuples_v3 (VObj 8) = Some None /\
  convertSchema 3 tuples_v3 (VObj 11) = Some (Some (JTuple [JType "string"] 1 (Some 1))) /\
  convertSchema 3 tuples_v3 (VObj 13) = Some (Some (JAnyOf [JType "string"])).
Proof. repeat split. Qed.

(* ------------------------------------------------------------------ *)
(** ** The error message *)

Lemma error_message_tagged (found : list Diagnostic) :
  includes ERROR_TAG (error_message found) = true.
Proof. unfold error_message. apply includes_prefix, prefix_append. Qed.

Lemma error_message_header (found : list Diagnostic) :
  includes "Cannot convert Zod 4 schema to JSON Schema" (error_message found) = true.
Proof.
  unfold error_message. apply includes_append_l, includes_append_r. reflexivity.
Qed.

Lemma error_message_fix (found : list Diagnostic) (d : Diagnostic) :
  In d found -> includes (fix_for d) (error_message found) = true.
Proof.
  intros I. unfold error_message.
  do 9 apply includes_append_l. apply includes_append_r.
  apply includes_join. now apply in_map.
Qed.

Lemma check_all_kinds chk (P : Diagnostic -> Prop) children :
  (forall v p ds, chk v p = Some ds -> Forall P ds) ->
  forall found, check_all chk children = Some found -> Forall P found.
Proof.
  intros H. induction children as [|[p v] children IH]; intros found E; cbn [check_all] in E.
  - inv E. constructor.
  - bind_inv E. bind_inv E. inv E. apply Forall_app. split; eauto.
Qed.

Lemma check_kinds (fuel : nat) (h : heap) :
  forall v p found,
    check fuel h v p = Some found ->
    Forall (fun d => In (diag_type d) (unrepresentableTypes ++ ["lazy"])%list) found.
Proof.
  induction fuel as [|fuel IH]; intros v p found E; [discriminate|].
  cbn [check] in E. rewrite check_body_spec in E.
  destruct (reported h v) as [k|] eqn:R.
  - inv E. constructor; [|constructor]. cbn [diag_type].
    apply reported_cases in R. destruct R as (_ & [[_ I]|[_ ->]]).
    + apply in_or_app. now left.
    + apply in_or_app. right. now left.
  - destruct (scan_fails h v); [discriminate|].
    eapply check_all_kinds; [|exact E]. intros; eapply IH; eauto.
Qed.

(* ------------------------------------------------------------------ *)
(** ** The delegate *)

Lemma length_positive {A : Type} (l : list A) : Nat.ltb 0 (length l) = true <-> l <> [].
Proof.
  destruct l; simpl; split; try congruence; try discriminate; auto.
Qed.

Lemma tryZod4NativeCompat_fatal fuel env h input found :
  js_in h "_zod" input = Some true ->
  findUnrepresentableTypes fuel h input = Some found ->
  found <> [] ->
  tryZod4NativeCompat fuel env h input = Some (Throws (error_message found)).
Proof.
  intros Z S N. unfold tryZod4NativeCompat, tryZod4NativeCompat_try.
  rewrite Z, S. cbn [bind]. apply length_positive in N. rewrite N. cbn [bind].
  now rewrite error_message_tagged.
Qed.

Lemma advice_classes (kind : string) :
  In kind (unrepresentableTypes ++ ["lazy"])%list ->
  In kind replaced_kinds /\ String.prefix "Replace z." (advice kind) = true \/
  In kind removed_kinds /\ String.prefix "Remove z." (advice kind) = true \/
  kind = "lazy" /\ String.prefix "Lazy/recursive types" (advice kind) = true.
Proof.
  intros I. simpl in I.
  repeat (destruct I as [<-|I];
          [first [ left; split; [simpl; tauto | reflexivity]
                 | right; left; split; [simpl; tauto | reflexivity]
                 | right; right; split; reflexivity ] |]).
  contradiction.
Qed.

Lemma promise_message_has_no_replacement :
  zodJsonSchemaCompat 3 ZodMissing promise_v4 (VObj 9) =
    Some (Throws (error_message [MkDiagnostic "promise" "$.later"])) /\
  includes "Replace" (error_message [MkDiagnostic "promise" "$.later"]) = false /\
  includes "Example" (error_message [MkDiagnostic "promise" "$.later"]) = false.
Proof. split; [|split]; vm_compute; reflexivity. Qed.

(** C2, as stated, fails for the kinds the message asks to remove: the
    only bullet of the error raised for a promise field names the path but
    proposes no replacement and gives no example. *)
Lemma promise_bullet_has_no_replacement :
  ~ (forall message,
        zodJsonSchemaCompat 3 ZodMissing promise_v4 (VObj 9) = Some (Throws message) ->
        includes "Replace" message = true \/ includes "Example" message = true).
Proof.
  intros H. destruct promise_message_has_no_replacement as (E & R & X).
  destruct (H _ E); congruence.
Qed.

(** C2 (amended): when the input is of the newer representation and the
    scanner finds something, the delegate, and with it the entry point,
    raises the fatal error; the message contains the header and, for each
    diagnostic, a bullet that names its path, followed by the advice for
    its kind: a replacement for set, map, date, symbol, undefined, void,
    nan and custom (for a set, "Replace z.set(T) with z.array(T)"), the
    request to remove it for promise and function, and the hint to flatten
    the structure for lazy. *)
Theorem unrepresentable_kinds_are_fatal fuel env h input found :
  js_in h "_zod" input = Some true ->
  findUnrepresentableTypes fuel h input = Some found ->
  found <> [] ->
  tryZod4NativeCompat fuel env h input = Some (Throws (error_message found)) /\
  zodJsonSchemaCompat fuel env h input = Some (Throws (error_message found)) /\
  includes "Cannot convert Zod 4 schema to JSON Schema" (error_message found) = true /\
  forall d, In d found ->
    includes (bullet (diag_path d) ++ advice (diag_type d)) (error_message found) = true /\
    (In (diag_type d) replaced_kinds /\
       String.prefix "Replace z." (advice (diag_type d)) = true \/
     In (diag_type d) removed_kinds /\
       String.prefix "Remove z." (advice (diag_type d)) = true \/
     diag_type d = "lazy" /\
       String.prefix "Lazy/recursive types" (advice (diag_type d)) = true) /\
    (diag_type d = "set" ->
     includes (bullet (diag_path d) ++ "Replace z.set(T) with z.array(T)")
              (error_message found) = true).
Proof.
  intros Z S N.
  pose proof (tryZod4NativeCompat_fatal fuel env h input found Z S N) as T.
  split; [exact T|].
  split; [unfold zodJsonSchemaCompat; now rewrite T|].
  split; [apply error_message_header|].
  intros d I.
  split; [now apply error_message_fix|].
  split.
  - apply advice_classes.
    pose proof (check_kinds fuel h input "$" found S) as K.
    rewrite Forall_forall in K. now apply K.
  - intros K. apply includes_trans with (b := fix_for d); [|now apply error_message_fix].
    unfold fix_for. rewrite K.
    change (advice "set") with
      ("Replace z.set(T) with z.array(T)" ++
       (nl ++ "    Example: z.set(z.string()) → z.array(z.string())" ++ nl ++
        "    If uniqueness matters, add validation: .refine(arr => new Set(arr).size === arr.length, 'Must be unique')")).
    rewrite <- append_assoc. apply includes_append_r, includes_self.
Qed.

Lemma unrepresentable_kinds_are_fatal_witness :
  findUnrepresentableTypes 3 set_v4 (VObj 9) = Some [MkDiagnostic "set" "$.tags"] /\
  zodJsonSchemaCompat 3 ZodMissing set_v4 (VObj 9) =
    Some (Throws (error_message [MkDiagnostic "set" "$.tags"])) /\
  includes "  • $.tags: Replace z.set(T) with z.array(T)"
           (error_message [MkDiagnostic "set" "$.tags"]) = true.
Proof.
  assert (S : findUnrepresentableTypes 3 set_v4 (VObj 9) = Some [MkDiagnostic "set" "$.tags"])
    by reflexivity.
  destruct (unrepresentable_kinds_are_fatal 3 ZodMissing set_v4 (VObj 9)
              [MkDiagnostic "set" "$.tags"] eq_refl S ltac:(discriminate))
    as (_ & E & _ & B).
  split; [exact S|]. split; [exact E|].
  destruct (B (MkDiagnostic "set" "$.tags") (or_introl eq_refl)) as (_ & _ & R).
  exact (R eq_refl).
Defined.


(* ------------------------------------------------------------------ *)
(** ** The scan completes on heaps without cycles *)



Section ScanTotal.

Variable h : heap.
Hypothesis W : heap_wf h = true.





End ScanTotal.

Lemma check_all_each chk children found :
  check_all chk children = Some found ->
  forall s c, In (s, c) children -> exists ds, chk c s = Some ds.
Proof.
  revert found. induction children as [|[s c] children IH]; intros found E s' c' I;
    [contradiction|].
  cbn [check_all] in E. bind_inv E. bind_inv E.
  destruct I as [I|I]; [inv I; eauto | eapply IH; eauto].
Qed.

Lemma check_completes_depth (h : heap) (fuel : nat) :
  forall v p found, check fuel h v p = Some found -> scan_depth fuel h v = true.
Proof.
  induction fuel as [|fuel IH]; intros v p found E; [discriminate|].
  cbn [check] in E. rewrite check_body_spec in E. cbn [scan_depth].
  destruct (reported h v) as [k|] eqn:R.
  - now rewrite (reported_scan_fails _ _ _ R), (reported_no_children _ _ _ R).
  - destruct (scan_fails h v); [discriminate|]. cbn [negb andb].
    apply forallb_forall. intros [s c] I.
    destruct (check_all_each _ _ _ E (p ++ s) c) as (ds & C).
    { apply in_map_iff. exists (s, c). auto. }
    eapply IH; eauto.
Qed.

(** A scan ends with an error exactly when the tree is deeper than the
    stack allows, or the shape of one of its object nodes cannot be read. *)
Lemma scan_error_iff (fuel : nat) (h : heap) (input : value) :
  findUnrepresentableTypes fuel h input = None <-> scan_depth fuel h input = false.
Proof.
  unfold findUnrepresentableTypes. split.
  - intros E. destruct (scan_depth fuel h input) eqn:D; auto.
    destruct (check_scan_correct h fuel input "$" D) as (found & C & _). congruence.
  - intros D. destruct (check fuel h input "$") as [found|] eqn:C; auto.
    apply check_completes_depth in C. congruence.
Qed.

(** A completed scan finds something exactly when the tree contains a
    node of an unrepresentable kind or a lazy node. *)
Lemma scan_finds_iff_contains (fuel : nat) (h : heap) (input : value) found :
  findUnrepresentableTypes fuel h input = Some found ->
  scans h input "$" found /\ (found <> [] <-> contains_unrepresentable h input).
Proof.
  unfold findUnrepresentableTypes. intros E.
  pose proof (check_completes_depth h fuel input "$" found E) as D.
  destruct (check_scan_correct h fuel input "$" D) as (found' & E' & S & M).
  rewrite E in E'. inv E'. split; [exact S|]. split.
  - intros N. destruct found' as [|[kind q] found']; [contradiction|].
    destruct (proj1 (M kind q) (or_introl eq_refl)) as (w & C & R).
    exists w, q, kind. auto.
  - intros (w & q & kind & C & R) ->.
    apply (proj2 (M kind q)). eauto.
Qed.


(** The scan of the tree with the cyclic key type never completes: for
    no depth is the tree that shallow. *)
Lemma key_cycle_depth (d : nat) :
  scan_depth d key_cycle_v4 (VObj 12) = false /\ scan_depth d key_cycle_v4 (VObj 8) = false.
Proof.
  induction d as [|d [IH1 IH2]]; [split; reflexivity|].
  split; cbn [scan_depth].
  - change (scan_children key_cycle_v4 (VObj 12))
      with [(".tags", VObj 5); (".index", VObj 8)].
    cbn [forallb snd]. rewrite IH2. now rewrite !andb_false_r.
  - change (scan_children key_cycle_v4 (VObj 8))
      with [("<values>", VObj 2); ("<keys>", VObj 12)].
    cbn [forallb snd]. rewrite IH1. now rewrite !andb_false_r.
Qed.

Lemma key_cycle_returns_document (fuel : nat) :
  3 <= fuel ->
  zodJsonSchemaCompat fuel ZodMissing key_cycle_v4 (VObj 12) =
  Some (Returns (Some (ManualSchema
    (MkObjectSchema "object"
       [("tags", JUniqueArray (JType "string")); ("index", JRecord (JType "string"))]
       (Some ["tags"; "index"]) (Some false) (Some JSON_SCHEMA_DRAFT_07))))).
Proof.
  intros L. unfold zodJsonSchemaCompat, tryZod4NativeCompat, tryZod4NativeCompat_try.
  change (js_in key_cycle_v4 "_zod" (VObj 12)) with (Some true).
  rewrite (proj2 (scan_error_iff fuel key_cycle_v4 (VObj 12)) (proj1 (key_cycle_depth fuel))).
  change (includes ERROR_TAG STACK_EXHAUSTED) with false. cbn [bind].
  rewrite (manual_buildObjectSchema_mono key_cycle_v4 3 fuel L (VObj 12) _ eq_refl).
  reflexivity.
Qed.


(** The object that is its own field never converts: the manual
    converter descends into the field without end. *)
Lemma self_field_never_converts (fuel : nat) :
  convertSchema fuel self_field_v4 (VObj 3) = None.
Proof.
  induction fuel as [|fuel IH]; [reflexivity|].
  cbn [convertSchema]. unfold convertSchema_body.
  change (is_undefined (VObj 3)) with false. cbn iota.
  rewrite unwrapDecorators_unfold.
  change (decorator_next self_field_v4 (VObj 3)) with (@None value). cbn [bind].
  change (readZodType self_field_v4 (VObj 3)) with (Some "object").
  change (dispatch fuel self_field_v4 (convertSchema fuel self_field_v4) "object" (VObj 3)
            (readZodDefinition self_field_v4 (VObj 3)) = None).
  unfold dispatch. cbn [String.eqb Ascii.eqb Bool.eqb].
  unfold buildObjectSchema.
  change (readShape_throws self_field_v4 (VObj 3)) with false.
  change (entries self_field_v4 (readShape self_field_v4 (VObj 3))) with [("self", VObj 3)].
  change (truthy (readShape self_field_v4 (VObj 3))) with true.
  cbn [buildObjectSchema_fields]. unfold convertProperty.
  rewrite unwrapDecorators_unfold.
  change (decorator_next self_field_v4 (VObj 3)) with (@None value). cbn [bind].
  assert (O : optional_loop fuel fuel self_field_v4 (VObj 3) false = Some (VObj 3, false))
    by (destruct fuel; reflexivity).
  rewrite O. cbn [bind fst snd]. rewrite IH. reflexivity.
Qed.

(** For that object the entry point does not return, however much room
    the stack has: the error that ends the scan is swallowed in the
    delegate, and the one that ends the manual conversion escapes. *)
Lemma self_field_call_never_returns (fuel : nat) (env : zod_runtime) :
  zodJsonSchemaCompat fuel env self_field_v4 (VObj 3) = None.
Proof.
  unfold zodJsonSchemaCompat, tryZod4NativeCompat, tryZod4NativeCompat_try,
    findUnrepresentableTypes.
  change (js_in self_field_v4 "_zod" (VObj 3)) with (Some true).
  rewrite self_field_never_returns.
  change (includes ERROR_TAG STACK_EXHAUSTED) with false. cbn [bind].
  unfold manual_buildObjectSchema, buildObjectSchema.
  change (readShape_throws self_field_v4 (VObj 3)) with false.
  change (entries self_field_v4 (readShape self_field_v4 (VObj 3))) with [("self", VObj 3)].
  change (truthy (readShape self_field_v4 (VObj 3))) with true.
  cbn [buildObjectSchema_fields]. unfold convertProperty.
  rewrite unwrapDecorators_unfold.
  change (decorator_next self_field_v4 (VObj 3)) with (@None value). cbn [bind].
  assert (O : optional_loop fuel fuel self_field_v4 (VObj 3) false = Some (VObj 3, false))
    by (destruct fuel; reflexivity).
  rewrite O. cbn [bind fst snd]. now rewrite self_field_never_converts.
Qed.





(* ================================================================== *)
(** * Further properties of the converter *)

(* ------------------------------------------------------------------ *)
(** ** extractFirst *)

Lemma assoc_has (key : string) (ps : list (string * value)) :
  assoc key ps <> VUndefined -> has_assoc key ps = true.
Proof.
  induction ps as [|[k v] ps IH]; simpl; [congruence|].
  destruct (String.eqb k key); simpl; auto.
Qed.

Lemma get_defined_in (h : heap) (def : value) (key : string) :
  get h def key <> VUndefined -> js_in h key def = Some true.
Proof.
  unfold get, js_in, deref. destruct def; try congruence.
  destruct (nth_error h a) as [[ps|es|r|ps]|]; try congruence;
    intros N; f_equal; try now apply assoc_has.
  now rewrite (assoc_has key ps N).
Qed.

Lemma get_falsy (h : heap) (def : value) (key : string) :
  truthy def = false -> get h def key = VUndefined.
Proof. destruct def; simpl; try discriminate; reflexivity. Qed.

Lemma is_undefined_iff (v : value) : is_undefined v = true <-> v = VUndefined.
Proof. destruct v; simpl; split; congruence. Qed.

Lemma extractFirst_falsy (h : heap) (def : value) (keys : list string) :
  truthy def = false -> extractFirst h def keys = VUndefined.
Proof. intros T. destruct keys; cbn [extractFirst]; now rewrite T. Qed.

Lemma first_defined_falsy (h : heap) (def : value) (keys : list string) :
  truthy def = false -> first_defined (map (get h def) keys) = VUndefined.
Proof.
  intros T. induction keys as [|key keys IH]; cbn [map first_defined]; auto.
  now rewrite (get_falsy h def key T).
Qed.

Lemma extractFirst_first_defined (h : heap) (def : value) (keys : list string) :
  extractFirst h def keys = first_defined (map (get h def) keys).
Proof.
  destruct (truthy def) eqn:T;
    [|now rewrite extractFirst_falsy, first_defined_falsy].
  induction keys as [|key keys IH]; cbn [extractFirst map first_defined]; rewrite T; auto.
  destruct (is_undefined (get h def key)) eqn:U.
  - rewrite <- IH. destruct (js_in h key def) as [[|]|]; reflexivity.
  - assert (N : get h def key <> VUndefined).
    { intros E. apply is_undefined_iff in E. congruence. }
    now rewrite (get_defined_in h def key N).
Qed.

(** X1. [extractFirst] returns the value under the first key whose value
    is not [undefined], a [null] counting as a value, and [undefined] when
    there is no such key; the test [key in def] never changes the result. *)
Theorem extractFirst_first_key (h : heap) (def : value) (keys : list string) :
  (extractFirst h def keys = VUndefined <->
   forall key, In key keys -> get h def key = VUndefined) /\
  (forall pre key post,
      keys = (pre ++ key :: post)%list ->
      (forall k, In k pre -> get h def k = VUndefined) ->
      get h def key <> VUndefined ->
      extractFirst h def keys = get h def key).
Proof.
  rewrite extractFirst_first_defined. split.
  - induction keys as [|key keys IH]; cbn [map first_defined].
    + split; [intros _ key [] | reflexivity].
    + destruct (is_undefined (get h def key)) eqn:U.
      * apply is_undefined_iff in U. rewrite IH. split.
        -- intros A k [<-|I]; auto.
        -- intros A k I. apply A. now right.
      * split.
        -- intros E. rewrite E in U. discriminate.
        -- intros A. rewrite (A key (or_introl eq_refl)) in U. discriminate.
  - intros pre key post -> A N. induction pre as [|k pre IH]; cbn [app map first_defined].
    + destruct (is_undefined (get h def key)) eqn:U; auto.
      apply is_undefined_iff in U. congruence.
    + rewrite (A k (or_introl eq_refl)). cbn [is_undefined].
      apply IH. intros k' I. apply A. now right.
Qed.

Lemma extractFirst_first_key_witness :
  extractFirst arrays_v3 (VObj 6) ["element"; "items"; "type"] = VObj 5.
Proof.
  destruct (extractFirst_first_key arrays_v3 (VObj 6) ["element"; "items"; "type"])
    as (_ & F).
  apply (F ["element"; "items"] "type" []).
  - reflexivity.
  - intros k [<-|[<-|[]]]; reflexivity.
  - discriminate.
Defined.

(* ------------------------------------------------------------------ *)
(** ** Decorators are transparent *)

Lemma decorator_next_truthy (h : heap) (v next : value) :
  decorator_next h v = Some next -> truthy next = true /\ is_object h v = true.
Proof.
  unfold decorator_next, is_decorator, kind_or_empty.
  destruct (readZodType h v) as [t|] eqn:T; [|discriminate].
  destruct (mem_string t DECORATOR_WRAPPERS); [|discriminate].
  destruct (truthy (decorator_inner h v)) eqn:N; [|discriminate].
  destruct (value_eqb (decorator_inner h v) v); [discriminate|].
  intros E. inv E. split; auto. eapply readZodType_is_object; eauto.
Qed.

Lemma decorator_chain_defined (h : heap) (v w : value) (k : nat) :
  decorator_chain h v (S k) w -> is_undefined v = false /\ is_undefined w = false.
Proof.
  intros C. remember (S k) as n eqn:N. revert k N.
  induction C as [v E | v next n w E C IH]; intros k N; [discriminate|].
  apply decorator_next_truthy in E. destruct E as (T & O).
  split; [destruct v; simpl in *; congruence|].
  destruct n as [|n].
  - inv C. destruct w; simpl in *; congruence.
  - now destruct (IH n eq_refl).
Qed.

(** X2. Decorators are transparent to the manual converter: a node wrapped
    in any finite chain of decorators converts to exactly what the node at
    the end of the chain converts to. *)
Theorem convertSchema_through_decorators (h : heap) (v w : value) (k fuel : nat) :
  decorator_chain h v k w ->
  k <= fuel ->
  convertSchema (S fuel) h v = convertSchema (S fuel) h w.
Proof.
  intros C L. destruct k as [|k]; [now inv C|].
  destruct (decorator_chain_defined h v w k C) as (Uv & Uw).
  cbn [convertSchema]. unfold convertSchema_body. rewrite Uv, Uw.
  rewrite (decorator_chain_unwrap _ _ _ _ C fuel L).
  rewrite (unwrapDecorators_unfold fuel h w), (decorator_chain_end _ _ _ _ C).
  reflexivity.
Qed.

Lemma convertSchema_through_decorators_witness :
  convertSchema 3 wrapped_heap (VObj 5) = convertSchema 3 wrapped_heap (VObj 1) /\
  convertSchema 3 wrapped_heap (VObj 1) = Some (Some (JType "string")).
Proof.
  split; [|reflexivity].
  apply (convertSchema_through_decorators wrapped_heap (VObj 5) (VObj 1) 2 2); [|lia].
  apply chain_hop with (next := VObj 3); [reflexivity|].
  apply chain_hop with (next := VObj 1); [reflexivity|].
  apply chain_stop. reflexivity.
Defined.

Lemma or_chain_coalesce (a b c d e f : value) :
  truthy (js_coalesce a (js_coalesce b (js_coalesce c (js_coalesce d (js_coalesce e f))))) = true ->
  js_or a (js_or b (js_or c (js_or d (js_or e f)))) =
  js_coalesce a (js_coalesce b (js_coalesce c (js_coalesce d (js_coalesce e f)))).
Proof.
  unfold js_or, js_coalesce.
  destruct a; cbn [nullish truthy]; intros H; try (rewrite H; reflexivity); try reflexivity;
    destruct b; cbn [nullish truthy] in *; try (rewrite H; reflexivity); try reflexivity;
    destruct c; cbn [nullish truthy] in *; try (rewrite H; reflexivity); try reflexivity;
    destruct d; cbn [nullish truthy] in *; try (rewrite H; reflexivity); try reflexivity;
    destruct e; cbn [nullish truthy] in *; try (rewrite H; reflexivity); try reflexivity.
Qed.

Lemma decorator_kind_children (h : heap) (t : string) (v def : value) :
  mem_string t DECORATOR_WRAPPERS = true ->
  mem_string t unrepresentableTypes = false /\
  String.eqb t "lazy" = false /\
  structural_children h t v def =
  check_if
    (js_or (get h def "innerType")
       (js_or (get h def "schema")
          (js_or (get h def "base")
             (js_or (get h def "type")
                (js_or (get h def "wrapped") (get h def "underlying"))))))
    EmptyString.
Proof.
  intros M. unfold mem_string in M. apply existsb_exists in M.
  destruct M as (x & I & E). apply String.eqb_eq in E. subst x.
  unfold DECORATOR_WRAPPERS in I. simpl in I.
  repeat (destruct I as [<-|I]; [repeat split|]); contradiction.
Qed.

Lemma decorator_next_children (h : heap) (v next : value) :
  decorator_next h v = Some next ->
  reported h v = None /\ scan_children h v = [(EmptyString, next)].
Proof.
  intros E. pose proof (decorator_next_truthy h v next E) as (T & O).
  unfold decorator_next, is_decorator, kind_or_empty in E.
  destruct (readZodType h v) as [t|] eqn:K; [|discriminate].
  destruct (mem_string t DECORATOR_WRAPPERS) eqn:M; [|discriminate].
  destruct (negb (truthy (decorator_inner h v)) || value_eqb (decorator_inner h v) v);
    [discriminate|].
  inv E. destruct (decorator_kind_children h t v (readZodDefinition h v) M) as (U & Z & S).
  assert (R : reported h v = None).
  { unfold reported. now rewrite O, K, U, Z. }
  split; [exact R|].
  unfold scan_children. rewrite R, K, S.
  unfold decorator_inner in *. rewrite (or_chain_coalesce _ _ _ _ _ _ T).
  unfold check_if. now rewrite T.
Qed.

Lemma decorator_next_scan_fails (h : heap) (v next : value) :
  decorator_next h v = Some next -> scan_fails h v = false.
Proof.
  unfold decorator_next, is_decorator, kind_or_empty, scan_fails.
  destruct (readZodType h v) as [t|]; [|reflexivity].
  destruct (String.eqb t "object") eqn:E; [|reflexivity].
  apply String.eqb_eq in E. subst. discriminate.
Qed.

Lemma check_decorator_hop (h : heap) (v next : value) (fuel : nat) (p : string) :
  decorator_next h v = Some next ->
  check (S fuel) h v p = check fuel h next p.
Proof.
  intros E. destruct (decorator_next_children h v next E) as (R & S).
  cbn [check]. rewrite check_body_spec, R, S, (decorator_next_scan_fails h v next E).
  cbn [map extend fst snd check_all]. rewrite append_empty_r.
  destruct (check fuel h next p) as [ds|]; cbn [bind]; [|reflexivity].
  now rewrite app_nil_r.
Qed.

(** X3. Decorators are transparent to the scanner: scanning a node wrapped
    in a finite chain of decorators yields the diagnostics of the node at
    the end of the chain, with the same paths; each wrapper costs one level
    of recursion. *)
Theorem check_through_decorators (h : heap) (v w : value) (k : nat) :
  decorator_chain h v k w ->
  forall fuel p, check (k + fuel) h v p = check fuel h w p.
Proof.
  induction 1 as [v E | v next k w E C IH]; intros fuel p; [reflexivity|].
  cbn [Nat.add]. rewrite (check_decorator_hop h v next (k + fuel) p E). apply IH.
Qed.

Lemma check_through_decorators_witness :
  check 3 decorated_set_v4 (VObj 11) "$.tags" = check 1 decorated_set_v4 (VObj 5) "$.tags" /\
  check 1 decorated_set_v4 (VObj 5) "$.tags" = Some [MkDiagnostic "set" "$.tags"].
Proof.
  split; [|reflexivity].
  apply (check_through_decorators decorated_set_v4 (VObj 11) (VObj 5) 2).
  apply chain_hop with (next := VObj 8); [reflexivity|].
  apply chain_hop with (next := VObj 5); [reflexivity|].
  apply chain_stop. reflexivity.
Defined.

(* ------------------------------------------------------------------ *)
(** ** Builders with a single child *)

Lemma unwrapped_kind_defined (n : nat) (h : heap) (node u : value) (kind : string) :
  unwrapDecorators n h node = Some u ->
  readZodType h u = Some kind ->
  is_undefined node = false.
Proof.
  intros U K. destruct node; try reflexivity.
  rewrite unwrapDecorators_unfold in U. cbn in U. inv U. discriminate.
Qed.

(** X4. The array, record, map, set and nullable builders convert one
    child and wrap its entry; when the child yields no schema, or the
    definition holds no child at all, the node yields none either.  The
    child of an array is the first of [element], [items], [type] that is
    defined; a record and a map convert their value type only (the key type
    is never looked at), and a map becomes a plain array of its values. *)
Theorem single_child_builder (n : nat) (h : heap) (node u : value) (kind : string) :
  unwrapDecorators n h node = Some u ->
  readZodType h u = Some kind ->
  In kind single_child_kinds ->
  (forall r,
      convertSchema n h (single_child h kind (readZodDefinition h u)) = Some r ->
      convertSchema (S n) h node = Some (option_map (single_wrapper kind) r)) /\
  (single_child h kind (readZodDefinition h u) = VUndefined ->
   1 <= n ->
   convertSchema (S n) h node = Some None).
Proof.
  intros U K I.
  assert (A : forall r,
             convertSchema n h (single_child h kind (readZodDefinition h u)) = Some r ->
             convertSchema (S n) h node = Some (option_map (single_wrapper kind) r)).
  { intros r E.
    pose proof (unwrapped_kind_defined n h node u kind U K) as D.
    cbn [convertSchema]. unfold convertSchema_body. rewrite D, U. cbn [bind]. rewrite K.
    unfold single_child_kinds in I. simpl in I.
    destruct I as [<-|[<-|[<-|[<-|[<-|[]]]]]];
      cbn -[convertSchema extractFirst first_defined] in E |- *;
      unfold buildArraySchema, buildRecordSchema, buildMapSchema, buildSetSchema,
        buildNullableSchema;
      rewrite ?extractFirst_first_defined; cbn [map];
      rewrite E; reflexivity. }
  split; [exact A|].
  intros E L. apply (A None). rewrite E.
  destruct n as [|n]; [lia | reflexivity].
Qed.

Lemma single_child_builder_witness :
  convertSchema 3 arrays_v3 (VObj 3) = Some (Some (JArray (JType "string"))) /\
  convertSchema 3 arrays_v3 (VObj 7) = Some None.
Proof.
  split.
  - destruct (single_child_builder 2 arrays_v3 (VObj 3) (VObj 3) "array" eq_refl eq_refl)
      as (A & _); [simpl; auto|].
    apply (A (Some (JType "string"))). reflexivity.
  - destruct (single_child_builder 2 arrays_v3 (VObj 7) (VObj 7) "array" eq_refl eq_refl)
      as (A & _); [simpl; auto|].
    apply (A None). reflexivity.
Defined.

(* ------------------------------------------------------------------ *)
(** ** The properties of an object schema *)

Lemma define_property_fresh {A : Type} (key : string) (x : A) (ps : list (string * A)) :
  ~ In key (map fst ps) -> define_property key x ps = (ps ++ [(key, x)])%list.
Proof.
  induction ps as [|[k y] ps IH]; simpl; intros N; auto.
  destruct (String.eqb k key) eqn:E.
  - apply String.eqb_eq in E. subst. exfalso. auto.
  - f_equal. apply IH. auto.
Qed.

Lemma buildObjectSchema_fields_properties n h convert (fields : list (string * value)) :
  forall properties required doc,
    NoDup (map fst fields) ->
    (forall k, In k (map fst fields) -> ~ In k (map fst properties)) ->
    buildObjectSchema_fields n h convert fields properties required = Some (Some doc) ->
    exists added,
      schema_properties doc = (properties ++ added)%list /\
      Forall2 (property_of n h convert) (property_fields fields) added.
Proof.
  induction fields as [|[key field] fields IH]; intros properties required doc N F E;
    cbn [buildObjectSchema_fields] in E.
  - inv E. exists []. rewrite app_nil_r. split; [reflexivity | constructor].
  - bind_inv E. destruct x as [[schema|] optional]; simpl in E; [|discriminate].
    inv N. unfold set_property in E. unfold property_fields. cbn [filter fst].
    destruct (String.eqb key "__proto__") eqn:P; cbn [negb].
    + apply IH in E; auto. intros k I. apply F. now right.
    + rewrite define_property_fresh in E by (apply F; now left).
      apply IH in E; auto.
      * destruct E as (added & Q & A). exists ((key, schema) :: added).
        rewrite Q, <- app_assoc. split; [reflexivity|].
        constructor; auto. split; [reflexivity|]. exists optional. exact E0.
      * intros k I J. rewrite map_app in J. apply in_app_or in J.
        destruct J as [J|[<-|[]]].
        -- apply (F k); [now right | exact J].
        -- contradiction.
Qed.

(** X5. When an object converts, its [properties] hold one entry per
    field of the shape whose name is not [__proto__], in the order in which
    the shape is enumerated, under the key of the field, and the entry is
    the schema [convertProperty] yields for that field (the keys of the
    shape being distinct, as the keys of an object are); a field named
    [__proto__] leaves no entry. *)
Theorem object_properties_follow_shape fuel h v doc :
  manual_buildObjectSchema fuel h v = Some (Some doc) ->
  NoDup (map fst (entries h (readShape h v))) ->
  let fields := property_fields (entries h (readShape h v)) in
  Forall2 (property_of fuel h (convertSchema fuel h)) fields (schema_properties doc) /\
  map fst (schema_properties doc) = map fst fields /\
  ~ In "__proto__" (map fst (schema_properties doc)).
Proof.
  intros E N fields. unfold manual_buildObjectSchema in E.
  apply buildObjectSchema_some in E. destruct E as (_ & _ & E).
  apply buildObjectSchema_fields_properties in E; auto.
  destruct E as (added & -> & F). cbn [app]. fold fields in F.
  assert (K : map fst added = map fst fields).
  { clear N. induction F as [|[k f] [k' e] fs added (K & _) F IH]; cbn [map]; auto.
    simpl in K. subst. now f_equal. }
  split; [exact F|]. split; [exact K|].
  rewrite K. intros I. apply in_map_iff in I. destruct I as ([k f] & Q & I).
  simpl in Q. subst k. unfold fields, property_fields in I.
  apply filter_In in I. destruct I as (_ & I). discriminate.
Qed.

Lemma object_properties_follow_shape_witness :
  map fst [("a", JType "string")] =
  map fst (property_fields (entries proto_key_v3 (readShape proto_key_v3 (VObj 4)))).
Proof.
  assert (E : manual_buildObjectSchema 2 proto_key_v3 (VObj 4) =
              Some (Some (MkObjectSchema "object" [("a", JType "string")]
                            (Some ["__proto__"; "a"]) (Some false) None))) by reflexivity.
  assert (N : NoDup (map fst (entries proto_key_v3 (readShape proto_key_v3 (VObj 4))))).
  { cbn. repeat constructor; simpl; intuition discriminate. }
  destruct (object_properties_follow_shape 2 proto_key_v3 (VObj 4) _ E N) as (_ & K & _).
  exact K.
Defined.

(* ------------------------------------------------------------------ *)
(** ** Every entry is well formed *)

Lemma all_of_Forall {A : Type} (P : A -> Prop) (l : list A) : all_of P l <-> Forall P l.
Proof.
  induction l as [|x l IH]; simpl; split; intros H; auto.
  - destruct H. constructor; [|apply IH]; auto.
  - inv H. split; [|apply IH]; auto.
Qed.

Lemma set_property_all_of {A : Type} (P : string * A -> Prop) key (x : A) ps :
  (forall k, P (k, x)) -> all_of P ps -> all_of P (set_property key x ps).
Proof.
  intros Px. unfold set_property. destruct (String.eqb key "__proto__"); auto.
  induction ps as [|[k y] ps IH]; simpl; intros H; auto.
  destruct H as [Hk H]. destruct (String.eqb k key); simpl; auto.
Qed.

Section WellFormed.

Variable n : nat.
Variable h : heap.
Variable convert : value -> option (option JsonSchemaDefinitionEntry).
Hypothesis convert_wf : forall v e, convert v = Some (Some e) -> entry_wf e.

Lemma mapM_convert_wf (l : list value) :
  forall rs, mapM convert l = Some rs -> all_of entry_wf (filter_defined rs).
Proof.
  induction l as [|x l IH]; simpl; intros rs E.
  - inv E. exact I.
  - bind_inv E. bind_inv E. inv E. destruct x0 as [e|]; simpl; auto.
    split; [eapply convert_wf; eauto | auto].
Qed.

Lemma buildObjectSchema_fields_all_wf (fields : list (string * value)) :
  forall properties required doc,
    all_of (fun kv => entry_wf (snd kv)) properties ->
    buildObjectSchema_fields n h convert fields properties required = Some (Some doc) ->
    all_of (fun kv => entry_wf (snd kv)) (schema_properties doc).
Proof.
  induction fields as [|[key field] fields IH]; intros properties required doc A E;
    cbn [buildObjectSchema_fields] in E.
  - now inv E.
  - bind_inv E. destruct x as [[schema|] optional]; simpl in E; [|discriminate].
    eapply IH; [|exact E].
    apply set_property_all_of; auto. intros k. simpl.
    unfold convertProperty in E0. bind_inv E0. bind_inv E0. bind_inv E0. inv E0.
    eapply convert_wf; eauto.
Qed.

Lemma buildObjectSchema_wf (v : value) (doc : LooseJsonObjectSchema) :
  buildObjectSchema n h convert v = Some (Some doc) -> schema_wf doc.
Proof.
  intros E. apply buildObjectSchema_some in E. destruct E as (_ & _ & E).
  assert (A : all_of (fun kv => entry_wf (snd kv)) (schema_properties doc)).
  { eapply buildObjectSchema_fields_all_wf; [|exact E]. exact I. }
  apply buildObjectSchema_fields_some in E.
  destruct E as (properties & req & -> & R & K). cbn [app schema_properties] in *.
  repeat split; auto.
  exists req. split; [reflexivity|]. intros key J P.
  destruct (required_fields_in _ _ _ R _ J) as (f & F & _).
  apply K. right. split; [|exact P]. apply in_map_iff. exists (key, f). auto.
Qed.

Lemma dispatch_wf (type : string) (unwrapped def : value) e :
  dispatch n h convert type unwrapped def = Some (Some e) -> entry_wf e.
Proof.
  unfold dispatch.
  repeat match goal with
         | |- context [if ?b then _ else _] => destruct b
         end; intros E; try discriminate.
  - bind_inv E. destruct x as [o|]; inv E. simpl. eapply buildObjectSchema_wf; eauto.
  - unfold buildArraySchema in E. bind_inv E. destruct x; inv E. simpl. eauto.
  - unfold buildTupleSchema in E. bind_inv E.
    pose proof (mapM_convert_wf _ _ E0) as A.
    destruct (filter_defined x) as [|i items] eqn:F; inv E.
    split; [discriminate|]. split; [reflexivity|].
    split; [destruct (truthy (get h def "rest")); auto|]. exact A.
  - unfold buildUnionSchema in E. bind_inv E.
    pose proof (mapM_convert_wf _ _ E0) as A.
    destruct (filter_defined x) as [|i items] eqn:F; inv E.
    split; [discriminate | exact A].
  - unfold buildIntersectionSchema in E. bind_inv E. bind_inv E.
    destruct x as [l|], x0 as [r|]; inv E. simpl. repeat split; eauto.
  - injection E as E. unfold buildLiteral in E. destruct (truthy def); [|discriminate].
    remember (extractFirst h def ["value"; "literal"]) as literal eqn:L.
    destruct (is_undefined literal) eqn:U; [discriminate|].
    injection E as <-. cbn [entry_wf]. intros Q. rewrite Q in U. discriminate.
  - inv E. unfold buildEnum in H0.
    repeat match goal with
           | H : context [if ?b then _ else _] |- _ => destruct b
           end; inv H0; exact I.
  - unfold buildRecordSchema in E. bind_inv E. destruct x; inv E. simpl. eauto.
  - unfold buildMapSchema in E. bind_inv E. destruct x; inv E. simpl. eauto.
  - unfold buildSetSchema in E. bind_inv E. destruct x; inv E. simpl. eauto.
  - unfold buildNullableSchema in E. bind_inv E. destruct x; inv E. simpl.
    repeat split; eauto. discriminate.
Qed.

Lemma convertSchema_body_wf (v : value) e :
  convertSchema_body n h convert v = Some (Some e) -> entry_wf e.
Proof.
  unfold convertSchema_body. destruct (is_undefined v); [discriminate|].
  intros E. bind_inv E.
  destruct (readZodType h x) as [t|]; [|discriminate].
  destruct (String.eqb t EmptyString); [discriminate|].
  unfold SIMPLE_TYPE_MAPPING in E.
  repeat match goal with
         | H : context [if ?b then _ else _] |- _ => destruct b
         end; try (inv E; exact I).
  eapply dispatch_wf; eauto.
Qed.

End WellFormed.

Lemma convertSchema_wf (h : heap) (fuel : nat) :
  forall v e, convertSchema fuel h v = Some (Some e) -> entry_wf e.
Proof.
  induction fuel as [|fuel IH]; intros v e E; [discriminate|].
  cbn [convertSchema] in E. eapply convertSchema_body_wf; eauto.
Qed.

(** X6. Whatever the manual converter returns is well formed at every
    level of nesting: each tuple has at least one item, [minItems] equal to
    the number of items, and [maxItems], when present, equal to it too;
    each [anyOf] is non-empty and each [allOf] has two members; each
    literal has a [const] that is not [undefined]; and each object schema
    has [type] "object", [additionalProperties] false, no [$schema], and a
    [required] array whose keys, the name [__proto__] apart, all have an
    entry in [properties]. *)
Theorem converted_entries_are_well_formed fuel h v :
  (forall e, convertSchema fuel h v = Some (Some e) -> entry_wf e) /\
  (forall doc, manual_buildObjectSchema fuel h v = Some (Some doc) -> schema_wf doc).
Proof.
  split.
  - intros e. apply convertSchema_wf.
  - intros doc. unfold manual_buildObjectSchema.
    apply buildObjectSchema_wf. apply convertSchema_wf.
Qed.

Lemma converted_entries_are_well_formed_witness :
  entry_wf (JTuple [JType "string"; JType "number"] 2 (Some 2)) /\
  schema_wf (MkObjectSchema "object" [("name", JType "string"); ("age", JType "number")]
               (Some ["name"]) (Some false) None) /\
  schema_wf (MkObjectSchema "object" [("a", JType "string")]
               (Some ["__proto__"; "a"]) (Some false) None).
Proof.
  split; [|split].
  - apply (converted_entries_are_well_formed 3 tuples_v3 (VObj 6)). reflexivity.
  - apply (converted_entries_are_well_formed 2 person_v3 (VObj 9)). reflexivity.
  - apply (converted_entries_are_well_formed 2 proto_key_v3 (VObj 4)). reflexivity.
Defined.

(* ------------------------------------------------------------------ *)
(** ** Paths and depth of the scan *)

Lemma prefix_trans (a b c : string) :
  String.prefix a b = true -> String.prefix b c = true -> String.prefix a c = true.
Proof.
  intros P Q. apply prefix_split in P. destruct P as (s & ->).
  apply prefix_split in Q. destruct Q as (t & ->).
  rewrite append_assoc. apply prefix_append.
Qed.

Lemma prefix_self (a : string) : String.prefix a a = true.
Proof. rewrite <- (append_empty_r a) at 2. apply prefix_append. Qed.

Lemma check_all_paths chk (p : string) children :
  (forall s c ds, In (s, c) children -> chk c s = Some ds ->
                  Forall (fun d => String.prefix s (diag_path d) = true) ds) ->
  (forall s c, In (s, c) children -> String.prefix p s = true) ->
  forall found, check_all chk children = Some found ->
  Forall (fun d => String.prefix p (diag_path d) = true) found.
Proof.
  intros H P. induction children as [|[s c] children IH]; intros found E;
    cbn [check_all] in E.
  - inv E. constructor.
  - bind_inv E. bind_inv E. inv E. apply Forall_app. split.
    + assert (F := H s c x (or_introl eq_refl) E0).
      rewrite Forall_forall in *. intros d I.
      eapply prefix_trans; [apply (P s c); now left | now apply F].
    + apply IH; auto.
      * intros s' c' ds I. apply H. now right.
      * intros s' c' I. apply (P s' c'). now right.
Qed.

(** X7. Every diagnostic of a scan started at path [p] carries a path
    that begins with [p]: the paths reported for [findUnrepresentableTypes]
    all begin with the root marker. *)
Theorem diagnostics_extend_the_path (fuel : nat) (h : heap) :
  forall v p found,
    check fuel h v p = Some found ->
    Forall (fun d => String.prefix p (diag_path d) = true) found.
Proof.
  induction fuel as [|fuel IH]; intros v p found E; [discriminate|].
  cbn [check] in E. rewrite check_body_spec in E.
  destruct (reported h v) as [k|].
  - inv E. constructor; [apply prefix_self | constructor].
  - destruct (scan_fails h v); [discriminate|].
    eapply check_all_paths; [| |exact E].
    + intros s c ds _ C. now apply IH in C.
    + intros s c I. apply in_map_iff in I. destruct I as ([suffix c'] & Q & _).
      inv Q. apply prefix_append.
Qed.

Lemma diagnostics_extend_the_path_witness :
  Forall (fun d => String.prefix "$" (diag_path d) = true)
         [MkDiagnostic "set" "$.tags"; MkDiagnostic "lazy" "$.next"].
Proof.
  apply (diagnostics_extend_the_path 2 lazy_cycle_v4 (VObj 13) "$"). reflexivity.
Defined.

(** X8. The scanner completes within [d] nested calls exactly when the
    tree below the node is at most [d] levels deep, nodes of an
    unrepresentable kind and lazy nodes counting as leaves, and the shape
    of each of its object nodes can be read; on deeper or cyclic
    structures it does not complete. *)
Theorem scan_completes_iff_finite_depth (d : nat) (h : heap) (v : value) (p : string) :
  (exists found, check d h v p = Some found) <-> scan_depth d h v = true.
Proof.
  split.
  - intros (found & E). eapply check_completes_depth; eauto.
  - intros D. destruct (check_scan_correct h d v p D) as (found & E & _). eauto.
Qed.

(** X9. For an input of the newer representation, whenever the entry
    point returns (a document or [undefined]) instead of throwing, one of
    two things has happened.  Either the scan completed, and then it found
    nothing: no node it reaches from the root is of an unrepresentable
    kind or lazy.  Or the scan ended with an error of its own, the tree
    being deeper than the stack allows, or cyclic, or having a shape that
    cannot be read; the error is swallowed, and what is returned is what
    the manual path yields, whatever the tree contains. *)
Theorem returned_means_clean_scan fuel env h input r :
  js_in h "_zod" input = Some true ->
  zodJsonSchemaCompat fuel env h input = Some (Returns r) ->
  (scan_depth fuel h input = true ->
   findUnrepresentableTypes fuel h input = Some [] /\
   forall w q, scan_reaches h input "$" w q -> reported h w = None) /\
  (scan_depth fuel h input = false ->
   findUnrepresentableTypes fuel h input = None /\
   exists schema, manual_buildObjectSchema fuel h input = Some schema /\
                  Returns r = manual_result schema).
Proof.
  intros Z E.
  unfold zodJsonSchemaCompat, tryZod4NativeCompat, tryZod4NativeCompat_try in E.
  rewrite Z in E.
  destruct (findUnrepresentableTypes fuel h input) as [found|] eqn:S.
  - pose proof (check_completes_depth h fuel input "$" found S) as D.
    split; [|intros D'; congruence]. intros _.
    destruct (scan_finds_iff_contains fuel h input found S) as (_ & C).
    destruct found as [|d found].
    + split; [reflexivity|].
      intros w q R. destruct (reported h w) as [k|] eqn:K; [|reflexivity].
      exfalso. apply (proj2 C); [|reflexivity]. exists w, q, k. auto.
    + cbn [length Nat.ltb Nat.leb bind] in E.
      rewrite error_message_tagged in E. discriminate.
  - pose proof (proj1 (scan_error_iff fuel h input) S) as D.
    split; [intros D'; congruence|]. intros _. split; [reflexivity|].
    cbn [bind] in E. change (includes ERROR_TAG STACK_EXHAUSTED) with false in E.
    cbn [bind] in E. bind_inv E. exists x. split; [exact E0|].
    destruct x; inv E; reflexivity.
Qed.

Lemma returned_means_clean_scan_witness :
  (findUnrepresentableTypes 3 title_v4 (VObj 6) = Some [] /\
   reported title_v4 (VObj 2) = None) /\
  (findUnrepresentableTypes 3 key_cycle_v4 (VObj 12) = None /\
   reported key_cycle_v4 (VObj 5) = Some "set").
Proof.
  split.
  - destruct (returned_means_clean_scan 3 ZodMissing title_v4 (VObj 6) _ eq_refl eq_refl)
      as (A & _).
    destruct (A eq_refl) as (S & C).
    split; [exact S|].
    apply (C (VObj 2) "$.title").
    apply reaches_child with (suffix := ".title") (child := VObj 2); [vm_compute; auto|].
    apply reaches_here.
  - destruct (returned_means_clean_scan 3 ZodMissing key_cycle_v4 (VObj 12) _ eq_refl
                (key_cycle_returns_document 3 (le_n 3))) as (_ & B).
    destruct (B eq_refl) as (S & _).
    split; [exact S | reflexivity].
Defined.

(* ------------------------------------------------------------------ *)
(** ** Optional layers *)

Lemma not_optional_kind (h : heap) (v : value) :
  readZodType h v <> Some "optional" ->
  mem_string (kind_or_empty h v) OPTIONAL_WRAPPERS = false.
Proof.
  intros N. destruct (mem_string (kind_or_empty h v) OPTIONAL_WRAPPERS) eqn:M; auto.
  apply optional_kind_iff in M. contradiction.
Qed.

Lemma value_eqb_neq (x y : value) : x <> y -> value_eqb x y = false.
Proof.
  intros N. destruct (value_eqb x y) eqn:E; auto.
  apply value_eqb_eq in E. contradiction.
Qed.

Lemma optional_loop_layers (h : heap) (c w : value) (n : nat) :
  optional_layers h c n w ->
  exists fuel0, forall ufuel fuel optional,
    fuel0 <= ufuel -> fuel0 <= fuel ->
    optional_loop ufuel fuel h c optional =
    Some (w, if Nat.eqb n 0 then optional else true).
Proof.
  induction 1 as [v N | v k next n w K C T D L (fuel0 & IH)].
  - exists 0. intros ufuel fuel optional _ _.
    destruct fuel; cbn [optional_loop]; now rewrite (not_optional_kind h v N).
  - exists (Nat.max (S fuel0) k). intros ufuel fuel optional Lu Lf.
    destruct fuel as [|fuel]; [lia|]. cbn [optional_loop].
    assert (O : mem_string (kind_or_empty h v) OPTIONAL_WRAPPERS = true)
      by now apply optional_kind_iff.
    rewrite O, (decorator_chain_unwrap _ _ _ _ C ufuel) by lia. cbn [bind].
    rewrite T, (value_eqb_neq _ _ D). cbn [negb orb].
    rewrite IH by lia. now destruct (Nat.eqb n 0).
Qed.

(** X10. A field converts to the schema of the node found behind its
    decorators and its optional wrappers, however many of them are nested,
    and it is marked optional exactly when at least one optional wrapper
    was crossed. *)
Theorem convertProperty_crosses_optional_layers (h : heap) (field c w : value) (k n : nat) :
  decorator_chain h field k c ->
  optional_layers h c n w ->
  exists fuel0, forall fuel convert,
    fuel0 <= fuel ->
    convertProperty fuel h convert field =
    bind (convert w) (fun schema => Some (schema, negb (Nat.eqb n 0))).
Proof.
  intros C L. destruct (optional_loop_layers h c w n L) as (fuel0 & O).
  exists (Nat.max fuel0 k). intros fuel convert F.
  unfold convertProperty.
  rewrite (decorator_chain_unwrap _ _ _ _ C fuel) by lia. cbn [bind].
  rewrite O by lia. cbn [bind fst snd].
  now destruct (Nat.eqb n 0).
Qed.

Lemma convertProperty_crosses_optional_layers_witness :
  exists fuel0, forall fuel,
    fuel0 <= fuel ->
    convertProperty fuel layered_v3 (convertSchema fuel layered_v3) (VObj 9) =
    bind (convertSchema fuel layered_v3 (VObj 1)) (fun schema => Some (schema, true)).
Proof.
  destruct (convertProperty_crosses_optional_layers layered_v3 (VObj 9) (VObj 7) (VObj 1) 1 2)
    as (fuel0 & H).
  - apply chain_hop with (next := VObj 7); [reflexivity|]. apply chain_stop. reflexivity.
  - apply layers_cross with (k := 0) (next := VObj 5);
      [reflexivity | apply chain_stop; reflexivity | reflexivity | discriminate |].
    apply layers_cross with (k := 1) (next := VObj 1);
      [reflexivity | | reflexivity | discriminate |].
    + apply chain_hop with (next := VObj 1); [reflexivity|]. apply chain_stop. reflexivity.
    + apply layers_done. discriminate.
  - exists fuel0. intros fuel L. apply (H fuel (convertSchema fuel layered_v3) L).
Defined.

(* ------------------------------------------------------------------ *)
(** ** The delegate hands the native document on *)

(** X11. When the input is of the newer representation, the scanner finds
    nothing and the native converter returns an object that has [type]
    "object" and the members [properties] and [additionalProperties], that
    object is returned as it is: nothing is added to it, the members are
    only tested for presence, not for what they hold, and the manual
    converter is not run. *)
Theorem native_document_is_returned_as_is fuel toJSONSchema h input out jsonSchema :
  js_in h "_zod" input = Some true ->
  findUnrepresentableTypes fuel h input = Some [] ->
  toJSONSchema h input = NativeReturns out jsonSchema ->
  is_object out jsonSchema = true ->
  get out jsonSchema "type" = VStr "object" ->
  js_in out "properties" jsonSchema = Some true ->
  js_in out "additionalProperties" jsonSchema = Some true ->
  zodJsonSchemaCompat fuel (ZodNative toJSONSchema) h input =
  Some (Returns (Some (NativeSchema out jsonSchema))).
Proof.
  intros Z S N O T P A.
  unfold zodJsonSchemaCompat, tryZod4NativeCompat, tryZod4NativeCompat_try.
  rewrite Z, S. cbn [bind length Nat.ltb Nat.leb]. rewrite N.
  unfold hasJsonSchemaObjectShape. rewrite O, T, P, A. reflexivity.
Qed.

Lemma native_document_is_returned_as_is_witness :
  zodJsonSchemaCompat 3 hollow_converter title_v4 (VObj 6) =
  Some (Returns (Some (NativeSchema
    [Plain [("type", VStr "object"); ("properties", VUndefined);
            ("additionalProperties", VBool false)]] (VObj 0)))).
Proof.
  apply (native_document_is_returned_as_is 3 _ title_v4 (VObj 6)); reflexivity.
Defined.

(** X12. A primitive root ([undefined], [null], a boolean, a number, a
    string) makes the entry point return [undefined] for every runtime:
    the TypeError that ['_zod' in input] raises is caught in the delegate,
    and no shape can be read from a primitive.  The one exception is a
    string in which the tag of the module occurs: the message of the
    TypeError quotes the string, the [catch] clause finds the tag in it,
    and the TypeError is thrown on. *)
Theorem primitive_root_is_absent fuel env h input :
  (forall a, input <> VObj a) ->
  ((forall s, input = VStr s -> includes ERROR_TAG s = false) ->
   zodJsonSchemaCompat fuel env h input = Some (Returns None)) /\
  (forall s, input = VStr s -> includes ERROR_TAG s = true ->
   zodJsonSchemaCompat fuel env h input = Some (Throws (in_type_error input))).
Proof.
  intros P. rewrite (primitive_root_outcome fuel env h input P). split.
  - intros U. now rewrite (display_untagged input U).
  - intros s -> T. cbn [display]. now rewrite T.
Qed.

Lemma primitive_root_is_absent_witness :
  zodJsonSchemaCompat 0 hollow_converter title_v4 (VStr "schema") = Some (Returns None) /\
  zodJsonSchemaCompat 0 hollow_converter title_v4 (VNum 7) = Some (Returns None) /\
  zodJsonSchemaCompat 0 hollow_converter title_v4 (VStr "see [@openai/agents]") =
    Some (Throws "Cannot use 'in' operator to search for '_zod' in see [@openai/agents]").
Proof.
  split; [|split].
  - destruct (primitive_root_is_absent 0 hollow_converter title_v4 (VStr "schema")) as (A & _).
    + discriminate.
    + apply A. intros s Q. injection Q as <-. reflexivity.
  - destruct (primitive_root_is_absent 0 hollow_converter title_v4 (VNum 7)) as (A & _).
    + discriminate.
    + apply A. intros s Q. discriminate Q.
  - destruct (primitive_root_is_absent 0 hollow_converter title_v4
                (VStr "see [@openai/agents]")) as (_ & B).
    + discriminate.
    + apply (B "see [@openai/agents]"); reflexivity.
Defined.

(* ------------------------------------------------------------------ *)
(** ** Kinds and the entries they convert to *)

(** X13. The kind of the unwrapped node decides the form of the entry:
    whenever [convertSchema] returns an entry, the node it unwraps to has a
    kind, and the entry has the form that belongs to that kind; a node of
    any other kind (optional, lazy, any, unknown, promise, ...) never
    converts. *)
Theorem entry_form_follows_kind (n : nat) (h : heap) (v : value) e :
  convertSchema (S n) h v = Some (Some e) ->
  exists u kind,
    unwrapDecorators n h v = Some u /\
    readZodType h u = Some kind /\
    entry_for_kind kind e.
Proof.
  cbn [convertSchema]. unfold convertSchema_body.
  destruct (is_undefined v); [discriminate|]. intros E. bind_inv E.
  destruct (readZodType h x) as [kind|] eqn:K; [|discriminate].
  exists x, kind. split; [exact E0|]. split; [exact K|].
  destruct (String.eqb kind EmptyString) eqn:Z; [discriminate|].
  unfold SIMPLE_TYPE_MAPPING, dispatch in E. unfold entry_for_kind.
  repeat match goal with
         | H : context [if ?b then _ else _] |- _ => destruct b
         end; try discriminate; try (now inv E);
    unfold buildArraySchema, buildTupleSchema, buildUnionSchema, buildIntersectionSchema,
      buildRecordSchema, buildMapSchema, buildSetSchema, buildNullableSchema,
      buildLiteral, buildEnum in E;
    repeat (apply bind_some in E; destruct E as (? & ? & E));
    repeat match goal with
           | H : context [match ?y with _ => _ end] |- _ => destruct y
           end;
    try discriminate; inv E; eauto;
    try (match goal with
         | H : option_map _ ?y = Some _ |- _ => destruct y; inv H; eauto
         end);
    try (eexists (_ :: _), _; reflexivity).
Qed.

Lemma entry_form_follows_kind_witness :
  exists u kind,
    unwrapDecorators 2 tuples_v3 (VObj 6) = Some u /\
    readZodType tuples_v3 u = Some kind /\
    entry_for_kind kind (JTuple [JType "string"; JType "number"] 2 (Some 2)).
Proof.
  apply (entry_form_follows_kind 2 tuples_v3 (VObj 6)). reflexivity.
Defined.

(* ------------------------------------------------------------------ *)
(** ** Empty containers, literals and enumerations *)

Lemma convertSchema_kind (n : nat) (h : heap) (node u : value) (kind : string) :
  unwrapDecorators n h node = Some u ->
  readZodType h u = Some kind ->
  convertSchema (S n) h node =
  if String.eqb kind EmptyString then Some None
  else
    match SIMPLE_TYPE_MAPPING kind with
    | Some entry => Some (Some entry)
    | None =>
        if mem_string kind OBJECT_PROTOTYPE_KEYS then Some (Some (JInherited kind))
        else dispatch n h (convertSchema n h) kind u (readZodDefinition h u)
    end.
Proof.
  intros U K. cbn [convertSchema]. unfold convertSchema_body.
  rewrite (unwrapped_kind_defined n h node u kind U K), U. cbn [bind]. now rewrite K.
Qed.

(** X14. An object with an empty shape converts, to an object schema
    without properties and with an empty [required] array, whereas a tuple
    without items and a union without options convert to nothing. *)
Theorem empty_containers (n : nat) (h : heap) (node u : value) (kind : string) :
  unwrapDecorators n h node = Some u ->
  readZodType h u = Some kind ->
  (kind = "object" ->
   truthy (readShape h u) = true -> entries h (readShape h u) = [] ->
   convertSchema (S n) h node =
   Some (Some (JObject (MkObjectSchema "object" [] (Some []) (Some false) None)))) /\
  (kind = "tuple" ->
   coerceArray h (get h (readZodDefinition h u) "items") = [] ->
   convertSchema (S n) h node = Some None) /\
  (kind = "union" ->
   coerceArray h (js_coalesce (get h (readZodDefinition h u) "options")
                              (get h (readZodDefinition h u) "schemas")) = [] ->
   convertSchema (S n) h node = Some None).
Proof.
  intros U K. rewrite (convertSchema_kind n h node u kind U K).
  split; [|split]; intros ->.
  - intros T E. cbn -[convertSchema]. unfold buildObjectSchema, readShape_throws.
    unfold readShape in T, E |- *.
    destruct (readShape_outcome h u); [|discriminate]. now rewrite T, E.
  - intros E. cbn -[convertSchema]. unfold buildTupleSchema. now rewrite E.
  - intros E. cbn -[convertSchema]. unfold buildUnionSchema. now rewrite E.
Qed.

Lemma empty_containers_witness :
  convertSchema 1 empty_v3 (VObj 2) =
    Some (Some (JObject (MkObjectSchema "object" [] (Some []) (Some false) None))) /\
  convertSchema 1 empty_v3 (VObj 5) = Some None /\
  convertSchema 1 empty_v3 (VObj 7) = Some None.
Proof.
  split; [|split].
  - destruct (empty_containers 0 empty_v3 (VObj 2) (VObj 2) "object" eq_refl eq_refl)
      as (O & _ & _).
    apply O; reflexivity.
  - destruct (empty_containers 0 empty_v3 (VObj 5) (VObj 5) "tuple" eq_refl eq_refl)
      as (_ & T & _).
    apply T; reflexivity.
  - destruct (empty_containers 0 empty_v3 (VObj 7) (VObj 7) "union" eq_refl eq_refl)
      as (_ & _ & N).
    apply N; reflexivity.
Defined.

(** X15. A literal converts to [{ const, type }] with the value found
    under [value], or else under [literal]; [type] is "null" for [null] and
    otherwise what [typeof] gives.  A literal whose definition holds
    neither (as one that keeps its values under [values]) converts to
    nothing. *)
Theorem literal_conversion (n : nat) (h : heap) (node u : value) :
  unwrapDecorators n h node = Some u ->
  readZodType h u = Some "literal" ->
  let def := readZodDefinition h u in
  let literal := first_defined [get h def "value"; get h def "literal"] in
  (literal = VUndefined -> convertSchema (S n) h node = Some None) /\
  (literal <> VUndefined ->
   convertSchema (S n) h node = Some (Some (JConst literal (js_typeof_literal h literal)))) /\
  js_typeof_literal h VNull = "null" /\
  (forall s, js_typeof_literal h (VStr s) = "string") /\
  (forall z, js_typeof_literal h (VNum z) = "number") /\
  (forall b, js_typeof_literal h (VBool b) = "boolean").
Proof.
  intros U K. cbv zeta.
  rewrite (convertSchema_kind n h node u "literal" U K).
  cbn -[convertSchema buildLiteral first_defined]. unfold buildLiteral.
  destruct (readZodType_def_object h u "literal" K) as (a & D).
  rewrite extractFirst_first_defined. cbn [map]. rewrite D. cbn [truthy].
  set (literal := first_defined [get h (VObj a) "value"; get h (VObj a) "literal"]).
  split; [|split; [|repeat split]].
  - now intros ->.
  - intros N. destruct (is_undefined literal) eqn:I; auto.
    apply is_undefined_iff in I. contradiction.
Qed.

Lemma literal_conversion_witness :
  convertSchema 1 literals (VObj 1) = Some (Some (JConst (VStr "user") "string")) /\
  convertSchema 1 literals (VObj 3) = Some (Some (JConst VNull "null")) /\
  convertSchema 1 literals (VObj 7) = Some None.
Proof.
  split; [|split].
  - apply (literal_conversion 0 literals (VObj 1) (VObj 1) eq_refl eq_refl). discriminate.
  - apply (literal_conversion 0 literals (VObj 3) (VObj 3) eq_refl eq_refl). discriminate.
  - apply (literal_conversion 0 literals (VObj 7) (VObj 7) eq_refl eq_refl). reflexivity.
Defined.

(** X16. An enumeration whose definition holds an array under [values]
    converts to exactly the elements of that array, in order, whatever else
    the definition holds, and also when the array is empty; when [values]
    is an object that is no array and [options] is no array either, the
    members are the values of that object. *)
Theorem enum_conversion (n : nat) (h : heap) (node u : value) (kind : string) :
  unwrapDecorators n h node = Some u ->
  readZodType h u = Some kind ->
  kind = "enum" \/ kind = "nativeenum" ->
  let def := readZodDefinition h u in
  (is_array h (get h def "values") = true ->
   convertSchema (S n) h node = Some (Some (JEnum (array_elems h (get h def "values"))))) /\
  (is_array h (get h def "values") = false ->
   is_array h (get h def "options") = false ->
   truthy (get h def "values") = true ->
   is_object h (get h def "values") = true ->
   convertSchema (S n) h node = Some (Some (JEnum (object_values h (get h def "values"))))).
Proof.
  intros U K E def.
  rewrite (convertSchema_kind n h node u kind U K).
  destruct (readZodType_def_object h u kind K) as (a & D).
  assert (T : truthy def = true) by (unfold def; now rewrite D).
  destruct E as [-> | ->]; cbn -[convertSchema buildEnum]; unfold buildEnum; fold def;
    rewrite T; (split; [intros -> | intros -> -> -> ->]); reflexivity.
Qed.

Lemma enum_conversion_witness :
  convertSchema 1 enums (VObj 2) = Some (Some (JEnum [])) /\
  convertSchema 1 enums (VObj 5) = Some (Some (JEnum [VStr "pending"; VStr "active"])) /\
  convertSchema 1 enums (VObj 8) = Some (Some (JEnum [VStr "UP"; VStr "DOWN"])).
Proof.
  split; [|split].
  - destruct (enum_conversion 0 enums (VObj 2) (VObj 2) "enum" eq_refl eq_refl
                (or_introl eq_refl)) as (A & _).
    apply A. reflexivity.
  - destruct (enum_conversion 0 enums (VObj 5) (VObj 5) "enum" eq_refl eq_refl
                (or_introl eq_refl)) as (A & _).
    apply A. reflexivity.
  - destruct (enum_conversion 0 enums (VObj 8) (VObj 8) "nativeenum" eq_refl eq_refl
                (or_intror eq_refl)) as (_ & B).
    apply B; reflexivity.
Defined.

(* ------------------------------------------------------------------ *)
(** ** Nested objects *)

(** X17. The rule for [required] holds at every level: an object node
    reached through [convertSchema], possibly behind decorators, converts
    to an object schema whose [required] array lists, in the order in which
    the shape is enumerated, the keys of the fields that do not resolve to
    an optional wrapper, each of which, the name [__proto__] apart, has an
    entry in [properties], and that carries no [$schema]. *)
Theorem nested_object_required (n : nat) (h : heap) (node u : value) e :
  unwrapDecorators n h node = Some u ->
  readZodType h u = Some "object" ->
  convertSchema (S n) h node = Some (Some e) ->
  exists properties required,
    e = JObject (MkObjectSchema "object" properties (Some required) (Some false) None) /\
    required_fields h (entries h (readShape h u)) required /\
    forall key, In key required -> key <> "__proto__" -> In key (map fst properties).
Proof.
  intros U K E. rewrite (convertSchema_kind n h node u "object" U K) in E.
  cbn -[convertSchema buildObjectSchema] in E. bind_inv E.
  destruct x as [o|]; inv E.
  apply buildObjectSchema_some in E0. destruct E0 as (_ & _ & E0).
  apply buildObjectSchema_fields_some in E0.
  destruct E0 as (properties & req & -> & R & P). cbn [app].
  exists properties, req. split; [reflexivity|]. split; [exact R|].
  intros key I Q. destruct (required_fields_in _ _ _ R _ I) as (f & F & _).
  apply P. right. split; [|exact Q]. apply in_map_iff. exists (key, f). auto.
Qed.

Lemma nested_object_required_witness :
  exists properties required,
    JObject (MkObjectSchema "object" [("id", JType "string"); ("note", JType "string")]
               (Some ["id"]) (Some false) None) =
    JObject (MkObjectSchema "object" properties (Some required) (Some false) None) /\
    required_fields nested_v3 (entries nested_v3 (readShape nested_v3 (VObj 7))) required /\
    forall key, In key required -> key <> "__proto__" -> In key (map fst properties).
Proof.
  apply (nested_object_required 2 nested_v3 (VObj 9) (VObj 7)); reflexivity.
Defined.

(* ------------------------------------------------------------------ *)
(** ** Intersections and unions *)

(** X18. An intersection converts both sides, left first, and yields
    [allOf] of the two entries only when both sides yield a schema; when
    either side yields none, the intersection yields none. *)
Theorem intersection_needs_both_sides (n : nat) (h : heap) (node u : value) l r :
  unwrapDecorators n h node = Some u ->
  readZodType h u = Some "intersection" ->
  convertSchema n h (get h (readZodDefinition h u) "left") = Some l ->
  convertSchema n h (get h (readZodDefinition h u) "right") = Some r ->
  convertSchema (S n) h node =
  Some (match l, r with
        | Some a, Some b => Some (JAllOf [a; b])
        | _, _ => None
        end).
Proof.
  intros U K L R. rewrite (convertSchema_kind n h node u "intersection" U K).
  cbn -[convertSchema]. unfold buildIntersectionSchema. rewrite L, R. cbn [bind].
  now destruct l, r.
Qed.

(** X19. The entry of a union that converts is [anyOf] of the conversions
    of the options that yielded a schema, in the order of the options;
    options that yield none are left out, and the union yields nothing
    only when no option is left. *)
Theorem union_entry_shape (n : nat) (h : heap) (node u : value) r :
  unwrapDecorators n h node = Some u ->
  readZodType h u = Some "union" ->
  convertSchema (S n) h node = Some r ->
  let def := readZodDefinition h u in
  exists results,
    Forall2 (fun option result => convertSchema n h option = Some result)
            (coerceArray h (js_coalesce (get h def "options") (get h def "schemas")))
            results /\
    (filter_defined results = [] -> r = None) /\
    (filter_defined results <> [] -> r = Some (JAnyOf (filter_defined results))).
Proof.
  intros U K E. cbv zeta. rewrite (convertSchema_kind n h node u "union" U K) in E.
  cbn -[convertSchema] in E. unfold buildUnionSchema in E. bind_inv E.
  exists x. split; [now apply mapM_Forall2|].
  destruct (filter_defined x); inv E; split; congruence.
Qed.

(* ------------------------------------------------------------------ *)
(** ** Optional and nullable wrappers in the scan *)

(** X20. The scanner looks through an optional or nullable wrapper
    without extending the path: the diagnostics of the wrapper are those
    of the node held under [innerType] (or else [type]), at the path of
    the wrapper, and there are none when the wrapper holds nothing. *)
Theorem check_through_optional (n : nat) (h : heap) (v : value) (kind p : string) :
  readZodType h v = Some kind ->
  kind = "optional" \/ kind = "nullable" ->
  let def := readZodDefinition h v in
  let inner := js_or (get h def "innerType") (get h def "type") in
  check (S n) h v p = if truthy inner then check n h inner p else Some [].
Proof.
  intros K E. cbv zeta. cbn [check]. unfold check_body.
  rewrite (readZodType_is_object h v kind K), K.
  destruct E as [-> | ->]; cbn -[check]; unfold check_if;
    destruct (truthy (js_or (get h (readZodDefinition h v) "innerType")
                            (get h (readZodDefinition h v) "type")));
    cbn [check_all bind]; try reflexivity;
    destruct (check n h _ p); cbn [bind]; try reflexivity; now rewrite app_nil_r.
Qed.

Lemma intersection_needs_both_sides_witness :
  convertSchema 2 intersections_v3 (VObj 7) =
    Some (Some (JAllOf [JType "string"; JType "number"])) /\
  convertSchema 2 intersections_v3 (VObj 9) = Some None.
Proof.
  split.
  - apply (intersection_needs_both_sides 1 intersections_v3 (VObj 7) (VObj 7)
             (Some (JType "string")) (Some (JType "number"))); reflexivity.
  - apply (intersection_needs_both_sides 1 intersections_v3 (VObj 9) (VObj 9)
             (Some (JType "string")) None); reflexivity.
Defined.

Lemma union_entry_shape_witness :
  exists results,
    Forall2 (fun option result => convertSchema 2 tuples_v3 option = Some result)
            [VObj 1; VObj 8] results /\
    (filter_defined results <> [] ->
     Some (JAnyOf [JType "string"]) = Some (JAnyOf (filter_defined results))).
Proof.
  destruct (union_entry_shape 2 tuples_v3 (VObj 13) (VObj 13)
              (Some (JAnyOf [JType "string"])) eq_refl eq_refl eq_refl)
    as (results & F & _ & S).
  exists results. split; [exact F | exact S].
Defined.

Lemma check_through_optional_witness :
  check 2 optional_set_v4 (VObj 8) "$.tags" = check 1 optional_set_v4 (VObj 5) "$.tags" /\
  check 1 optional_set_v4 (VObj 5) "$.tags" = Some [MkDiagnostic "set" "$.tags"].
Proof.
  split; [|reflexivity].
  apply (check_through_optional 1 optional_set_v4 (VObj 8) "optional" "$.tags" eq_refl).
  left. reflexivity.
Defined.
